(** * Authentication and session lifecycle of the collaboration backend

    A shallow embedding of the session gate ([JwtStrategy.validate]), the
    HTTP boundary of the login flows ([AuthController], [GoogleStrategy])
    and the project CRUD service ([ProjectsService]), together with the
    properties the design document states about them.

    Conventions.
    - Instants are [Z], milliseconds since the epoch: the value of
      [Date.getTime()].  The [iat] of a token payload is in whole seconds,
      the way the gate itself reads it ([getTime() / 1000]).
    - A JavaScript value that may be [undefined] is an [option]; the empty
      string is falsy, every other string is truthy.
    - The users collection is a list in insertion order; the projects
      collection is a finite map keyed by [_id]; the Revocation Registry
      and the ledger of minted tokens are finite maps keyed by the token
      string. *)

From stdpp Require Import gmap strings list fin_maps pretty.
From Stdlib Require Import ZArith Lia.

Local Open Scope Z_scope.

(** ** JavaScript helpers *)

Module Js.

(** Truthiness of a possibly-undefined string. *)
Definition truthy (v : option string) : bool :=
  match v with
  | Some s => negb (String.eqb s "")
  | None => false
  end.

(** [a || b] on possibly-undefined strings. *)
Definition or (a b : option string) : option string :=
  if truthy a then a else b.

Fixpoint dropChars (n : nat) (s : string) : string :=
  match n, s with
  | O, _ => s
  | S n', String _ s' => dropChars n' s'
  | S _, EmptyString => EmptyString
  end.

(** [s.replace(pat, rep)] with a string pattern: the first occurrence
    of [pat] is replaced, the rest of [s] is kept.  ([rep] holds no
    [$] pattern at the call sites modelled here.) *)
Fixpoint replace (pat rep s : string) : string :=
  if String.prefix pat s then rep +:+ dropChars (String.length pat) s
  else match s with
       | EmptyString => EmptyString
       | String c s' => String c (replace pat rep s')
       end.

End Js.

(** ** Data model *)

(** An identity document of the Credential Store.  [uid] is [_id]. *)
Record User := mkUser {
  uid : string;
  userEmail : string;
  passwordHash : option string;
  oauthLink : option (string * string);
  twoFactorSecret : option string;
  twoFactorEnabled : bool;
  failedLoginAttempts : nat;
  lockoutUntil : option Z;
  lastPasswordChange : option Z;
  emailVerified : bool
}.

(** The decoded token payload handed to [validate] by the passport
    strategy once signature and expiry have been verified. *)
Record JwtPayload := mkPayload {
  sub : string;
  email : string;
  provider : string;
  iat : Z
}.

(** The object [validate] returns, attached to [request.user]. *)
Record Principal := mkPrincipal {
  principalSub : string;
  principalEmail : string;
  principalProvider : string;
  principalIat : Z
}.

(** The OAuth profile a provider hands over. *)
Record Profile := mkProfile {
  profileProvider : string;
  profileSubject : string;
  profileEmail : string;
  profileName : string
}.

Inductive RequestUser :=
| JwtUser (p : Principal)
| OAuthUser (p : Profile).

Record Cookies := mkCookies {
  accessTokenCookie : option string;
  refreshTokenCookie : option string
}.

(** The parts of the express request the code reads: [req.cookies],
    [req.headers.authorization], [req.user], [req.ip] and
    [req.headers['user-agent']]. *)
Record Request := mkRequest {
  cookies : option Cookies;
  authorization : option string;
  user : option RequestUser;
  ip : option string;
  userAgent : option string
}.

(** The error taxonomy.  The gate throws [UnauthorizedException] with the
    messages given by [message]; the controller throws
    [BadRequestException]; the project service throws
    [NotFoundException] and [ForbiddenException]. *)
Inductive Rejection :=
| DuplicateIdentity
| InvalidCredentials
| InvalidTwoFactorCode
| AccountLocked
| TokenRevoked
| TokenReplayDetected
| StaleCredentials
| IdentityNotFound
| InvalidOrExpiredToken
| BadRequest (msg : string)
| InternalError (msg : string).

Definition message (r : Rejection) : string :=
  match r with
  | TokenRevoked => "Token has been revoked"
  | IdentityNotFound => "User not found"
  | StaleCredentials => "Password was changed. Please login again."
  | AccountLocked => "Account is locked"
  | BadRequest m => m
  | InternalError m => m
  | DuplicateIdentity => "DuplicateIdentity"
  | InvalidCredentials => "InvalidCredentials"
  | InvalidTwoFactorCode => "InvalidTwoFactorCode"
  | TokenReplayDetected => "TokenReplayDetected"
  | InvalidOrExpiredToken => "InvalidOrExpiredToken"
  end.

Inductive TokenKind := AccessToken | RefreshToken | ChallengeToken.

(** What a minted token carries. *)
Record TokenInfo := mkTokenInfo {
  tokenKind : TokenKind;
  tokenSub : string;
  tokenEmail : string;
  tokenProvider : string;
  tokenIat : Z;
  tokenExpiry : Z;
  tokenFamily : N
}.

(** The state the subsystem works on: the Credential Store, the
    Revocation Registry (token string to natural expiry), the ledger of
    minted tokens, the refresh tokens already exchanged, and the serial
    number of the next token. *)
Record AuthState := mkAuthState {
  users : list User;
  blacklist : gmap string Z;
  issued : gmap string TokenInfo;
  rotated : gset string;
  nextSerial : N
}.

(** Modelled from the spec: [TokenBlacklistService.isTokenBlacklisted]
    ([services/token-blacklist.service.ts] is missing), the
    [isRevoked(tokenId)] lookup of the Revocation Registry. *)
Definition isTokenBlacklisted (st : AuthState) (token : string) : bool :=
  bool_decide (is_Some (blacklist st !! token)).

(** Modelled from the spec: [UsersService.findById] and [findByEmail]
    ([users/users.service.ts] is missing), the lookups of the Credential
    Store. *)
Definition findById (st : AuthState) (i : string) : option User :=
  List.find (fun u => String.eqb (uid u) i) (users st).

Definition findByEmail (st : AuthState) (e : string) : option User :=
  List.find (fun u => String.eqb (userEmail u) e) (users st).

(** ** Token extraction: [ExtractJwt]

    [passport-jwt] is a library and not among the sources; the strategy
    is configured with two of its extractors, which decide which string
    is verified and decoded before [validate] runs.  They are written
    down here as the library has them ([lib/extract_jwt.js],
    [lib/auth_header.js]). *)

Module ExtractJwt.

(** The characters the class [\s] matches among those a header value
    holds (Latin-1): tab to carriage return, the space and the no-break
    space. *)
Definition isWhitespace (c : Ascii.ascii) : bool :=
  let n := Ascii.N_of_ascii c in
  ((9 <=? n) && (n <=? 13) || (n =? 32) || (n =? 160))%N.

(** The longest prefix of [s] whose characters satisfy [p], and what
    follows it. *)
Fixpoint span (p : Ascii.ascii → bool) (s : string) : string * string :=
  match s with
  | EmptyString => (EmptyString, EmptyString)
  | String c s' =>
      if p c then let '(run, rest) := span p s' in (String c run, rest)
      else (EmptyString, s)
  end.

(** [auth_header.parse]: [hdrValue.match(/(\S+)\s+(\S+)/)], the scheme and
    the value.  The leftmost match is the first two words of the header,
    whatever whitespace separates them. *)
Definition parse (hdrValue : string) : option (string * string) :=
  let '(_, s1) := span isWhitespace hdrValue in
  let '(scheme, s2) := span (fun c => negb (isWhitespace c)) s1 in
  let '(gap, s3) := span isWhitespace s2 in
  let '(value, _) := span (fun c => negb (isWhitespace c)) s3 in
  if Js.truthy (Some scheme) && Js.truthy (Some gap) && Js.truthy (Some value)
  then Some (scheme, value)
  else None.

Definition lowerChar (c : Ascii.ascii) : Ascii.ascii :=
  let n := Ascii.N_of_ascii c in
  if ((65 <=? n) && (n <=? 90)
      || (192 <=? n) && (n <=? 222) && negb (n =? 215))%N
  then Ascii.ascii_of_N (n + 32)
  else c.

(** [s.toLowerCase()] on Latin-1 text *)
Fixpoint toLowerCase (s : string) : string :=
  match s with
  | EmptyString => EmptyString
  | String c s' => String (lowerChar c) (toLowerCase s')
  end.

(** [fromAuthHeaderAsBearerToken()], that is
    [fromAuthHeaderWithScheme('bearer')]: the scheme is compared in lower
    case. *)
Definition fromAuthHeaderAsBearerToken (request : Request) : option string :=
  match authorization request with
  | Some h =>
      if Js.truthy (Some h) then
        match parse h with
        | Some (scheme, value) =>
            if String.eqb "bearer" (toLowerCase scheme) then Some value
            else None
        | None => None
        end
      else None
  | None => None
  end.

(** [fromExtractors(extractors)]: the token of the first extractor that
    yields a truthy one. *)
Fixpoint fromExtractors (extractors : list (Request → option string))
    (request : Request) : option string :=
  match extractors with
  | [] => None
  | extractor :: rest =>
      if Js.truthy (extractor request) then extractor request
      else fromExtractors rest request
  end.

(** A token as it travels: not empty and without whitespace. *)
Definition compact (t : string) : bool :=
  Js.truthy (Some t)
  && forallb (fun c => negb (isWhitespace c)) (String.list_ascii_of_string t).

End ExtractJwt.

(** ** The session gate: [JwtStrategy.validate] *)

Module JwtStrategy.

(** [req.cookies?.accessToken || req.headers.authorization?.replace('Bearer ', '')] *)
Definition requestToken (req : Request) : option string :=
  Js.or (c ← cookies req; accessTokenCookie c)
        (Js.replace "Bearer " "" <$> authorization req).

(** [user.lockoutUntil && user.lockoutUntil > new Date()] *)
Definition locked (now : Z) (u : User) : bool :=
  match lockoutUntil u with
  | Some t => now <? t
  | None => false
  end.

(** [user.lastPasswordChange] set and
    [payload.iat < Math.floor(user.lastPasswordChange.getTime() / 1000)] *)
Definition stale (u : User) (payload : JwtPayload) : bool :=
  match lastPasswordChange u with
  | Some changed => iat payload <? changed / 1000
  | None => false
  end.

(** [if (token) { if (await isTokenBlacklisted(token)) throw ... }] *)
Definition revoked (st : AuthState) (req : Request) : bool :=
  let token := requestToken req in
  Js.truthy token && default false (isTokenBlacklisted st <$> token).

Definition principalOf (payload : JwtPayload) : Principal :=
  mkPrincipal (sub payload) (email payload) (provider payload) (iat payload).

Definition validate (st : AuthState) (now : Z) (req : Request)
    (payload : JwtPayload) : Rejection + Principal :=
  if revoked st req then inl TokenRevoked
  else
    match findById st (sub payload) with
    | None => inl IdentityNotFound
    | Some u =>
        if stale u payload then inl StaleCredentials
        else if locked now u then inl AccountLocked
        else inr (principalOf payload)
    end.

(** The two ways of carrying a token on which the extractor of the
    strategy and line 43 agree: the cookie, and a header spelled exactly
    [Bearer ] and the token.  The extractor accepts more (the scheme in
    any case, any run of whitespace after it); see [jwtFromRequest]. *)
Definition viaCookie (token : string) (req : Request) : Prop :=
  (c ← cookies req; accessTokenCookie c) = Some token.

Definition viaBearerHeader (token : string) (req : Request) : Prop :=
  Js.truthy (c ← cookies req; accessTokenCookie c) = false ∧
  authorization req = Some ("Bearer " +:+ token).

Definition carries (req : Request) (token : string) : Prop :=
  token ≠ "" ∧ (viaCookie token req ∨ viaBearerHeader token req).

(** [jwtFromRequest] of the constructor: the cookie first, the
    [Authorization] header as fallback. *)
Definition jwtFromRequest : Request → option string :=
  ExtractJwt.fromExtractors
    [fun request => c ← cookies request; accessTokenCookie c;
     ExtractJwt.fromAuthHeaderAsBearerToken].

(** What the strategy does with a request: the token is extracted, its
    signature and expiry are verified against [JWT_SECRET] ([verify],
    which yields the decoded payload), and [validate] is called with the
    request and that payload. *)
Definition authenticate (verify : string → option JwtPayload)
    (st : AuthState) (now : Z) (req : Request) : Rejection + Principal :=
  match jwtFromRequest req with
  | None => inl InvalidOrExpiredToken
  | Some token =>
      match verify token with
      | None => inl InvalidOrExpiredToken
      | Some payload => validate st now req payload
      end
  end.

End JwtStrategy.

(** ** The login policy engine: [AuthService]

    [auth.service.ts] is not among the sources; the controller and the
    two strategies only call into it.  Its operations are modelled from
    sections 3, 4.1, 4.2 and 4.4 of the design document. *)

(** Modelled from the spec: the configuration structure of section 9
    (the configuration of [auth.service.ts] is missing). *)
Record Config := mkConfig {
  accessTtl : Z;
  refreshTtl : Z;
  challengeTtl : Z;
  lockoutThreshold : nat;
  lockoutWindow : Z;
  totpSkewSteps : Z
}.

(** What [login] resolves to: either [{ requires2FA, tempToken }] or
    [{ accessToken, refreshToken }].  A key the object does not have is
    [None]. *)
Record LoginResult := mkLoginResult {
  requires2FA : option bool;
  tempToken : option string;
  accessToken : option string;
  refreshToken : option string
}.

Record TokenPair := mkTokenPair {
  pairAccessToken : string;
  pairRefreshToken : string
}.

Definition setUsers (us : list User) (st : AuthState) : AuthState :=
  mkAuthState us (blacklist st) (issued st) (rotated st) (nextSerial st).

Definition setBlacklist (b : gmap string Z) (st : AuthState) : AuthState :=
  mkAuthState (users st) b (issued st) (rotated st) (nextSerial st).

Definition setFailures (n : nat) (until : option Z) (u : User) : User :=
  mkUser (uid u) (userEmail u) (passwordHash u) (oauthLink u)
         (twoFactorSecret u) (twoFactorEnabled u) n until
         (lastPasswordChange u) (emailVerified u).

Definition setOauthLink (k : string * string) (u : User) : User :=
  mkUser (uid u) (userEmail u) (passwordHash u) (Some k)
         (twoFactorSecret u) (twoFactorEnabled u) (failedLoginAttempts u)
         (lockoutUntil u) (lastPasswordChange u) (emailVerified u).

(** Modelled from the spec: [save(identity)] of the Credential Store
    ([users/users.service.ts] is missing), document-store semantics: the
    document with the same [_id] is replaced, a document that is not
    there yet is added. *)
Fixpoint saveUser (u : User) (l : list User) : list User :=
  match l with
  | [] => [u]
  | x :: l' => if String.eqb (uid x) (uid u) then u :: l' else x :: saveUser u l'
  end.

Definition tokenPrefix (k : TokenKind) : string :=
  match k with
  | AccessToken => "a."
  | RefreshToken => "r."
  | ChallengeToken => "c."
  end.

(** Modelled from the spec: the bearer string of a minted token
    ([auth.service.ts] is missing), an opaque value; here the kind and the
    serial number [n], distinct for distinct tokens. *)
Definition tokenString (k : TokenKind) (n : N) : string :=
  tokenPrefix k +:+ pretty n.

Module TokenIssuer.

(** Modelled from the spec: the signing step of the Token Issuer
    ([auth.service.ts] is missing).  A token carries subject, issued-at
    in whole seconds, expiry, family and provider tag; the ledger
    [issued] records what verifying the signature recovers. *)
Definition mint (k : TokenKind) (ttl now : Z) (s e prov : string) (fam : N)
    (st : AuthState) : string * AuthState :=
  let tok := tokenString k (nextSerial st) in
  let info := mkTokenInfo k s e prov (now / 1000) (now + ttl) fam in
  (tok, mkAuthState (users st) (blacklist st) (<[tok := info]> (issued st))
                    (rotated st) (N.succ (nextSerial st))).

Definition issuePair (cfg : Config) (now : Z) (s e prov : string) (fam : N)
    (st : AuthState) : TokenPair * AuthState :=
  let '(a, st1) := mint AccessToken (accessTtl cfg) now s e prov fam st in
  let '(r, st2) := mint RefreshToken (refreshTtl cfg) now s e prov fam st1 in
  (mkTokenPair a r, st2).

(** Modelled from the spec: [issue(identity, provider)] of the Token
    Issuer ([auth.service.ts] is missing); the pair opens a token family
    of its own. *)
Definition issue (cfg : Config) (now : Z) (u : User) (prov : string)
    (st : AuthState) : TokenPair * AuthState :=
  issuePair cfg now (uid u) (userEmail u) prov (nextSerial st) st.

(** Modelled from the spec: [issueChallenge(identity)] of the Token
    Issuer ([auth.service.ts] is missing). *)
Definition issueChallenge (cfg : Config) (now : Z) (u : User)
    (st : AuthState) : string * AuthState :=
  mint ChallengeToken (challengeTtl cfg) now (uid u) (userEmail u) "local"
       (nextSerial st) st.

End TokenIssuer.

Module RevocationRegistry.

(** Modelled from the spec: [revoke(tokenId, naturalExpiry)] of the
    Revocation Registry ([services/token-blacklist.service.ts] is
    missing). *)
Definition revoke (token : string) (naturalExpiry : Z) (st : AuthState)
    : AuthState :=
  setBlacklist (<[token := naturalExpiry]> (blacklist st)) st.

Definition inFamily (fam : N) (kv : string * TokenInfo) : Prop :=
  tokenFamily kv.2 = fam.

#[global] Instance inFamily_dec fam kv : Decision (inFamily fam kv).
Proof. unfold inFamily. apply _. Defined.

(** Modelled from the spec: [revokeFamily(familyId)] of the Revocation
    Registry ([services/token-blacklist.service.ts] is missing) revokes
    every token minted in the family, each with its natural expiry. *)
Definition revokeFamily (fam : N) (st : AuthState) : AuthState :=
  setBlacklist ((tokenExpiry <$> filter (inFamily fam) (issued st))
                ∪ blacklist st) st.

(** Modelled from the spec: the natural expiry of a token
    ([auth.service.ts] is missing); a string that was never minted has
    none left to wait for. *)
Definition naturalExpiry (st : AuthState) (token : string) : Z :=
  default 0 (tokenExpiry <$> issued st !! token).

End RevocationRegistry.

Module AuthService.
Section Service.

Variable cfg : Config.
(** The password hashing primitive [verify(plain, digest)]. *)
Variable verifyPassword : string → string → bool.

(** Modelled from the spec: the hash comparison of [AuthService.login]
    ([auth.service.ts] is missing); an identity without a password hash
    matches no password. *)
Definition passwordMatches (u : User) (password : string) : bool :=
  match passwordHash u with
  | Some digest => verifyPassword password digest
  | None => false
  end.

(** Modelled from the spec: the LockoutState rule of [AuthService.login]
    ([auth.service.ts] is missing): once lockout-until has passed, the
    counter resets on the next attempted login. *)
Definition afterLockout (now : Z) (u : User) : User :=
  match lockoutUntil u with
  | Some t => if t <=? now then setFailures 0 None u else u
  | None => u
  end.

(** Modelled from the spec: the counting rule of [AuthService.login]
    ([auth.service.ts] is missing): a mismatch increments the counter;
    when the count reaches the threshold, lockout-until becomes
    now + window. *)
Definition recordFailure (now : Z) (u : User) : User :=
  let n := S (failedLoginAttempts u) in
  setFailures n
    (if (lockoutThreshold cfg <=? n)%nat
     then Some (now + lockoutWindow cfg) else lockoutUntil u) u.

(** Modelled from the spec: [AuthService.login(email, password)]
    ([auth.service.ts] is missing), section 4.2. *)
Definition login (now : Z) (e password : string) (st : AuthState)
    : AuthState * (Rejection + LoginResult) :=
  match findByEmail st e with
  | None => (st, inl InvalidCredentials)
  | Some u =>
      if JwtStrategy.locked now u then (st, inl AccountLocked)
      else
        let u0 := afterLockout now u in
        if passwordMatches u0 password then
          if twoFactorEnabled u0 then
            let '(c, st1) :=
              TokenIssuer.issueChallenge cfg now u0
                (setUsers (saveUser u0 (users st)) st) in
            (st1, inr (mkLoginResult (Some true) (Some c) None None))
          else
            let u1 := setFailures 0 None u0 in
            let '(p, st1) :=
              TokenIssuer.issue cfg now u1 "local"
                (setUsers (saveUser u1 (users st)) st) in
            (st1, inr (mkLoginResult None None
                         (Some (pairAccessToken p))
                         (Some (pairRefreshToken p))))
        else
          (setUsers (saveUser (recordFailure now u0) (users st)) st,
           inl InvalidCredentials)
  end.

(** Modelled from the spec: [AuthService.refreshAccessToken(refreshToken)]
    ([auth.service.ts] is missing), which delegates to the Token Issuer's
    [rotate]: an exchanged token that comes back is a replay. *)
Definition refreshAccessToken (now : Z) (token : string) (st : AuthState)
    : AuthState * (Rejection + TokenPair) :=
  match issued st !! token with
  | None => (st, inl InvalidOrExpiredToken)
  | Some info =>
      match tokenKind info with
      | RefreshToken =>
          if bool_decide (token ∈ rotated st) then
            (RevocationRegistry.revokeFamily (tokenFamily info) st,
             inl TokenReplayDetected)
          else if (tokenExpiry info <=? now) || isTokenBlacklisted st token
          then (st, inl InvalidOrExpiredToken)
          else
            let st1 := mkAuthState (users st) (blacklist st) (issued st)
                                   ({[token]} ∪ rotated st) (nextSerial st) in
            let '(p, st2) :=
              TokenIssuer.issuePair cfg now (tokenSub info) (tokenEmail info)
                (tokenProvider info) (tokenFamily info) st1 in
            (st2, inr p)
      | _ => (st, inl InvalidOrExpiredToken)
      end
  end.

(** Modelled from the spec: one token of [AuthService.logout]
    ([auth.service.ts] is missing); a cookie that is absent revokes
    nothing. *)
Definition revokeIfPresent (token : option string) (st : AuthState)
    : AuthState :=
  match token with
  | Some t =>
      RevocationRegistry.revoke t (RevocationRegistry.naturalExpiry st t) st
  | None => st
  end.

(** Modelled from the spec: [AuthService.logout(accessToken,
    refreshToken, userId)] ([auth.service.ts] is missing) adds both
    tokens to the Revocation Registry with their natural expiries. *)
Definition logout (a r : option string) (userId : string) (st : AuthState)
    : AuthState * (Rejection + unit) :=
  (revokeIfPresent r (revokeIfPresent a st), inr tt).

Definition linkedTo (k : string * string) (u : User) : bool :=
  bool_decide (oauthLink u = Some k).

Definition verifiedEmail (e : string) (u : User) : bool :=
  String.eqb (userEmail u) e && emailVerified u.

Definition profileKey (p : Profile) : string * string :=
  (profileProvider p, profileSubject p).

(** Modelled from the spec: [AuthService.validateOAuthLogin(profile)]
    ([auth.service.ts] is missing): look up by (provider, subject), else
    link to the identity with the same verified email, else create; then
    issue a pair. *)
Definition validateOAuthLogin (now : Z) (p : Profile) (st : AuthState)
    : AuthState * (Rejection + TokenPair) :=
  let k := profileKey p in
  let '(u, st0) :=
    match List.find (linkedTo k) (users st) with
    | Some u => (u, st)
    | None =>
        match List.find (verifiedEmail (profileEmail p)) (users st) with
        | Some u =>
            let u' := setOauthLink k u in
            (u', setUsers (saveUser u' (users st)) st)
        | None =>
            let u' := mkUser ("u." +:+ pretty (nextSerial st)) (profileEmail p)
                             None (Some k) None false O None None true in
            (u', mkAuthState (users st ++ [u']) (blacklist st) (issued st)
                             (rotated st) (N.succ (nextSerial st)))
        end
    end in
  let '(tp, st1) := TokenIssuer.issue cfg now u (profileProvider p) st0 in
  (st1, inr tp).

End Service.
End AuthService.

(** ** The HTTP boundary: [AuthController], [GoogleStrategy], the guards *)

(** The operations of [AuthService] the boundary calls, over a state [S].
    Every operation may reject. *)
Record AuthServiceApi (S : Type) := mkApi {
  apiLogin : string → string → option string → option string →
             S → S * (Rejection + LoginResult);
  apiRefreshAccessToken : string → option string → option string →
             S → S * (Rejection + TokenPair);
  apiLogout : option string → option string → string →
             S → S * (Rejection + unit);
  apiValidateOAuthLogin : Profile → option string → option string →
             S → S * (Rejection + TokenPair)
}.

Arguments apiLogin {S}.
Arguments apiRefreshAccessToken {S}.
Arguments apiLogout {S}.
Arguments apiValidateOAuthLogin {S}.

Inductive Body :=
| SuccessBody
| Requires2FABody (temp : option string).

(** What a handler does to the response, in order.  Every cookie is set
    [httpOnly] with [sameSite: 'lax']; [secure] follows [NODE_ENV]. *)
Inductive Effect :=
| SetCookie (name : string) (value : option string) (maxAge : Z)
| ClearCookie (name : string)
| Json (b : Body)
| Redirect (url : string).

Definition accessMaxAge : Z := 15 * 60 * 1000.
Definition refreshMaxAge : Z := 30 * 24 * 60 * 60 * 1000.

Record LoginDto := mkLoginDto {
  loginEmail : string;
  loginPassword : string
}.

Module GoogleStrategy.
Section Strategy.
Context {S : Type} (authService : AuthServiceApi S).

(** [validate(accessToken, refreshToken, profile, done)]: the service is
    called with the profile alone and its result is dropped;
    [done(null, profile)] hands the raw profile on as [req.user]. *)
Definition validate (accessToken refreshToken : string) (profile : Profile)
    (st : S) : S * (Rejection + Profile) :=
  match apiValidateOAuthLogin authService profile None None st with
  | (st', inl e) => (st', inl e)
  | (st', inr _) => (st', inr profile)
  end.

End Strategy.
End GoogleStrategy.

Module AuthController.
Section Controller.
Context {S : Type} (authService : AuthServiceApi S).
(** [process.env.FRONTEND_URL] *)
Variable frontendUrl : option string.

Definition tokenCookies (a r : option string) : list Effect :=
  [SetCookie "accessToken" a accessMaxAge;
   SetCookie "refreshToken" r refreshMaxAge].

(** [GET auth/google/redirect].  The guard has put the provider profile
    in [req.user]; any other request is an internal error here. *)
Definition googleAuthRedirect (req : Request) (st : S)
    : S * (Rejection + list Effect) :=
  match user req with
  | Some (OAuthUser profile) =>
      match apiValidateOAuthLogin authService profile (ip req)
              (userAgent req) st with
      | (st', inl e) => (st', inl e)
      | (st', inr tp) =>
          (st', inr (tokenCookies (Some (pairAccessToken tp))
                                  (Some (pairRefreshToken tp))
                     ++ [Redirect (default "http://localhost:3001"
                                     (Js.or frontendUrl None)
                                   +:+ "/dashboard")]))
      end
  | _ => (st, inl (InternalError "req.user is not a provider profile"))
  end.

(** [POST auth/login] *)
Definition login (loginDto : LoginDto) (req : Request) (st : S)
    : S * (Rejection + list Effect) :=
  match apiLogin authService (loginEmail loginDto) (loginPassword loginDto)
          (ip req) (userAgent req) st with
  | (st', inl e) => (st', inl e)
  | (st', inr result) =>
      if default false (requires2FA result) then
        (st', inr [Json (Requires2FABody (tempToken result))])
      else
        (st', inr ((if bool_decide (is_Some (accessToken result))
                    then tokenCookies (accessToken result)
                                      (refreshToken result)
                    else [])
                   ++ [Json SuccessBody]))
  end.

(** [POST auth/refresh]: only [accessToken] is taken from the result
    and only that cookie is set. *)
Definition refreshToken (req : Request) (st : S)
    : S * (Rejection + list Effect) :=
  let token := c ← cookies req; refreshTokenCookie c in
  match token with
  | Some t =>
      if Js.truthy token then
        match apiRefreshAccessToken authService t (ip req)
                (userAgent req) st with
        | (st', inl e) => (st', inl e)
        | (st', inr tp) =>
            (st', inr [SetCookie "accessToken" (Some (pairAccessToken tp))
                         accessMaxAge;
                       Json SuccessBody])
        end
      else (st, inl (BadRequest "Refresh token not found"))
  | None => (st, inl (BadRequest "Refresh token not found"))
  end.

(** [POST auth/logout], behind [JwtAuthGuard]: the tokens are read from
    the cookies only. *)
Definition logout (req : Request) (st : S)
    : S * (Rejection + list Effect) :=
  let a := c ← cookies req; accessTokenCookie c in
  let r := c ← cookies req; refreshTokenCookie c in
  match user req with
  | Some (JwtUser principal) =>
      let userId := principalSub principal in
      let done := [ClearCookie "accessToken"; ClearCookie "refreshToken";
                   Json SuccessBody] in
      if Js.truthy a || Js.truthy r then
        match apiLogout authService a r userId st with
        | (st', inl e) => (st', inl e)
        | (st', inr _) => (st', inr done)
        end
      else (st, inr done)
  | _ => (st, inl (InternalError "req.user has no sub"))
  end.

End Controller.
End AuthController.

(** [JwtAuthGuard]: the passport strategy verifies signature and expiry,
    which yields [payload], runs [JwtStrategy.validate] and attaches the
    principal to the request. *)
Definition jwtAuthGuard (st : AuthState) (now : Z) (req : Request)
    (payload : JwtPayload) : Rejection + Request :=
  match JwtStrategy.validate st now req payload with
  | inl e => inl e
  | inr p => inr (mkRequest (cookies req) (authorization req)
                            (Some (JwtUser p)) (ip req) (userAgent req))
  end.

(** A completed Google login: [AuthGuard('google')] on the redirect route
    runs the strategy's [validate] on the profile the provider returned,
    attaches what [done] was given to [req.user], and the handler runs. *)
Definition completeGoogleLogin {S : Type} (authService : AuthServiceApi S)
    (frontendUrl : option string) (providerAccess providerRefresh : string)
    (profile : Profile) (req : Request) (st : S)
    : S * (Rejection + list Effect) :=
  match GoogleStrategy.validate authService providerAccess providerRefresh
          profile st with
  | (st1, inl e) => (st1, inl e)
  | (st1, inr u) =>
      AuthController.googleAuthRedirect authService frontendUrl
        (mkRequest (cookies req) (authorization req) (Some (OAuthUser u))
                   (ip req) (userAgent req)) st1
  end.

(** The modelled [AuthService] behind the boundary, at instant [now]. *)
Definition authServiceAt (cfg : Config) (verifyPassword : string → string → bool)
    (now : Z) : AuthServiceApi AuthState :=
  mkApi AuthState
    (fun e pw _ _ => AuthService.login cfg verifyPassword now e pw)
    (fun t _ _ => AuthService.refreshAccessToken cfg now t)
    (fun a r uid => AuthService.logout a r uid)
    (fun p _ _ => AuthService.validateOAuthLogin cfg now p).

(** ** The CRUD layer: [ProjectsService] *)

Module ProjectsService.

(** What is thrown inside the service: its own [NotFoundException] and
    [ForbiddenException], the errors of the libraries under it (the
    [BSONError] of [new Types.ObjectId], the [CastError] and
    [ValidationError] of Mongoose, the duplicate-key error of MongoDB) and
    whatever the team service throws. *)
Inductive Exception :=
| NotFoundException (msg : string)
| ForbiddenException (msg : string)
| BSONError
| CastError
| ValidationError
| DuplicateKeyError
| CollaboratorError (msg : string).

(** A project document.  An object id is kept as its canonical string
    ([toString()]), a date as the string it was built from. *)
Record Project := mkProject {
  projectId : string;
  projectName : string;
  description : option string;
  status : string;
  createdBy : string;
  members : list string;
  progress : Z;
  startDate : option string;
  endDate : option string;
  teamId : option string
}.

Record CreateProjectDto := mkCreateDto {
  createName : string;
  createDescription : option string;
  createStatus : option string;
  createMembers : option (list string);
  createProgress : option Z;
  createStartDate : option string;
  createEndDate : option string
}.

Record UpdateProjectDto := mkUpdateDto {
  updateName : option string;
  updateDescription : option string;
  updateStatus : option string;
  updateMembers : option (list string);
  updateProgress : option Z;
  updateStartDate : option string;
  updateEndDate : option string
}.

Record Team := mkTeam { teamDocId : string }.

(** The stores behind the service: the users and projects collections,
    the team store [T] that only [TeamsService] touches, and what was
    written with [console.error], each line with the error it reports. *)
Record World (T : Type) := mkWorld {
  worldUsers : list User;
  projects : gmap string Project;
  teams : T;
  errorLog : list (string * Exception)
}.

Arguments mkWorld {T}.
Arguments worldUsers {T}.
Arguments projects {T}.
Arguments teams {T}.
Arguments errorLog {T}.

(** An asynchronous method: it reads and writes the stores and either
    rejects or resolves. *)
Definition M (T A : Type) : Type := World T → World T * (Exception + A).

Definition ret {T A} (a : A) : M T A := fun w => (w, inr a).
Definition throw {T A} (e : Exception) : M T A := fun w => (w, inl e).
Definition bind {T A B} (m : M T A) (k : A → M T B) : M T B :=
  fun w => match m w with
           | (w', inl e) => (w', inl e)
           | (w', inr a) => k a w'
           end.

(** [try { body } catch (error) { handler }]: what [body] wrote before it
    threw stays written. *)
Definition tryCatch {T A} (body : M T A) (handler : Exception → M T A)
    : M T A :=
  fun w => match body w with
           | (w', inl e) => handler e w'
           | (w', inr a) => (w', inr a)
           end.

Declare Scope proj_scope.
Delimit Scope proj_scope with proj.
Notation "'let!' x := m 'in' k" := (bind m (fun x => k))
  (at level 10, x name, m at level 100, k at level 200) : proj_scope.
Notation "'await' m 'in' k" := (bind m (fun _ => k))
  (at level 10, m at level 100, k at level 200) : proj_scope.

Section Service.
Variable T : Type.
(** [new Types.ObjectId(id).toString()] of the bson library, which is not
    among the sources: the id in its canonical form, [None] where the
    constructor throws.  Mongoose casts the argument of [findById] and of
    [findByIdAndDelete] with the same constructor. *)
Variable toObjectId : string → option string.
(** What [save()] rejects with, if anything, given the collection as it
    is and the document to be written: the validation against the schema
    and the indexes of the collection ([project.schema.ts] is not among
    the sources). *)
Variable rejects : gmap string Project → Project → option Exception.
(** [TeamsService], which is not among the sources. *)
Variable createFromProject :
  string → string → string → list string → T → T * (Exception + Team).
Variable updateProjectTeamMembers :
  string → list string → T → T * (Exception + unit).
Variable deleteByProjectId : string → T → T * (Exception + unit).

Local Open Scope proj_scope.

Definition onTeams {A} (f : T → T * (Exception + A)) : M T A :=
  fun w => let '(t', r) := f (teams w) in
           (mkWorld (worldUsers w) (projects w) t' (errorLog w), r).

(** [console.error(line, error)] *)
Definition consoleError (line : string) (error : Exception) : M T unit :=
  fun w => (mkWorld (worldUsers w) (projects w) (teams w)
                    (errorLog w ++ [(line, error)]), inr tt).

(** [usersService.findByEmail]: the lookup of the users collection by
    email. *)
Definition userByEmail (w : World T) (e : string) : option User :=
  List.find (fun u => String.eqb (userEmail u) e) (worldUsers w).

(** [findByEmail] followed by the [User not found] guard *)
Definition requireUser (userEmail' : string) : M T User :=
  fun w => match userByEmail w userEmail' with
           | Some u => (w, inr u)
           | None => (w, inl (NotFoundException "User not found"))
           end.

(** [projectModel.findById(id)] with a string: the string is cast to an
    object id first, and the query rejects when it is none. *)
Definition findById (i : string) : M T (option Project) :=
  fun w => match toObjectId i with
           | Some k => (w, inr (projects w !! k))
           | None => (w, inl CastError)
           end.

(** [findById(id)] followed by the [Project not found] guard.  Where the
    source populates the references of the document it returns, the
    document is handed on as stored. *)
Definition requireProject (i : string) : M T Project :=
  let! found := findById i in
  match found with
  | Some p => ret p
  | None => throw (NotFoundException "Project not found")
  end.

Definition requireCreator (p : Project) (u : User) (msg : string)
    : M T unit :=
  if String.eqb (createdBy p) (uid u) then ret tt
  else throw (ForbiddenException msg).

(** [document.save()] of a document that was read from the collection *)
Definition save (p : Project) : M T Project :=
  fun w => match rejects (projects w) p with
           | Some e => (w, inl e)
           | None =>
               (mkWorld (worldUsers w) (<[projectId p := p]> (projects w))
                        (teams w) (errorLog w), inr p)
           end.

(** [document.save()] of a new document: an insert, which MongoDB refuses
    when the [_id] is taken. *)
Definition saveNew (p : Project) : M T Project :=
  fun w => match rejects (projects w) p with
           | Some e => (w, inl e)
           | None =>
               match projects w !! projectId p with
               | Some _ => (w, inl DuplicateKeyError)
               | None =>
                   (mkWorld (worldUsers w)
                            (<[projectId p := p]> (projects w))
                            (teams w) (errorLog w), inr p)
               end
           end.

(** [ids.map(id => new Types.ObjectId(id))] *)
Definition objectIds (ids : list string) : M T (list string) :=
  match mapM toObjectId ids with
  | Some ms => ret ms
  | None => throw BSONError
  end.

(** [new Types.ObjectId(id)] *)
Definition newObjectId (i : string) : M T string :=
  match toObjectId i with
  | Some m => ret m
  | None => throw BSONError
  end.

Definition truthyOr (v : option string) (d : string) : string :=
  default d (Js.or v None).

Definition truthyDate (v : option string) : option string := Js.or v None.

Definition withTeam (t : string) (p : Project) : Project :=
  mkProject (projectId p) (projectName p) (description p) (status p)
            (createdBy p) (members p) (progress p) (startDate p)
            (endDate p) (Some t).

Definition withMembers (ms : list string) (p : Project) : Project :=
  mkProject (projectId p) (projectName p) (description p) (status p)
            (createdBy p) ms (progress p) (startDate p) (endDate p)
            (teamId p).

(** The document [create] builds and saves first, before any team
    exists; [ms] are the member ids as object ids. *)
Definition firstSaved (dto : CreateProjectDto) (u : User) (ms : list string)
    (i : string) : Project :=
  mkProject i (createName dto) (createDescription dto)
    (truthyOr (createStatus dto) "active") (uid u) ms
    (default 0 (createProgress dto))
    (truthyDate (createStartDate dto)) (truthyDate (createEndDate dto))
    None.

(** [create(createProjectDto, userEmail)], with the [_id] that
    [new this.projectModel(...)] gives the document.  The last query is
    by that [_id] itself, not by a string. *)
Definition create (newId : string) (dto : CreateProjectDto)
    (userEmail' : string) : M T (option Project) :=
  let! u := requireUser userEmail' in
  let! ms := objectIds (default [] (createMembers dto)) in
  let! savedProject := saveNew (firstSaved dto u ms newId) in
  await
    tryCatch
      (let! team := onTeams (createFromProject (projectId savedProject)
                               (createName dto) userEmail'
                               (default [] (createMembers dto))) in
       await save (withTeam (teamDocId team) savedProject) in
       ret tt)
      (consoleError "Failed to create team for project:") in
  (fun w => (w, inr (projects w !! projectId savedProject))).

(** [Object.assign] with the [??] defaults, after the two date
    assignments. *)
Definition assignFields (dto : UpdateProjectDto) (p : Project) : Project :=
  mkProject (projectId p)
    (default (projectName p) (updateName dto))
    (match updateDescription dto with
     | Some d => Some d
     | None => description p
     end)
    (default (status p) (updateStatus dto))
    (createdBy p) (members p)
    (default (progress p) (updateProgress dto))
    (match truthyDate (updateStartDate dto) with
     | Some d => Some d
     | None => startDate p
     end)
    (match truthyDate (updateEndDate dto) with
     | Some d => Some d
     | None => endDate p
     end)
    (teamId p).

Definition update (i : string) (dto : UpdateProjectDto)
    (userEmail' : string) : M T Project :=
  let! u := requireUser userEmail' in
  let! p := requireProject i in
  await requireCreator p u
          "Only the project creator can update this project" in
  let! p1 :=
    match updateMembers dto with
    | Some ids =>
        let! ms := objectIds ids in
        await
          tryCatch (onTeams (updateProjectTeamMembers i ids))
            (consoleError "Failed to update team members:") in
        ret (withMembers ms p)
    | None => ret p
    end in
  save (assignFields dto p1).

(** [projectModel.findByIdAndDelete(id)] *)
Definition findByIdAndDelete (i : string) : M T unit :=
  fun w => match toObjectId i with
           | Some k =>
               (mkWorld (worldUsers w) (base.delete k (projects w))
                        (teams w) (errorLog w), inr tt)
           | None => (w, inl CastError)
           end.

Definition delete (i : string) (userEmail' : string) : M T unit :=
  let! u := requireUser userEmail' in
  let! p := requireProject i in
  await requireCreator p u
          "Only the project creator can delete this project" in
  await
    tryCatch (onTeams (deleteByProjectId i))
      (consoleError "Failed to delete team for project:") in
  findByIdAndDelete i.

Definition addMember (i userId userEmail' : string) : M T Project :=
  let! u := requireUser userEmail' in
  let! p := requireProject i in
  await requireCreator p u "Only the project creator can add members" in
  let! memberObjectId := newObjectId userId in
  await
    (if existsb (fun m => String.eqb m memberObjectId) (members p)
     then ret tt
     else
       let! p' := save (withMembers (members p ++ [memberObjectId]) p) in
       tryCatch (onTeams (updateProjectTeamMembers i (members p')))
         (consoleError "Failed to update team members:")) in
  requireProject i.

Definition removeMember (i userId userEmail' : string) : M T Project :=
  let! u := requireUser userEmail' in
  let! p := requireProject i in
  await requireCreator p u "Only the project creator can remove members" in
  let! p' :=
    save (withMembers
            (List.filter (fun m => negb (String.eqb m userId)) (members p))
            p) in
  await
    tryCatch (onTeams (updateProjectTeamMembers i (members p')))
      (consoleError "Failed to update team members:") in
  requireProject i.

End Service.
End ProjectsService.

(** ** The session gate as the design document words it *)

Module Stated.

(** Check (4) in the document's words: issued-at is not before the
    identity's last password change.  [iat] counts seconds, the change
    is an instant in milliseconds. *)
Definition issuedAtNotBeforeChange (u : User) (payload : JwtPayload) : Prop :=
  match lastPasswordChange u with
  | Some changed => changed ≤ iat payload * 1000
  | None => True
  end.

(** Checks (2) to (5) in the document's words; check (1) has produced
    the payload. *)
Definition allChecksPass (st : AuthState) (now : Z) (req : Request)
    (payload : JwtPayload) : Prop :=
  JwtStrategy.revoked st req = false ∧
  ∃ u, findById st (sub payload) = Some u ∧
       issuedAtNotBeforeChange u payload ∧
       JwtStrategy.locked now u = false.

End Stated.

(** The payload of a token issued at instant [t]: the issuer stamps the
    whole second, as [TokenIssuer.mint] does. *)
Definition issuedAt (payload : JwtPayload) (t : Z) : Prop :=
  iat payload = t / 1000.

(** Check (4) as the gate computes it: the change instant is cut down to
    whole seconds, and an identity without one passes. *)
Definition notStale (u : User) (payload : JwtPayload) : Prop :=
  match lastPasswordChange u with
  | Some changed => changed / 1000 ≤ iat payload
  | None => True
  end.

(** ** Histories of the subsystem *)

(** A run of login attempts on one account, each at its own instant and
    with its own password. *)
Fixpoint loginMany (cfg : Config) (verifyPassword : string → string → bool)
    (attempts : list (Z * string)) (e : string) (st : AuthState)
    : AuthState * list (Rejection + LoginResult) :=
  match attempts with
  | [] => (st, [])
  | (now, password) :: rest =>
      let '(st1, r) := AuthService.login cfg verifyPassword now e password st in
      let '(st2, rs) := loginMany cfg verifyPassword rest e st1 in
      (st2, r :: rs)
  end.

(** The state-changing operations of the service; the gate only reads. *)
Inductive Op :=
| OpLogin (now : Z) (e password : string)
| OpRefresh (now : Z) (token : string)
| OpLogout (a r : option string) (userId : string)
| OpOAuthLogin (now : Z) (p : Profile).

Definition runOp (cfg : Config) (verifyPassword : string → string → bool)
    (op : Op) (st : AuthState) : AuthState :=
  match op with
  | OpLogin now e password =>
      fst (AuthService.login cfg verifyPassword now e password st)
  | OpRefresh now token => fst (AuthService.refreshAccessToken cfg now token st)
  | OpLogout a r userId => fst (AuthService.logout a r userId st)
  | OpOAuthLogin now p => fst (AuthService.validateOAuthLogin cfg now p st)
  end.

Definition runOps (cfg : Config) (verifyPassword : string → string → bool)
    (ops : list Op) (st : AuthState) : AuthState :=
  fold_left (fun s op => runOp cfg verifyPassword op s) ops st.

(** Every token of the ledger was minted with a serial number, and a
    family number, already used up. *)
Definition ledgerOk (st : AuthState) : Prop :=
  ∀ t i, issued st !! t = Some i →
    (∃ k n, t = tokenString k n ∧ (n < nextSerial st)%N) ∧
    (tokenFamily i < nextSerial st)%N.

(** [st'] has kept every ledger entry, every exchanged refresh token and
    every revocation of [st]. *)
Definition extends (st st' : AuthState) : Prop :=
  (∀ t i, issued st !! t = Some i → issued st' !! t = Some i) ∧
  (∀ t, t ∈ rotated st → t ∈ rotated st') ∧
  (∀ t, is_Some (blacklist st !! t) → is_Some (blacklist st' !! t)) ∧
  (nextSerial st ≤ nextSerial st')%N.

(** Every token minted in family [fam] is revoked. *)
Definition familyRevoked (fam : N) (st : AuthState) : Prop :=
  ∀ t i, issued st !! t = Some i → tokenFamily i = fam →
    is_Some (blacklist st !! t).

(** A family a newly minted token may belong to: one opened after [st],
    or the family of a ledger token that [st] has not revoked. *)
Definition liveFamily (st : AuthState) (fam : N) : Prop :=
  (nextSerial st ≤ fam)%N ∨
  ∃ t i, issued st !! t = Some i ∧ tokenFamily i = fam ∧
         blacklist st !! t = None.

(** One step of the history: the ledger stays well formed, nothing is
    forgotten, and what is new belongs to a live family. *)
Definition frames (st st' : AuthState) : Prop :=
  ledgerOk st' ∧ extends st st' ∧
  ∀ t i, issued st' !! t = Some i →
         issued st !! t = Some i ∨ liveFamily st (tokenFamily i).

(** How many identities are linked to the OAuth key [k]. *)
Definition linkedCount (k : string * string) (st : AuthState) : nat :=
  length (List.filter (AuthService.linkedTo k) (users st)).

(** ** Sample data

    The scenario of the design document: identity [a@x.com] with password
    [p1] and 2FA disabled. *)

Module Sample.

Definition alice : User :=
  mkUser "u1" "a@x.com" (Some "p1") None None false 0 None None true.

(** The same identity after a password change at 1000.5 s. *)
Definition aliceChanged : User :=
  mkUser "u1" "a@x.com" (Some "p2") None None false 0 None (Some 1000500)
         true.

(** An identity with 2FA enabled. *)
Definition bob : User :=
  mkUser "u2" "b@x.com" (Some "p2") None (Some "secret") true 0 None None
         true.

Definition stateOf (u : User) : AuthState := mkAuthState [u] ∅ ∅ ∅ 0.

(** A stand-in for the hashing primitive: the digest is the password. *)
Definition verifyPlain (plain digest : string) : bool :=
  String.eqb plain digest.

Definition cookieRequest (token : string) : Request :=
  mkRequest (Some (mkCookies (Some token) None)) None None None None.

Definition bearerRequest (token : string) : Request :=
  mkRequest None (Some ("Bearer " +:+ token)) None None None.

Definition payloadAt (seconds : Z) : JwtPayload :=
  mkPayload "u1" "a@x.com" "local" seconds.

Definition headerRequest (h : string) : Request :=
  mkRequest None (Some h) None None None.

(** A browser request: the two token cookies and no [Authorization]
    header. *)
Definition browser (a r : string) : Request :=
  mkRequest (Some (mkCookies (Some a) (Some r))) None None None None.

(** A stand-in for the signature check with one signed token, [tok],
    issued at second 0. *)
Definition verifyTok (token : string) : option JwtPayload :=
  if String.eqb token "tok" then Some (payloadAt 0) else None.

(** A stand-in for the signature and expiry check over a state of the
    modelled issuer: the access tokens of the ledger are the signed ones,
    and the payload is what was minted. *)
Definition decode (st : AuthState) (now : Z) (token : string)
    : option JwtPayload :=
  match issued st !! token with
  | Some info =>
      match tokenKind info with
      | AccessToken =>
          if now <? tokenExpiry info
          then Some (mkPayload (tokenSub info) (tokenEmail info)
                               (tokenProvider info) (tokenIat info))
          else None
      | _ => None
      end
  | None => None
  end.

Definition cfg : Config := mkConfig 900000 2592000000 300000 5 900000 1.

(** The state once [a@x.com] has logged in at second 1000: the ledger
    holds the access token [a.0] and the refresh token [r.1]. *)
Definition afterLogin : AuthState :=
  (AuthService.login cfg verifyPlain 1000000 "a@x.com" "p1"
     (stateOf alice)).1.

Definition googleProfile : Profile :=
  mkProfile "google" "g-42" "c@x.com" "Carol".

(** A service whose OAuth login creates an identity on every call,
    without looking one up first. *)
Definition createOnEveryCall (now : Z) (p : Profile) (st : AuthState)
    : AuthState * (Rejection + TokenPair) :=
  let u' := mkUser ("u." +:+ pretty (nextSerial st)) (profileEmail p) None
                   (Some (AuthService.profileKey p)) None false O None None
                   true in
  let st0 := mkAuthState (users st ++ [u']) (blacklist st) (issued st)
                         (rotated st) (N.succ (nextSerial st)) in
  let '(tp, st1) := TokenIssuer.issue cfg now u' (profileProvider p) st0 in
  (st1, inr tp).

Definition duplicatingService (now : Z) : AuthServiceApi AuthState :=
  mkApi AuthState
    (fun e pw _ _ => AuthService.login cfg verifyPlain now e pw)
    (fun t _ _ => AuthService.refreshAccessToken cfg now t)
    (fun a r i => AuthService.logout a r i)
    (fun p _ _ => createOnEveryCall now p).

End Sample.

(** A team service that is down: every call throws. *)
Module TeamsDown.
Import ProjectsService.

Definition createFromProject (i n e : string) (ms : list string) (t : unit)
    : unit * (Exception + Team) :=
  (t, inl (CollaboratorError "teams unavailable")).

Definition updateProjectTeamMembers (i : string) (ms : list string)
    (t : unit) : unit * (Exception + unit) :=
  (t, inl (CollaboratorError "teams unavailable")).

Definition deleteByProjectId (i : string) (t : unit)
    : unit * (Exception + unit) :=
  (t, inl (CollaboratorError "teams unavailable")).

End TeamsDown.

(** ** File upload: [AwsS3Service] and [MediaController] *)

(** JavaScript strings that come from outside (file names, configuration
    values) are sequences of UTF-16 code units. *)
Module Utf16.

Definition ofAscii (s : string) : list N :=
  List.map Ascii.N_of_ascii (String.list_ascii_of_string s).

(** The code units the regular expression class [\s] matches. *)
Definition isWhitespace (c : N) : bool :=
  ((9 <=? c) && (c <=? 13) || (c =? 32) || (c =? 160) || (c =? 5760)
   || (8192 <=? c) && (c <=? 8202) || (c =? 8232) || (c =? 8233)
   || (c =? 8239) || (c =? 8287) || (c =? 12288) || (c =? 65279))%N.

(** A text without any whitespace code unit. *)
Definition clean (s : list N) : Prop :=
  Forall (fun c => isWhitespace c = false) s.

(** A template literal prints an undefined value as [undefined]. *)
Definition interpolate (v : option (list N)) : list N :=
  default (ofAscii "undefined") v.

End Utf16.

Module AwsS3Service.

Record MulterFile := mkFile {
  originalname : list N;
  mimetype : list N;
  size : N;
  buffer : list N
}.

Record PutObjectCommand := mkPut {
  putBucket : option (list N);
  putKey : list N;
  putBody : list N;
  putContentType : list N
}.

Inductive UploadError :=
| TypeError (msg : string)
| S3Error (msg : string).

(** The two lines [uploadFile] writes with [console.log]. *)
Inductive LogLine :=
| Uploading (name mimetype : list N) (size : N)
| UploadComplete (url : list N).

(** [s.replace(/\s+/g, '_')]: every maximal run of whitespace becomes one
    underscore.  [inRun] tells that the unit before was whitespace. *)
Fixpoint replaceRuns (inRun : bool) (s : list N) : list N :=
  match s with
  | [] => []
  | c :: s' =>
      if Utf16.isWhitespace c
      then if inRun then replaceRuns true s' else 95%N :: replaceRuns true s'
      else c :: replaceRuns false s'
  end.

Definition sanitizedFilename (name : list N) : list N := replaceRuns false name.

Section Service.
(** The S3 client: its state and what [send] does with a command. *)
Variable S3 : Type.
Variable send : PutObjectCommand → S3 → S3 * option string.
(** [configService.get('AWS_REGION')] and [get('S3_BUCKET_NAME')] *)
Variable region : option (list N).
Variable bucket : option (list N).

(** [`${uuid()}-${sanitizedFilename}`] *)
Definition objectKey (uuid : list N) (file : MulterFile) : list N :=
  uuid ++ Utf16.ofAscii "-" ++ sanitizedFilename (originalname file).

(** [`https://s3.${region}.amazonaws.com/${this.bucket}/${key}`] *)
Definition objectUrl (key : list N) : list N :=
  Utf16.ofAscii "https://s3." ++ Utf16.interpolate region
  ++ Utf16.ofAscii ".amazonaws.com/" ++ Utf16.interpolate bucket
  ++ Utf16.ofAscii "/" ++ key.

(** [uploadFile(file)], with the value [uuid()] returns.  A request
    without a file part hands [undefined] over, and reading
    [file.originalname] throws. *)
Definition uploadFile (uuid : list N) (file : option MulterFile)
    (w : S3 * list LogLine) : (S3 * list LogLine) * (UploadError + list N) :=
  match file with
  | None =>
      (w, inl (TypeError
                 "Cannot read properties of undefined (reading 'originalname')"))
  | Some f =>
      let log1 := w.2 ++ [Uploading (originalname f) (mimetype f) (size f)] in
      let key := objectKey uuid f in
      match send (mkPut bucket key (buffer f) (mimetype f)) w.1 with
      | (s3', Some err) => ((s3', log1), inl (S3Error err))
      | (s3', None) =>
          let url := objectUrl key in
          ((s3', log1 ++ [UploadComplete url]), inr url)
      end
  end.

End Service.
End AwsS3Service.

Module MediaController.

Record UploadResponse := mkUploadResponse {
  responseUrl : list N;
  responseName : list N;
  responseType : list N
}.

Section Controller.
Variable S3 : Type.
Variable send : AwsS3Service.PutObjectCommand → S3 → S3 * option string.
Variable region : option (list N).
Variable bucket : option (list N).

(** [POST media/upload] *)
Definition upload (uuid : list N) (file : option AwsS3Service.MulterFile)
    (w : S3 * list AwsS3Service.LogLine)
    : (S3 * list AwsS3Service.LogLine)
      * (AwsS3Service.UploadError + UploadResponse) :=
  match AwsS3Service.uploadFile S3 send region bucket uuid file w with
  | (w', inl e) => (w', inl e)
  | (w', inr url) =>
      match file with
      | Some f =>
          (w', inr (mkUploadResponse url (AwsS3Service.originalname f)
                                     (AwsS3Service.mimetype f)))
      | None =>
          (w', inl (AwsS3Service.TypeError
                      "Cannot read properties of undefined (reading 'originalname')"))
      end
  end.

End Controller.
End MediaController.

(** ** The rest of [AuthController]: signup and the second factor *)

Record SignupDto := mkSignupDto {
  signupEmail : string;
  signupPassword : string;
  signupName : string
}.

Record Verify2FADto := mkVerify2FADto {
  verifyEmail : string;
  verifyToken : string
}.

(** What [signup] resolves to. *)
Record SignupResult := mkSignupResult {
  signupAccessToken : option string;
  signupRefreshToken : option string;
  emailVerificationRequired : option bool
}.

(** The two further operations of [AuthService] the boundary calls. *)
Record AuthServiceSignupApi (S : Type) := mkSignupApi {
  apiSignup : string → string → string → option string → option string →
              S → S * (Rejection + SignupResult);
  apiVerify2FA : string → string → option string → option string →
              S → S * (Rejection + TokenPair)
}.

Arguments apiSignup {S}.
Arguments apiVerify2FA {S}.

Module AuthControllerSignup.
Section Controller.
Context {S : Type} (authService : AuthServiceSignupApi S).

(** [POST auth/signup]: the cookies, then the body
    [{ success: true, emailVerificationRequired }]. *)
Definition signup (signupDto : SignupDto) (req : Request) (st : S)
    : S * (Rejection + list Effect * option bool) :=
  match apiSignup authService (signupEmail signupDto)
          (signupPassword signupDto) (signupName signupDto) (ip req)
          (userAgent req) st with
  | (st', inl e) => (st', inl e)
  | (st', inr result) =>
      (st', inr ([SetCookie "accessToken" (signupAccessToken result)
                    accessMaxAge;
                  SetCookie "refreshToken" (signupRefreshToken result)
                    refreshMaxAge],
                 emailVerificationRequired result))
  end.

(** [POST auth/verify-2fa] *)
Definition verify2FA (verify2FADto : Verify2FADto) (req : Request) (st : S)
    : S * (Rejection + list Effect) :=
  match apiVerify2FA authService (verifyEmail verify2FADto)
          (verifyToken verify2FADto) (ip req) (userAgent req) st with
  | (st', inl e) => (st', inl e)
  | (st', inr tp) =>
      (st', inr [SetCookie "accessToken" (Some (pairAccessToken tp))
                   accessMaxAge;
                 SetCookie "refreshToken" (Some (pairRefreshToken tp))
                   refreshMaxAge;
                 Json SuccessBody])
  end.

End Controller.
End AuthControllerSignup.

(** A cookie a handler may set: one of the two token cookies, with its
    fixed lifetime. *)
Definition tokenCookie (e : Effect) : Prop :=
  match e with
  | SetCookie name _ maxAge =>
      (name = "accessToken" ∧ maxAge = 900000) ∨
      (name = "refreshToken" ∧ maxAge = 2592000000)
  | _ => True
  end.

Definition setsCookie (name : string) (e : Effect) : bool :=
  match e with
  | SetCookie n _ _ => String.eqb n name
  | _ => false
  end.

(** ** Reading a project: [ProjectsService.findOne] *)

Module ProjectsReads.
Import ProjectsService.

Inductive ReadError :=
| Http (e : Exception)
| NullReference (msg : string).

Section Service.
Variable T : Type.
Variable toObjectId : string → option string.

(** What [populate] finds for a reference to a user. *)
Definition userById (w : World T) (i : string) : option User :=
  List.find (fun u => String.eqb (uid u) i) (worldUsers w).

(** [populate('members', ...)]: references without a document are left
    out of the array. *)
Definition populatedMembers (w : World T) (p : Project) : list User :=
  omap (userById w) (members p).

(** [findOne(id, userEmail)].  [populate('createdBy', ...)] stores [null]
    when the creator's document is gone, and [project.createdBy._id] then
    throws.  The team reference plays no part in the check; the document
    is returned as stored. *)
Definition findOne (i userEmail' : string) (w : World T)
    : ReadError + Project :=
  match userByEmail T w userEmail' with
  | None => inl (Http (NotFoundException "User not found"))
  | Some user =>
      match toObjectId i with
      | None => inl (Http CastError)
      | Some k =>
          match projects w !! k with
          | None => inl (Http (NotFoundException "Project not found"))
          | Some project =>
              match userById w (createdBy project) with
              | None =>
                  inl (NullReference
                         "Cannot read properties of null (reading '_id')")
              | Some creator =>
                  if String.eqb (uid creator) (uid user)
                     || existsb
                          (fun member => String.eqb (uid member) (uid user))
                          (populatedMembers w project)
                  then inr project
                  else inl (Http (ForbiddenException
                                    "You do not have access to this project"))
              end
          end
      end
  end.

End Service.
End ProjectsReads.

(** ** Tasks: what the request validation and the schema accept *)

Module Tasks.

(** [@IsEnum([...])] of [CreateTaskDto] *)
Definition dtoLabels : list string := ["High"; "Medium"; "Low"; "Stand-by"].
Definition dtoStatuses : list string := ["todo"; "in-progress"; "done"].
Definition dtoPriorities : list string := ["low"; "medium"; "high"].

(** [enum: [...]] of the [Task] schema *)
Definition schemaLabels : list string := ["High"; "Medium"; "Low"; "Stand-by"].
Definition schemaStatuses : list string :=
  ["todo"; "in-progress"; "review"; "completed"].
Definition schemaPriorities : list string := ["low"; "medium"; "high"].

(** [@IsOptional() @IsEnum(values)]: an absent field passes, a present one
    must be one of the values. *)
Definition dtoAccepts (values : list string) (v : option string) : bool :=
  match v with
  | None => true
  | Some s => existsb (String.eqb s) values
  end.

(** [@Prop({ default, enum })]: an absent field takes the default, if any,
    and what is then stored must be one of the values. *)
Definition schemaStores (d : option string) (values : list string)
    (v : option string) : option (option string) :=
  match (match v with Some s => Some s | None => d end) with
  | None => Some None
  | Some s => if existsb (String.eqb s) values then Some (Some s) else None
  end.

End Tasks.

(** The [ObjectId] of the bson library as its versions 5 and 6 read a
    string: 24 hexadecimal digits, printed in lower case. *)
Module Bson.

Definition isHexDigit (c : Ascii.ascii) : bool :=
  let n := Ascii.N_of_ascii c in
  ((48 <=? n) && (n <=? 57) || (65 <=? n) && (n <=? 70)
   || (97 <=? n) && (n <=? 102))%N.

Definition toObjectId (s : string) : option string :=
  if (String.length s =? 24)%nat
     && forallb isHexDigit (String.list_ascii_of_string s)
  then Some (ExtractJwt.toLowerCase s)
  else None.

End Bson.

(** Stand-ins for the collaborators of the upload and of the projects. *)
Module Doubles.

(** An S3 client that keeps what it is sent. *)
Definition recordingSend (c : AwsS3Service.PutObjectCommand)
    (s : list AwsS3Service.PutObjectCommand)
    : list AwsS3Service.PutObjectCommand * option string :=
  (s ++ [c], None).

Definition report : AwsS3Service.MulterFile :=
  AwsS3Service.mkFile (Utf16.ofAscii "Q3  report final.pdf")
    (Utf16.ofAscii "application/pdf") 4 [37; 80; 68; 70]%N.

Definition isDigit (c : Ascii.ascii) : bool :=
  let n := Ascii.N_of_ascii c in ((48 <=? n) && (n <=? 57))%N.

(** A date written [YYYY-MM-DD]. *)
Definition isoDate (s : string) : bool :=
  match String.list_ascii_of_string s with
  | [y1; y2; y3; y4; d1; m1; m2; d2; a1; a2] =>
      forallb isDigit [y1; y2; y3; y4; m1; m2; a1; a2]
      && String.eqb (String d1 (String d2 EmptyString)) "--"
  | _ => false
  end.

(** A schema that refuses a document with a date that is none, and
    nothing else. *)
Definition datesOnly (c : gmap string ProjectsService.Project)
    (p : ProjectsService.Project) : option ProjectsService.Exception :=
  if forallb isoDate (option_list (ProjectsService.startDate p)
                      ++ option_list (ProjectsService.endDate p))
  then None
  else Some ProjectsService.ValidationError.

Definition ana : User :=
  mkUser "aaaaaaaaaaaaaaaaaaaaaaa1" "ana@x.com" (Some "p1") None None false 0
         None None true.

Definition ben : User :=
  mkUser "bbbbbbbbbbbbbbbbbbbbbbb2" "ben@x.com" (Some "p2") None None false 0
         None None true.

(** A project of [ana@x.com] with one member, stored under its id. *)
Definition roadmap : ProjectsService.Project :=
  ProjectsService.mkProject "cccccccccccccccccccccc01" "Roadmap" None "active"
    "aaaaaaaaaaaaaaaaaaaaaaa1" ["bbbbbbbbbbbbbbbbbbbbbbb2"] 0 None None None.

Definition worldWith (ps : list ProjectsService.Project)
    : ProjectsService.World unit :=
  ProjectsService.mkWorld [ana; ben]
    (list_to_map ((fun p => (ProjectsService.projectId p, p)) <$> ps)) tt [].

(** A creation request that names its member in upper case. *)
Definition launch : ProjectsService.CreateProjectDto :=
  ProjectsService.mkCreateDto "Launch" None (Some "")
    (Some ["BBBBBBBBBBBBBBBBBBBBBBB2"]) None (Some "2026-01-15") None.

End Doubles.

(** * Properties *)

(** ** The session gate *)

Lemma stale_false_iff u payload :
  JwtStrategy.stale u payload = false ↔ notStale u payload.
Proof.
  unfold JwtStrategy.stale, notStale.
  destruct (lastPasswordChange u) as [c|]; [|tauto].
  rewrite Z.ltb_ge. tauto.
Qed.

Lemma stale_true_iff u payload :
  JwtStrategy.stale u payload = true ↔
  ∃ c, lastPasswordChange u = Some c ∧ iat payload < c / 1000.
Proof.
  unfold JwtStrategy.stale.
  destruct (lastPasswordChange u) as [c|].
  - rewrite Z.ltb_lt. split; [eauto|]. intros (c' & [= <-] & ?); done.
  - split; [done|]. intros (c' & [=] & _).
Qed.

Lemma replace_bearer token :
  Js.replace "Bearer " "" ("Bearer " +:+ token) = token.
Proof. destruct token; reflexivity. Qed.

Lemma truthy_Some s : s ≠ "" → Js.truthy (Some s) = true.
Proof.
  intros Hs. unfold Js.truthy.
  destruct (String.eqb_spec s ""); [contradiction|reflexivity].
Qed.

Lemma requestToken_carries req token :
  JwtStrategy.carries req token → JwtStrategy.requestToken req = Some token.
Proof.
  unfold JwtStrategy.carries, JwtStrategy.viaCookie,
    JwtStrategy.viaBearerHeader, JwtStrategy.requestToken, Js.or.
  intros (Hne & [Hc | (Hc & Hh)]).
  - rewrite Hc, (truthy_Some _ Hne). reflexivity.
  - rewrite Hc, Hh. cbn [fmap option_fmap option_map].
    by rewrite replace_bearer.
Qed.

Lemma revoked_carries st req token :
  JwtStrategy.carries req token →
  JwtStrategy.revoked st req = isTokenBlacklisted st token.
Proof.
  intros Hc. unfold JwtStrategy.revoked.
  rewrite (requestToken_carries _ _ Hc). simpl.
  destruct Hc as (Hne & _).
  change (Js.truthy (Some token) && isTokenBlacklisted st token
          = isTokenBlacklisted st token).
  by rewrite (truthy_Some _ Hne).
Qed.

Lemma carried_revoked_token_rejected st now req payload token :
  is_Some (blacklist st !! token) →
  JwtStrategy.carries req token →
  JwtStrategy.validate st now req payload = inl TokenRevoked.
Proof.
  intros Hb Hc. unfold JwtStrategy.validate.
  rewrite (revoked_carries st _ _ Hc). unfold isTokenBlacklisted.
  by rewrite bool_decide_eq_true_2.
Qed.

(** A registry token that the request carries in the cookie, or in a
    header spelled exactly [Bearer ] and the token, is rejected with
    [TokenRevoked], whatever the verified payload says. *)
Theorem revoked_token_never_validates st now req payload token :
  is_Some (blacklist st !! token) →
  JwtStrategy.carries req token →
  JwtStrategy.validate st now req payload = inl TokenRevoked ∧
  ∀ principal, JwtStrategy.validate st now req payload ≠ inr principal.
Proof.
  intros Hb Hc.
  rewrite (carried_revoked_token_rejected st now req payload token Hb Hc).
  split; [reflexivity|discriminate].
Qed.

(** The gate strips the scheme only when it is spelled [Bearer ]: a header
    with another spelling is looked up in the registry as it stands. *)
Lemma header_scheme_is_case_sensitive :
  JwtStrategy.requestToken
    (mkRequest None (Some "bearer tok") None None None) = Some "bearer tok" ∧
  JwtStrategy.validate
    (RevocationRegistry.revoke "tok" 900000 (Sample.stateOf Sample.alice))
    1000 (mkRequest None (Some "bearer tok") None None None)
    (Sample.payloadAt 0)
  = inr (JwtStrategy.principalOf (Sample.payloadAt 0)).
Proof. split; vm_compute; reflexivity. Qed.

Lemma revoked_token_never_validates_witness :
  JwtStrategy.validate
    (RevocationRegistry.revoke "tok" 900000 (Sample.stateOf Sample.alice))
    1000 (Sample.bearerRequest "tok") (Sample.payloadAt 0)
  = inl TokenRevoked.
Proof.
  apply (revoked_token_never_validates _ _ _ _ "tok").
  - vm_compute. eexists. reflexivity.
  - split; [done|]. right. split; reflexivity.
Defined.

Lemma validate_inr st now req payload p :
  JwtStrategy.validate st now req payload = inr p ↔
  p = JwtStrategy.principalOf payload ∧
  JwtStrategy.revoked st req = false ∧
  ∃ u, findById st (sub payload) = Some u ∧ notStale u payload ∧
       JwtStrategy.locked now u = false.
Proof.
  unfold JwtStrategy.validate.
  destruct (JwtStrategy.revoked st req).
  { split; [done|]. intros (_ & [=] & _). }
  destruct (findById st (sub payload)) as [u|].
  2:{ split; [done|]. intros (_ & _ & u & [=] & _). }
  destruct (JwtStrategy.stale u payload) eqn:Hs.
  { split; [done|]. intros (_ & _ & u' & [= <-] & Hn & _).
    apply stale_false_iff in Hn. congruence. }
  apply stale_false_iff in Hs.
  destruct (JwtStrategy.locked now u) eqn:Hl.
  { split; [done|]. intros (_ & _ & u' & [= <-] & _ & ?). congruence. }
  split.
  - intros [= <-]. eauto 10.
  - intros (-> & _). done.
Qed.

Lemma validate_inl st now req payload r :
  JwtStrategy.validate st now req payload = inl r ↔
  (r = TokenRevoked ∧ JwtStrategy.revoked st req = true) ∨
  (JwtStrategy.revoked st req = false ∧
   ((r = IdentityNotFound ∧ findById st (sub payload) = None) ∨
    ∃ u, findById st (sub payload) = Some u ∧
      ((r = StaleCredentials ∧ ¬ notStale u payload) ∨
       (r = AccountLocked ∧ notStale u payload ∧
        JwtStrategy.locked now u = true)))).
Proof.
  unfold JwtStrategy.validate.
  destruct (JwtStrategy.revoked st req).
  { split; [intros [= <-]; auto|]. intros [(-> & _)|([=] & _)]. done. }
  destruct (findById st (sub payload)) as [u|].
  2:{ split; [intros [= <-]; auto|].
      intros [(_ & [=])|(_ & [(-> & _)|(u & [=] & _)])]. done. }
  destruct (JwtStrategy.stale u payload) eqn:Hs.
  { assert (¬ notStale u payload) as Hn.
    { rewrite <- stale_false_iff. congruence. }
    split; [intros [= <-]; eauto 10|].
    intros [(_ & [=])|(_ & [(_ & [=])|(u' & [= <-] & [(-> & _)|(_ & ? & _)])])];
      first [done | congruence | tauto]. }
  apply stale_false_iff in Hs.
  destruct (JwtStrategy.locked now u) eqn:Hl.
  - split; [intros [= <-]; eauto 10|].
    intros [(_ & [=])|(_ & [(_ & [=])|(u' & [= <-] & [(_ & ?)|(-> & _)])])];
      first [done | congruence | tauto].
  - split; [done|].
    intros [(_ & [=])|(_ & [(_ & [=])|(u' & [= <-] & [(_ & ?)|(_ & _ & ?)])])];
      first [done | congruence | tauto].
Qed.

(** The answer of [validate] in terms of its own tests, in their order:
    [revoked], the lookup of the identity, [stale] and [locked]. *)
Theorem validate_checks_in_order st now req payload :
  (∀ p, JwtStrategy.validate st now req payload = inr p ↔
        p = mkPrincipal (sub payload) (email payload) (provider payload)
                        (iat payload) ∧
        JwtStrategy.revoked st req = false ∧
        ∃ u, findById st (sub payload) = Some u ∧ notStale u payload ∧
             JwtStrategy.locked now u = false) ∧
  (∀ r, JwtStrategy.validate st now req payload = inl r ↔
        (r = TokenRevoked ∧ JwtStrategy.revoked st req = true) ∨
        (JwtStrategy.revoked st req = false ∧
         ((r = IdentityNotFound ∧ findById st (sub payload) = None) ∨
          ∃ u, findById st (sub payload) = Some u ∧
            ((r = StaleCredentials ∧ ¬ notStale u payload) ∨
             (r = AccountLocked ∧ notStale u payload ∧
              JwtStrategy.locked now u = true))))).
Proof.
  split; intros x; [apply validate_inr | apply validate_inl].
Qed.

(** Check (4) is taken on whole seconds: with the last password change at
    1000.5 s, a token issued at second 1000 is returned its principal
    although its issued-at is before the change. *)
Lemma validate_checks_as_stated_fail :
  ¬ (∀ st now req payload p,
       JwtStrategy.validate st now req payload = inr p ↔
       p = JwtStrategy.principalOf payload ∧
       Stated.allChecksPass st now req payload).
Proof.
  intros H.
  destruct (H (Sample.stateOf Sample.aliceChanged) 2000000
              (Sample.cookieRequest "tok") (Sample.payloadAt 1000)
              (JwtStrategy.principalOf (Sample.payloadAt 1000)))
    as [H1 _].
  destruct (H1 eq_refl) as (_ & _ & u & Hu & Hc & _).
  vm_compute in Hu. injection Hu as <-.
  unfold Stated.issuedAtNotBeforeChange in Hc. simpl in Hc. lia.
Qed.

(** *** The token that is verified and the string that is looked up

    [jwtFromRequest] and line 43 of [validate] read the request each in
    its own way.  They agree on a cookie and on a header spelled
    [Bearer ] and the token; on a header whose scheme is spelled
    otherwise ([bearer], [BEARER]) or is followed by more than one space
    they differ. *)

Lemma extractor_and_gate_agree req token :
  JwtStrategy.viaCookie token req → token ≠ "" →
  JwtStrategy.jwtFromRequest req = Some token ∧
  JwtStrategy.requestToken req = Some token.
Proof.
  unfold JwtStrategy.viaCookie, JwtStrategy.jwtFromRequest,
    JwtStrategy.requestToken, Js.or. intros Hc Hne.
  cbn [ExtractJwt.fromExtractors]. by rewrite Hc, (truthy_Some _ Hne).
Qed.

Lemma gate_after_lookup_miss st now req looked payload :
  JwtStrategy.requestToken req = Some looked →
  blacklist st !! looked = None →
  JwtStrategy.validate st now req payload
  = match findById st (sub payload) with
    | None => inl IdentityNotFound
    | Some u =>
        if JwtStrategy.stale u payload then inl StaleCredentials
        else if JwtStrategy.locked now u then inl AccountLocked
        else inr (JwtStrategy.principalOf payload)
    end.
Proof.
  intros Hl Hb. unfold JwtStrategy.validate, JwtStrategy.revoked.
  rewrite Hl. cbn [fmap option_fmap option_map default].
  unfold isTokenBlacklisted. rewrite Hb.
  rewrite bool_decide_eq_false_2 by (by intros [x Hx]).
  by rewrite andb_false_r.
Qed.

Lemma stale_of_change u payload c :
  lastPasswordChange u = Some c →
  JwtStrategy.stale u payload = (iat payload <? c / 1000).
Proof. unfold JwtStrategy.stale. by intros ->. Qed.

Lemma not_stale_of_floor u payload :
  (∀ c, lastPasswordChange u = Some c → c / 1000 ≤ iat payload) →
  JwtStrategy.stale u payload = false.
Proof.
  unfold JwtStrategy.stale. intros H.
  destruct (lastPasswordChange u) as [c|]; [|done].
  apply Z.ltb_ge. by apply H.
Qed.

Lemma not_locked_of_until now u :
  (∀ t, lockoutUntil u = Some t → t ≤ now) →
  JwtStrategy.locked now u = false.
Proof.
  unfold JwtStrategy.locked. intros H.
  destruct (lockoutUntil u) as [t|]; [|done].
  apply Z.ltb_ge. by apply H.
Qed.

(** C1 fails of the program.  Whenever the token that is extracted and
    verified is in the Revocation Registry while the string the gate
    computes from the same request is not, the gate does not reject: with
    the identity in place, no later password change and no lockout in
    force, the request is answered with the principal of the revoked
    token. *)
Theorem revoked_token_validates_when_lookup_misses
    verify st now req token looked payload u :
  JwtStrategy.jwtFromRequest req = Some token →
  verify token = Some payload →
  is_Some (blacklist st !! token) →
  JwtStrategy.requestToken req = Some looked →
  blacklist st !! looked = None →
  findById st (sub payload) = Some u →
  (∀ c, lastPasswordChange u = Some c → c / 1000 ≤ iat payload) →
  (∀ t, lockoutUntil u = Some t → t ≤ now) →
  JwtStrategy.authenticate verify st now req
  = inr (mkPrincipal (sub payload) (email payload) (provider payload)
                     (iat payload)).
Proof.
  intros He Hv _ Hl Hb Hu Hs Hk. unfold JwtStrategy.authenticate.
  rewrite He, Hv, (gate_after_lookup_miss st now req looked payload Hl Hb), Hu.
  by rewrite (not_stale_of_floor u payload Hs), (not_locked_of_until now u Hk).
Qed.

(** The revoked token [tok] sent as [Authorization: bearer tok]. *)
Lemma revoked_token_validates_when_lookup_misses_witness :
  JwtStrategy.jwtFromRequest (Sample.headerRequest "bearer tok") = Some "tok" ∧
  is_Some (blacklist (RevocationRegistry.revoke "tok" 900000
                        (Sample.stateOf Sample.alice)) !! "tok") ∧
  JwtStrategy.authenticate Sample.verifyTok
    (RevocationRegistry.revoke "tok" 900000 (Sample.stateOf Sample.alice))
    1000 (Sample.headerRequest "bearer tok")
  = inr (mkPrincipal "u1" "a@x.com" "local" 0).
Proof.
  assert (is_Some (blacklist (RevocationRegistry.revoke "tok" 900000
                                (Sample.stateOf Sample.alice)) !! "tok"))
    as Hb by (vm_compute; by eexists).
  split; [reflexivity|]. split; [exact Hb|].
  apply (revoked_token_validates_when_lookup_misses Sample.verifyTok
           (RevocationRegistry.revoke "tok" 900000
              (Sample.stateOf Sample.alice))
           1000 (Sample.headerRequest "bearer tok") "tok" "bearer tok"
           (Sample.payloadAt 0) Sample.alice);
    first [reflexivity | exact Hb | discriminate].
Defined.

(** C2 fails of the program.  On such a request check (2) does not fire
    for the revoked token: the answer is never [TokenRevoked], it is the
    answer of checks (3) to (5) alone, so that a failing request is given
    the reason of a later check and a request that passes those is given
    the principal. *)
Theorem revocation_check_is_skipped_when_lookup_misses
    verify st now req token looked payload :
  JwtStrategy.jwtFromRequest req = Some token →
  verify token = Some payload →
  is_Some (blacklist st !! token) →
  JwtStrategy.requestToken req = Some looked →
  blacklist st !! looked = None →
  JwtStrategy.authenticate verify st now req ≠ inl TokenRevoked ∧
  (findById st (sub payload) = None →
   JwtStrategy.authenticate verify st now req = inl IdentityNotFound) ∧
  (∀ u, findById st (sub payload) = Some u →
     (∀ c, lastPasswordChange u = Some c → iat payload < c / 1000 →
        JwtStrategy.authenticate verify st now req = inl StaleCredentials) ∧
     ((∀ c, lastPasswordChange u = Some c → c / 1000 ≤ iat payload) →
      (∀ t, lockoutUntil u = Some t → now < t →
         JwtStrategy.authenticate verify st now req = inl AccountLocked) ∧
      ((∀ t, lockoutUntil u = Some t → t ≤ now) →
       JwtStrategy.authenticate verify st now req
       = inr (mkPrincipal (sub payload) (email payload) (provider payload)
                          (iat payload))))).
Proof.
  intros He Hv _ Hl Hb. unfold JwtStrategy.authenticate.
  rewrite He, Hv, (gate_after_lookup_miss st now req looked payload Hl Hb).
  destruct (findById st (sub payload)) as [u|]; [|by split_and!].
  split; [by repeat case_match|]. split; [done|].
  intros ? [= <-]. split.
  - intros c Hc Hlt. rewrite (stale_of_change u payload c Hc).
    by rewrite (proj2 (Z.ltb_lt _ _) Hlt).
  - intros Hs. rewrite (not_stale_of_floor u payload Hs). split.
    + intros t Ht Hlt. unfold JwtStrategy.locked. rewrite Ht.
      by rewrite (proj2 (Z.ltb_lt _ _) Hlt).
    + intros Hk. by rewrite (not_locked_of_until now u Hk).
Qed.

(** The revoked token [tok] of an identity that is gone, sent with the
    scheme in upper case and two spaces after it: the reason given is
    [IdentityNotFound]. *)
Lemma revocation_check_is_skipped_when_lookup_misses_witness :
  JwtStrategy.authenticate Sample.verifyTok
    (RevocationRegistry.revoke "tok" 900000 (Sample.stateOf Sample.bob))
    1000 (Sample.headerRequest "BEARER  tok")
  = inl IdentityNotFound.
Proof.
  apply (proj1 (proj2 (revocation_check_is_skipped_when_lookup_misses
           Sample.verifyTok
           (RevocationRegistry.revoke "tok" 900000 (Sample.stateOf Sample.bob))
           1000 (Sample.headerRequest "BEARER  tok") "tok" "BEARER  tok"
           (Sample.payloadAt 0) eq_refl eq_refl
           ltac:(vm_compute; by eexists) eq_refl eq_refl)));
    reflexivity.
Defined.

Lemma validate_stale st now req payload u c :
  JwtStrategy.revoked st req = false →
  findById st (sub payload) = Some u →
  lastPasswordChange u = Some c →
  iat payload < c / 1000 →
  JwtStrategy.validate st now req payload = inl StaleCredentials.
Proof.
  intros Hr Hu Hc Hlt. apply validate_inl. right. split; [done|].
  right. exists u. split; [done|]. left. split; [done|].
  unfold notStale. rewrite Hc. lia.
Qed.

Lemma validate_fresh st now req payload u c :
  JwtStrategy.revoked st req = false →
  findById st (sub payload) = Some u →
  lastPasswordChange u = Some c →
  JwtStrategy.locked now u = false →
  c / 1000 ≤ iat payload →
  JwtStrategy.validate st now req payload
  = inr (JwtStrategy.principalOf payload).
Proof.
  intros Hr Hu Hc Hl Hle. apply validate_inr. split; [done|].
  split; [done|]. exists u. split; [done|]. split; [|done].
  unfold notStale. by rewrite Hc.
Qed.

(** C3, as amended.  After a password change at instant [c], with the
    token not revoked: a token issued in a whole second before the second
    of [c] is rejected with [StaleCredentials]; a token issued in the
    second of [c] or later, in particular every token issued at an instant
    from [c] on, validates when the account is not locked. *)
Theorem password_change_invalidates_older_tokens st now req payload u c t :
  JwtStrategy.revoked st req = false →
  findById st (sub payload) = Some u →
  lastPasswordChange u = Some c →
  issuedAt payload t →
  (t / 1000 < c / 1000 →
   JwtStrategy.validate st now req payload = inl StaleCredentials) ∧
  (JwtStrategy.locked now u = false →
   (c / 1000 ≤ t / 1000 →
    JwtStrategy.validate st now req payload
    = inr (JwtStrategy.principalOf payload)) ∧
   (c ≤ t →
    JwtStrategy.validate st now req payload
    = inr (JwtStrategy.principalOf payload))).
Proof.
  unfold issuedAt. intros Hr Hu Hc Hi. split.
  - intros Hlt. eapply validate_stale; try done. lia.
  - intros Hl. split.
    + intros Hle. eapply validate_fresh; try done. lia.
    + intros Hle. eapply validate_fresh; try done.
      rewrite Hi. apply Z.div_le_mono; lia.
Qed.

Lemma password_change_invalidates_older_tokens_witness :
  JwtStrategy.validate (Sample.stateOf Sample.aliceChanged) 2000000
    (Sample.cookieRequest "tok") (Sample.payloadAt 999)
  = inl StaleCredentials ∧
  JwtStrategy.validate (Sample.stateOf Sample.aliceChanged) 2000000
    (Sample.cookieRequest "tok") (Sample.payloadAt 1000)
  = inr (JwtStrategy.principalOf (Sample.payloadAt 1000)).
Proof.
  split.
  - apply (password_change_invalidates_older_tokens
             (Sample.stateOf Sample.aliceChanged) 2000000
             (Sample.cookieRequest "tok") (Sample.payloadAt 999)
             Sample.aliceChanged 1000500 999900);
      first [reflexivity | vm_compute; congruence].
  - apply (password_change_invalidates_older_tokens
             (Sample.stateOf Sample.aliceChanged) 2000000
             (Sample.cookieRequest "tok") (Sample.payloadAt 1000)
             Sample.aliceChanged 1000500 1000700);
      first [reflexivity | vm_compute; congruence].
Defined.

(** C3, as stated, fails: a token issued at 1000.1 s, before the change
    at 1000.5 s, carries issued-at 1000 and still validates afterwards. *)
Lemma token_issued_before_change_still_validates :
  ¬ (∀ st now req payload u c t,
       JwtStrategy.revoked st req = false →
       findById st (sub payload) = Some u →
       lastPasswordChange u = Some c →
       issuedAt payload t →
       t < c →
       JwtStrategy.validate st now req payload = inl StaleCredentials).
Proof.
  intros H.
  specialize (H (Sample.stateOf Sample.aliceChanged) 1000600
                (Sample.bearerRequest "tok") (Sample.payloadAt 1000)
                Sample.aliceChanged 1000500 1000100
                eq_refl eq_refl eq_refl eq_refl eq_refl).
  vm_compute in H. discriminate.
Qed.

(** C9. The staleness check compares issued-at with the last password
    change cut down to whole seconds and is skipped when none is
    recorded: an identity without a recorded change never has a token
    rejected as stale, a token whose issued-at equals the whole-second
    floor of the change passes the check, and the rejection is exactly
    for issued-at below that floor. *)
Theorem stale_check_whole_seconds st now req payload u :
  findById st (sub payload) = Some u →
  (lastPasswordChange u = None →
   JwtStrategy.validate st now req payload ≠ inl StaleCredentials) ∧
  (∀ c, lastPasswordChange u = Some c → iat payload = c / 1000 →
   JwtStrategy.validate st now req payload ≠ inl StaleCredentials) ∧
  (JwtStrategy.validate st now req payload = inl StaleCredentials ↔
   JwtStrategy.revoked st req = false ∧
   ∃ c, lastPasswordChange u = Some c ∧ iat payload < c / 1000).
Proof.
  intros Hu.
  assert (JwtStrategy.validate st now req payload = inl StaleCredentials ↔
          JwtStrategy.revoked st req = false ∧
          ∃ c, lastPasswordChange u = Some c ∧ iat payload < c / 1000) as Hiff.
  { rewrite validate_inl. split.
    - intros [([=] & _)|(Hr & [([=] & _)|(u' & Hu' & [(_ & Hn)|([=] & _)])])].
      split; [done|]. rewrite Hu in Hu'. injection Hu' as <-.
      unfold notStale in Hn. destruct (lastPasswordChange u) as [c|]; [|tauto].
      exists c. split; [done|]. lia.
    - intros (Hr & c & Hc & Hlt). right. split; [done|]. right.
      exists u. split; [done|]. left. split; [done|].
      unfold notStale. rewrite Hc. lia. }
  split; [|split; [|exact Hiff]].
  - intros Hn. rewrite Hiff. intros (_ & c & Hc & _). congruence.
  - intros c Hc Hi. rewrite Hiff. intros (_ & c' & Hc' & Hlt).
    rewrite Hc in Hc'. injection Hc' as <-. lia.
Qed.

Lemma stale_check_whole_seconds_witness :
  JwtStrategy.validate (Sample.stateOf Sample.aliceChanged) 2000000
    (Sample.cookieRequest "tok") (Sample.payloadAt 1000)
  ≠ inl StaleCredentials.
Proof.
  refine (proj1 (proj2 (stale_check_whole_seconds
            (Sample.stateOf Sample.aliceChanged) 2000000
            (Sample.cookieRequest "tok") (Sample.payloadAt 1000)
            Sample.aliceChanged eq_refl)) 1000500 eq_refl eq_refl).
Defined.

(** ** The CRUD layer: synchronisation failures are not fatal *)

Lemma withMembers_same p :
  ProjectsService.withMembers (ProjectsService.members p) p = p.
Proof. by destruct p. Qed.

Lemma existsb_eqb_elem_of (x : string) (l : list string) :
  existsb (fun m => String.eqb m x) l = true ↔ x ∈ l.
Proof.
  rewrite existsb_exists, list_elem_of_In. split.
  - intros (y & Hy & Heq). apply String.eqb_eq in Heq. by subst.
  - intros H. exists x. split; [done|]. apply String.eqb_refl.
Qed.

Lemma existsb_eqb_not_elem_of (x : string) (l : list string) :
  existsb (fun m => String.eqb m x) l = false ↔ x ∉ l.
Proof. rewrite <- existsb_eqb_elem_of. by destruct (existsb _ l). Qed.

Section ProjectsFacts.
Import ProjectsService.

Local Set Default Proof Using "Type".

Context {T : Type}.
Variable toObjectId : string → option string.
Variable rejects : gmap string Project → Project → option Exception.
Variable createFromProject :
  string → string → string → list string → T → T * (Exception + Team).
Variable updateProjectTeamMembers :
  string → list string → T → T * (Exception + unit).
Variable deleteByProjectId : string → T → T * (Exception + unit).

Local Abbreviation create :=
  (ProjectsService.create T toObjectId rejects createFromProject).
Local Abbreviation update :=
  (ProjectsService.update T toObjectId rejects updateProjectTeamMembers).
Local Abbreviation delete :=
  (ProjectsService.delete T toObjectId deleteByProjectId).
Local Abbreviation addMember :=
  (ProjectsService.addMember T toObjectId rejects updateProjectTeamMembers).
Local Abbreviation removeMember :=
  (ProjectsService.removeMember T toObjectId rejects updateProjectTeamMembers).

Ltac tidy := repeat match goal with f : _ |- _ => clear f end.

Ltac step :=
  unfold ProjectsService.create, ProjectsService.update,
    ProjectsService.addMember, ProjectsService.removeMember,
    ProjectsService.delete, requireUser, requireProject, requireCreator,
    findById, findByIdAndDelete, objectIds, newObjectId, save, saveNew,
    onTeams, consoleError, tryCatch, bind, ret, throw;
  cbn [fst snd projects teams worldUsers errorLog].

(** [create], once the caller is known, the member ids are object ids,
    the schema accepts the document and the new [_id] is free. *)
Lemma create_steps newId dto e w u ms :
  userByEmail T w e = Some u →
  mapM toObjectId (default [] (createMembers dto)) = Some ms →
  rejects (projects w) (firstSaved dto u ms newId) = None →
  projects w !! newId = None →
  ∃ w' q,
    create newId dto e w = (w', inr (Some q)) ∧
    projects w' = <[newId := q]> (projects w) ∧
    worldUsers w' = worldUsers w ∧
    (∀ t' err,
       createFromProject newId (createName dto) e
         (default [] (createMembers dto)) (teams w) = (t', inl err) →
       q = firstSaved dto u ms newId ∧ teams w' = t' ∧
       errorLog w'
       = errorLog w ++ [("Failed to create team for project:", err)]) ∧
    (∀ t' team err,
       createFromProject newId (createName dto) e
         (default [] (createMembers dto)) (teams w) = (t', inr team) →
       rejects (<[newId := firstSaved dto u ms newId]> (projects w))
         (withTeam (teamDocId team) (firstSaved dto u ms newId)) = Some err →
       q = firstSaved dto u ms newId ∧ teams w' = t' ∧
       errorLog w'
       = errorLog w ++ [("Failed to create team for project:", err)]) ∧
    (∀ t' team,
       createFromProject newId (createName dto) e
         (default [] (createMembers dto)) (teams w) = (t', inr team) →
       rejects (<[newId := firstSaved dto u ms newId]> (projects w))
         (withTeam (teamDocId team) (firstSaved dto u ms newId)) = None →
       q = withTeam (teamDocId team) (firstSaved dto u ms newId) ∧
       teams w' = t' ∧ errorLog w' = errorLog w).
Proof.
  tidy. intros Hu Hms Hr Hfresh. step. rewrite Hu, Hms. cbn [projectId firstSaved].
  fold (firstSaved dto u ms newId). rewrite Hr, Hfresh.
  cbn [projects teams worldUsers errorLog projectId firstSaved].
  destruct (createFromProject _ _ _ _ _) as [t' [err|team]] eqn:Hc;
    cbn [projects teams worldUsers errorLog].
  - eexists _, _. split; [by rewrite lookup_insert_eq|].
    cbn [projects teams worldUsers errorLog].
    split_and!; try done.
    + by intros ?? [= <- <-].
  - destruct (rejects (<[newId:=_]> (projects w)) _) as [err|] eqn:Hr2;
      cbn [projects teams worldUsers errorLog projectId withTeam firstSaved].
    + eexists _, _. split; [by rewrite lookup_insert_eq|].
      cbn [projects teams worldUsers errorLog].
      split_and!; try done.
      * intros ??? [= <- <-]. rewrite Hr2. by intros [= <-].
      * intros ?? [= <- <-]. by rewrite Hr2.
    + eexists _, _. split; [by rewrite lookup_insert_eq|].
      cbn [projects teams worldUsers errorLog].
      split_and!; try done.
      * by rewrite insert_insert_eq.
      * intros ??? [= <- <-]. by rewrite Hr2.
      * by intros ?? [= <- <-].
Qed.


(** [update], once the guards have passed, the member ids are object ids
    and the schema accepts the document: what is saved and returned is
    the project with the new member list, if one is given, and the
    assigned fields. *)
Lemma update_steps i dto e w u k p ms :
  userByEmail T w e = Some u →
  toObjectId i = Some k →
  projects w !! k = Some p →
  createdBy p = uid u →
  match updateMembers dto with
  | Some ids => mapM toObjectId ids = Some ms
  | None => ms = members p
  end →
  rejects (projects w) (assignFields dto (withMembers ms p)) = None →
  ∃ w',
    update i dto e w = (w', inr (assignFields dto (withMembers ms p))) ∧
    projects w'
    = <[projectId p := assignFields dto (withMembers ms p)]> (projects w) ∧
    worldUsers w' = worldUsers w ∧
    (updateMembers dto = None →
     teams w' = teams w ∧ errorLog w' = errorLog w) ∧
    (∀ ids t' err,
       updateMembers dto = Some ids →
       updateProjectTeamMembers i ids (teams w) = (t', inl err) →
       teams w' = t' ∧
       errorLog w' = errorLog w ++ [("Failed to update team members:", err)]) ∧
    (∀ ids t' r,
       updateMembers dto = Some ids →
       updateProjectTeamMembers i ids (teams w) = (t', inr r) →
       teams w' = t' ∧ errorLog w' = errorLog w).
Proof.
  tidy. intros Hu Hk Hp Hc Hms Hr. step. rewrite Hu, Hk, Hp.
  cbn. rewrite Hc, String.eqb_refl. cbn.
  destruct (updateMembers dto) as [ids|]; cbn.
  - rewrite Hms. cbn.
    destruct (updateProjectTeamMembers i ids (teams w)) as [t' [err|[]]]
      eqn:Hs;
      cbn; rewrite Hr; eexists; (split; [reflexivity|]); cbn;
      split_and!; try done; intros; simplify_eq; split; congruence.
  - subst ms. rewrite withMembers_same in Hr |- *. rewrite Hr.
    eexists. split; [reflexivity|]. cbn. split_and!; done.
Qed.


(** [addMember] of someone new, for a project stored under its id. *)
Lemma addMember_steps i x e w u k p m :
  userByEmail T w e = Some u →
  toObjectId i = Some k →
  projects w !! k = Some p →
  createdBy p = uid u →
  projectId p = k →
  toObjectId x = Some m →
  m ∉ members p →
  rejects (projects w) (withMembers (members p ++ [m]) p) = None →
  ∃ w',
    addMember i x e w = (w', inr (withMembers (members p ++ [m]) p)) ∧
    projects w' = <[k := withMembers (members p ++ [m]) p]> (projects w) ∧
    worldUsers w' = worldUsers w ∧
    (∀ t' err,
       updateProjectTeamMembers i (members p ++ [m]) (teams w)
       = (t', inl err) →
       teams w' = t' ∧
       errorLog w' = errorLog w ++ [("Failed to update team members:", err)]) ∧
    (∀ t' r,
       updateProjectTeamMembers i (members p ++ [m]) (teams w)
       = (t', inr r) →
       teams w' = t' ∧ errorLog w' = errorLog w).
Proof.
  tidy. intros Hu Hk Hp Hc Hi Hm Hnin Hr. step. rewrite Hu, Hk, Hp.
  cbn. rewrite Hc, String.eqb_refl. cbn. rewrite Hm. cbn.
  rewrite (proj2 (existsb_eqb_not_elem_of m (members p)) Hnin). cbn.
  rewrite Hr. cbn. rewrite Hi.
  destruct (updateProjectTeamMembers i _ (teams w)) as [t' [err|[]]]
    eqn:Hs; cbn; rewrite lookup_insert_eq;
    (eexists; split; [reflexivity|]); cbn; split_and!; try done;
    intros; simplify_eq; split; congruence.
Qed.

(** [removeMember] for a project stored under its id; the id to remove is
    compared as it is given. *)
Lemma removeMember_steps i x e w u k p :
  userByEmail T w e = Some u →
  toObjectId i = Some k →
  projects w !! k = Some p →
  createdBy p = uid u →
  projectId p = k →
  rejects (projects w)
    (withMembers (List.filter (fun m => negb (String.eqb m x)) (members p)) p)
  = None →
  ∃ w',
    removeMember i x e w
    = (w', inr (withMembers
                  (List.filter (fun m => negb (String.eqb m x)) (members p))
                  p)) ∧
    projects w'
    = <[k := withMembers
               (List.filter (fun m => negb (String.eqb m x)) (members p)) p]>
        (projects w) ∧
    worldUsers w' = worldUsers w ∧
    (∀ t' err,
       updateProjectTeamMembers i
         (List.filter (fun m => negb (String.eqb m x)) (members p)) (teams w)
       = (t', inl err) →
       teams w' = t' ∧
       errorLog w' = errorLog w ++ [("Failed to update team members:", err)]) ∧
    (∀ t' r,
       updateProjectTeamMembers i
         (List.filter (fun m => negb (String.eqb m x)) (members p)) (teams w)
       = (t', inr r) →
       teams w' = t' ∧ errorLog w' = errorLog w).
Proof.
  tidy. intros Hu Hk Hp Hc Hi Hr. step. rewrite Hu, Hk, Hp.
  cbn. rewrite Hc, String.eqb_refl. cbn. rewrite Hr. cbn. rewrite Hi.
  destruct (updateProjectTeamMembers i _ (teams w)) as [t' [err|[]]]
    eqn:Hs; cbn; rewrite lookup_insert_eq;
    (eexists; split; [reflexivity|]); cbn; split_and!; try done;
    intros; simplify_eq; split; congruence.
Qed.

(** The guards reject, and leave every store as it was. *)
Lemma user_not_found e w :
  userByEmail T w e = None →
  (∀ newId dto,
     create newId dto e w = (w, inl (NotFoundException "User not found"))) ∧
  (∀ i dto,
     update i dto e w = (w, inl (NotFoundException "User not found"))) ∧
  (∀ i userId,
     addMember i userId e w
     = (w, inl (NotFoundException "User not found"))) ∧
  (∀ i userId,
     removeMember i userId e w
     = (w, inl (NotFoundException "User not found"))).
Proof. tidy. intros Hu. step. rewrite Hu. done. Qed.

Lemma not_an_object_id i e w u :
  userByEmail T w e = Some u →
  toObjectId i = None →
  (∀ dto, update i dto e w = (w, inl CastError)) ∧
  (∀ userId, addMember i userId e w = (w, inl CastError)) ∧
  (∀ userId, removeMember i userId e w = (w, inl CastError)).
Proof. tidy. intros Hu Hk. step. rewrite Hu, Hk. done. Qed.

Lemma project_not_found i e w u k :
  userByEmail T w e = Some u →
  toObjectId i = Some k →
  projects w !! k = None →
  (∀ dto,
     update i dto e w = (w, inl (NotFoundException "Project not found"))) ∧
  (∀ userId,
     addMember i userId e w
     = (w, inl (NotFoundException "Project not found"))) ∧
  (∀ userId,
     removeMember i userId e w
     = (w, inl (NotFoundException "Project not found"))).
Proof. tidy. intros Hu Hk Hp. step. rewrite Hu, Hk, Hp. done. Qed.

Lemma not_the_creator i e w u k p :
  userByEmail T w e = Some u →
  toObjectId i = Some k →
  projects w !! k = Some p →
  createdBy p ≠ uid u →
  (∀ dto, update i dto e w
     = (w, inl (ForbiddenException
                  "Only the project creator can update this project"))) ∧
  (∀ userId, addMember i userId e w
     = (w, inl (ForbiddenException
                  "Only the project creator can add members"))) ∧
  (∀ userId, removeMember i userId e w
     = (w, inl (ForbiddenException
                  "Only the project creator can remove members"))).
Proof.
  tidy. intros Hu Hk Hp Hc. step. rewrite Hu, Hk, Hp. cbn.
  destruct (String.eqb_spec (createdBy p) (uid u)); [contradiction|]. done.
Qed.

(** A member id that is no object id rejects before anything is written
    or synchronised. *)
Lemma invalid_member_id e w u :
  userByEmail T w e = Some u →
  (∀ newId dto,
     mapM toObjectId (default [] (createMembers dto)) = None →
     create newId dto e w = (w, inl BSONError)) ∧
  (∀ i k p,
     toObjectId i = Some k → projects w !! k = Some p →
     createdBy p = uid u →
     (∀ dto ids,
        updateMembers dto = Some ids → mapM toObjectId ids = None →
        update i dto e w = (w, inl BSONError)) ∧
     (∀ userId,
        toObjectId userId = None →
        addMember i userId e w = (w, inl BSONError))).
Proof.
  tidy. intros Hu. split.
  - intros newId dto Hv. step. by rewrite Hu, Hv.
  - intros i k p Hk Hp Hc. split.
    + intros dto ids Hids Hv. step. rewrite Hu, Hk, Hp. cbn.
      rewrite Hc, String.eqb_refl. cbn. by rewrite Hids, Hv.
    + intros userId Hv. step. rewrite Hu, Hk, Hp. cbn.
      rewrite Hc, String.eqb_refl. cbn. by rewrite Hv.
Qed.

(** What [save()] rejects with is what the method rejects with, and the
    collection stays as it was. *)
Lemma save_rejection e w u err :
  userByEmail T w e = Some u →
  (∀ newId dto ms,
     mapM toObjectId (default [] (createMembers dto)) = Some ms →
     rejects (projects w) (firstSaved dto u ms newId) = Some err →
     create newId dto e w = (w, inl err)) ∧
  (∀ newId dto ms,
     mapM toObjectId (default [] (createMembers dto)) = Some ms →
     rejects (projects w) (firstSaved dto u ms newId) = None →
     is_Some (projects w !! newId) →
     create newId dto e w = (w, inl DuplicateKeyError)) ∧
  (∀ i k p,
     toObjectId i = Some k → projects w !! k = Some p →
     createdBy p = uid u →
     (∀ dto ms,
        match updateMembers dto with
        | Some ids => mapM toObjectId ids = Some ms
        | None => ms = members p
        end →
        rejects (projects w) (assignFields dto (withMembers ms p)) = Some err →
        ∃ w', update i dto e w = (w', inl err) ∧
              projects w' = projects w ∧ worldUsers w' = worldUsers w) ∧
     (∀ userId m,
        toObjectId userId = Some m → m ∉ members p →
        rejects (projects w) (withMembers (members p ++ [m]) p) = Some err →
        addMember i userId e w = (w, inl err)) ∧
     (∀ userId,
        rejects (projects w)
          (withMembers
             (List.filter (fun m => negb (String.eqb m userId)) (members p))
             p) = Some err →
        removeMember i userId e w = (w, inl err))).
Proof.
  tidy. intros Hu. split_and!.
  - intros newId dto ms Hms Hr. step. rewrite Hu, Hms. cbn.
    fold (firstSaved dto u ms newId). by rewrite Hr.
  - intros newId dto ms Hms Hr [q Hq]. step. rewrite Hu, Hms. cbn.
    fold (firstSaved dto u ms newId). by rewrite Hr, Hq.
  - intros i k p Hk Hp Hc. split_and!.
    + intros dto ms Hms Hr. step. rewrite Hu, Hk, Hp. cbn.
      rewrite Hc, String.eqb_refl. cbn.
      destruct (updateMembers dto) as [ids|]; cbn.
      * rewrite Hms. cbn.
        destruct (updateProjectTeamMembers i ids (teams w)) as [t' [x|[]]];
          cbn; rewrite Hr; eexists; (split; [reflexivity|]); done.
      * subst ms. rewrite withMembers_same in Hr. rewrite Hr. by eexists.
    + intros userId m Hm Hnin Hr. step. rewrite Hu, Hk, Hp. cbn.
      rewrite Hc, String.eqb_refl. cbn. rewrite Hm. cbn.
      rewrite (proj2 (existsb_eqb_not_elem_of m (members p)) Hnin). cbn.
      by rewrite Hr.
    + intros userId Hr. step. rewrite Hu, Hk, Hp. cbn.
      rewrite Hc, String.eqb_refl. cbn. by rewrite Hr.
Qed.


(** The guards of [delete]. *)
Lemma delete_rejections i e w :
  (userByEmail T w e = None →
   delete i e w = (w, inl (NotFoundException "User not found"))) ∧
  (∀ u, userByEmail T w e = Some u →
     (toObjectId i = None → delete i e w = (w, inl CastError)) ∧
     (∀ k, toObjectId i = Some k →
        (projects w !! k = None →
         delete i e w = (w, inl (NotFoundException "Project not found"))) ∧
        (∀ p, projects w !! k = Some p → createdBy p ≠ uid u →
           delete i e w
           = (w, inl (ForbiddenException
                        "Only the project creator can delete this project"))))).
Proof.
  tidy. split.
  - intros Hu. step. by rewrite Hu.
  - intros u Hu. split.
    + intros Hk. step. by rewrite Hu, Hk.
    + intros k Hk. split.
      * intros Hp. step. by rewrite Hu, Hk, Hp.
      * intros p Hp Hc. step. rewrite Hu, Hk, Hp. cbn.
        by destruct (String.eqb_spec (createdBy p) (uid u)).
Qed.

(** C8. Synchronisation with the team store is best effort.  Whatever the
    team service does, throwing included: [create] resolves to the
    project it has saved under the new id (without a team, and with the
    failure logged, when provisioning throws), and [update], [addMember]
    and [removeMember] resolve to the project they have saved, the
    failure of the synchronisation being logged.  Every other failure is
    the rejection of the call: the guards of the service with their
    exception, an id that is no object id, and whatever [save()] rejects
    with; the collection is then as it was. *)
Theorem sync_failures_are_not_fatal :
  (∀ newId dto e w u ms,
     userByEmail T w e = Some u →
     mapM toObjectId (default [] (createMembers dto)) = Some ms →
     rejects (projects w) (firstSaved dto u ms newId) = None →
     projects w !! newId = None →
     ∃ w' q,
       create newId dto e w = (w', inr (Some q)) ∧
       projects w' = <[newId := q]> (projects w) ∧
       ∀ t' err,
         createFromProject newId (createName dto) e
           (default [] (createMembers dto)) (teams w) = (t', inl err) →
         q = firstSaved dto u ms newId ∧ teams w' = t' ∧
         errorLog w'
         = errorLog w ++ [("Failed to create team for project:", err)]) ∧
  (∀ i e w u k p,
     userByEmail T w e = Some u →
     toObjectId i = Some k →
     projects w !! k = Some p →
     createdBy p = uid u →
     (∀ dto ms,
        match updateMembers dto with
        | Some ids => mapM toObjectId ids = Some ms
        | None => ms = members p
        end →
        rejects (projects w) (assignFields dto (withMembers ms p)) = None →
        ∃ w',
          update i dto e w = (w', inr (assignFields dto (withMembers ms p))) ∧
          projects w'
          = <[projectId p := assignFields dto (withMembers ms p)]>
              (projects w) ∧
          ∀ ids t' err,
            updateMembers dto = Some ids →
            updateProjectTeamMembers i ids (teams w) = (t', inl err) →
            teams w' = t' ∧
            errorLog w'
            = errorLog w ++ [("Failed to update team members:", err)]) ∧
     (∀ userId m,
        projectId p = k →
        toObjectId userId = Some m →
        m ∉ members p →
        rejects (projects w) (withMembers (members p ++ [m]) p) = None →
        ∃ w',
          addMember i userId e w
          = (w', inr (withMembers (members p ++ [m]) p)) ∧
          projects w'
          = <[k := withMembers (members p ++ [m]) p]> (projects w) ∧
          ∀ t' err,
            updateProjectTeamMembers i (members p ++ [m]) (teams w)
            = (t', inl err) →
            teams w' = t' ∧
            errorLog w'
            = errorLog w ++ [("Failed to update team members:", err)]) ∧
     (∀ userId,
        projectId p = k →
        rejects (projects w)
          (withMembers
             (List.filter (fun m => negb (String.eqb m userId)) (members p))
             p) = None →
        ∃ w',
          removeMember i userId e w
          = (w', inr (withMembers
                        (List.filter (fun m => negb (String.eqb m userId))
                                     (members p)) p)) ∧
          projects w'
          = <[k := withMembers
                     (List.filter (fun m => negb (String.eqb m userId))
                                  (members p)) p]> (projects w) ∧
          ∀ t' err,
            updateProjectTeamMembers i
              (List.filter (fun m => negb (String.eqb m userId)) (members p))
              (teams w) = (t', inl err) →
            teams w' = t' ∧
            errorLog w'
            = errorLog w ++ [("Failed to update team members:", err)])) ∧
  (∀ e w,
     userByEmail T w e = None →
     (∀ newId dto,
        create newId dto e w
        = (w, inl (NotFoundException "User not found"))) ∧
     (∀ i dto,
        update i dto e w = (w, inl (NotFoundException "User not found"))) ∧
     (∀ i userId,
        addMember i userId e w
        = (w, inl (NotFoundException "User not found"))) ∧
     (∀ i userId,
        removeMember i userId e w
        = (w, inl (NotFoundException "User not found")))) ∧
  (∀ i e w u,
     userByEmail T w e = Some u →
     (toObjectId i = None →
      (∀ dto, update i dto e w = (w, inl CastError)) ∧
      (∀ userId, addMember i userId e w = (w, inl CastError)) ∧
      (∀ userId, removeMember i userId e w = (w, inl CastError))) ∧
     (∀ k,
        toObjectId i = Some k → projects w !! k = None →
        (∀ dto,
           update i dto e w
           = (w, inl (NotFoundException "Project not found"))) ∧
        (∀ userId,
           addMember i userId e w
           = (w, inl (NotFoundException "Project not found"))) ∧
        (∀ userId,
           removeMember i userId e w
           = (w, inl (NotFoundException "Project not found")))) ∧
     (∀ k p,
        toObjectId i = Some k → projects w !! k = Some p →
        createdBy p ≠ uid u →
        (∀ dto, update i dto e w
           = (w, inl (ForbiddenException
                        "Only the project creator can update this project"))) ∧
        (∀ userId, addMember i userId e w
           = (w, inl (ForbiddenException
                        "Only the project creator can add members"))) ∧
        (∀ userId, removeMember i userId e w
           = (w, inl (ForbiddenException
                        "Only the project creator can remove members"))))) ∧
  (∀ e w u,
     userByEmail T w e = Some u →
     (∀ newId dto,
        mapM toObjectId (default [] (createMembers dto)) = None →
        create newId dto e w = (w, inl BSONError)) ∧
     (∀ newId dto ms err,
        mapM toObjectId (default [] (createMembers dto)) = Some ms →
        rejects (projects w) (firstSaved dto u ms newId) = Some err →
        create newId dto e w = (w, inl err)) ∧
     (∀ i k p,
        toObjectId i = Some k → projects w !! k = Some p →
        createdBy p = uid u →
        (∀ dto ids,
           updateMembers dto = Some ids → mapM toObjectId ids = None →
           update i dto e w = (w, inl BSONError)) ∧
        (∀ userId,
           toObjectId userId = None →
           addMember i userId e w = (w, inl BSONError)) ∧
        (∀ dto ms err,
           match updateMembers dto with
           | Some ids => mapM toObjectId ids = Some ms
           | None => ms = members p
           end →
           rejects (projects w) (assignFields dto (withMembers ms p))
           = Some err →
           ∃ w', update i dto e w = (w', inl err) ∧
                 projects w' = projects w) ∧
        (∀ userId m err,
           toObjectId userId = Some m → m ∉ members p →
           rejects (projects w) (withMembers (members p ++ [m]) p)
           = Some err →
           addMember i userId e w = (w, inl err)) ∧
        (∀ userId err,
           rejects (projects w)
             (withMembers
                (List.filter (fun m => negb (String.eqb m userId))
                             (members p)) p) = Some err →
           removeMember i userId e w = (w, inl err)))).
Proof.
  split_and!.
  - intros newId dto e w u ms Hu Hms Hr Hfresh.
    destruct (create_steps newId dto e w u ms Hu Hms Hr Hfresh)
      as (w' & q & H1 & H2 & _ & H3 & _).
    exists w', q. split; [exact H1|]. split; [exact H2|exact H3].
  - intros i e w u k p Hu Hk Hp Hc. split_and!.
    + intros dto ms Hms Hr.
      destruct (update_steps i dto e w u k p ms Hu Hk Hp Hc Hms Hr)
        as (w' & H1 & H2 & _ & _ & H3 & _).
      exists w'. split; [exact H1|]. split; [exact H2|exact H3].
    + intros userId m Hi Hm Hnin Hr.
      destruct (addMember_steps i userId e w u k p m Hu Hk Hp Hc Hi Hm Hnin
                  Hr) as (w' & H1 & H2 & _ & H3 & _).
      exists w'. split; [exact H1|]. split; [exact H2|exact H3].
    + intros userId Hi Hr.
      destruct (removeMember_steps i userId e w u k p Hu Hk Hp Hc Hi Hr)
        as (w' & H1 & H2 & _ & H3 & _).
      exists w'. split; [exact H1|]. split; [exact H2|exact H3].
  - intros e w Hu.
    destruct (user_not_found e w Hu) as (H1 & H2 & H3 & H4).
    split_and!; assumption.
  - intros i e w u Hu. split_and!.
    + intros Hk.
      destruct (not_an_object_id i e w u Hu Hk) as (H1 & H2 & H3).
      split_and!; assumption.
    + intros k Hk Hp.
      destruct (project_not_found i e w u k Hu Hk Hp) as (H1 & H2 & H3).
      split_and!; assumption.
    + intros k p Hk Hp Hc.
      destruct (not_the_creator i e w u k p Hu Hk Hp Hc)
        as (H1 & H2 & H3).
      split_and!; assumption.
  - intros e w u Hu.
    destruct (invalid_member_id e w u Hu) as (B1 & B2).
    split_and!.
    + exact B1.
    + intros newId dto ms err.
      exact (proj1 (save_rejection e w u err Hu) newId dto ms).
    + intros i k p Hk Hp Hc.
      destruct (B2 i k p Hk Hp Hc) as (B3 & B4).
      split_and!; [exact B3|exact B4| | |].
      * intros dto ms err Hms Hr.
        destruct (proj1 (proj2 (proj2 (save_rejection e w u err Hu))
                           i k p Hk Hp Hc) dto ms Hms Hr)
          as (w' & H1 & H2 & _).
        eauto.
      * intros userId m err.
        exact (proj1 (proj2 (proj2 (proj2 (save_rejection e w u err Hu))
                               i k p Hk Hp Hc)) userId m).
      * intros userId err.
        exact (proj2 (proj2 (proj2 (proj2 (save_rejection e w u err Hu))
                               i k p Hk Hp Hc)) userId).
Qed.

End ProjectsFacts.

(** With the team service down, [ana@x.com] creates a project and names
    the member in upper case: the project is stored under the new id with
    the member in canonical form and without a team, and the failure is in
    the log. *)
Lemma sync_failures_are_not_fatal_witness :
  ∃ w' q,
    ProjectsService.create unit Bson.toObjectId Doubles.datesOnly
      TeamsDown.createFromProject "dddddddddddddddddddddd01" Doubles.launch
      "ana@x.com" (Doubles.worldWith []) = (w', inr (Some q)) ∧
    ProjectsService.projects w' !! "dddddddddddddddddddddd01" = Some q ∧
    ProjectsService.members q = ["bbbbbbbbbbbbbbbbbbbbbbb2"] ∧
    ProjectsService.status q = "active" ∧
    ProjectsService.teamId q = None ∧
    ProjectsService.errorLog w'
    = [("Failed to create team for project:",
        ProjectsService.CollaboratorError "teams unavailable")].
Proof.
  destruct (proj1 (sync_failures_are_not_fatal Bson.toObjectId
                     Doubles.datesOnly TeamsDown.createFromProject
                     TeamsDown.updateProjectTeamMembers)
              "dddddddddddddddddddddd01" Doubles.launch "ana@x.com"
              (Doubles.worldWith []) Doubles.ana ["bbbbbbbbbbbbbbbbbbbbbbb2"]
              eq_refl eq_refl eq_refl eq_refl) as (w' & q & H1 & H2 & H3).
  destruct (H3 tt (ProjectsService.CollaboratorError "teams unavailable")
              eq_refl) as (Hq & _ & Hlog).
  exists w', q. split; [exact H1|].
  split; [by rewrite H2, lookup_insert_eq|].
  rewrite Hq. split; [reflexivity|]. split; [reflexivity|].
  split; [reflexivity|exact Hlog].
Defined.


(** ** The Credential Store *)

Lemma find_saveUser (f : User → string) (key : string) (u u' : User) l :
  List.find (fun x => String.eqb (f x) key) l = Some u →
  uid u' = uid u →
  f u' = key →
  List.find (fun x => String.eqb (f x) key) (saveUser u' l) = Some u'.
Proof.
  intros Hf Hid Hk. induction l as [|x l IH]; [done|].
  cbn [List.find] in Hf. cbn [saveUser].
  destruct (String.eqb_spec (f x) key) as [Hx|Hx].
  - injection Hf as ->. rewrite Hid, String.eqb_refl.
    cbn [List.find]. by rewrite Hk, String.eqb_refl.
  - destruct (String.eqb (uid x) (uid u')).
    + cbn [List.find]. by rewrite Hk, String.eqb_refl.
    + cbn [List.find]. destruct (String.eqb_spec (f x) key); [done|]. auto.
Qed.

Lemma setFailures_id u :
  setFailures (failedLoginAttempts u) (lockoutUntil u) u = u.
Proof. by destruct u. Qed.

(** ** Minting *)

Lemma tokenString_inj k k' n n' :
  tokenString k n = tokenString k' n' → k = k' ∧ n = n'.
Proof.
  unfold tokenString.
  destruct k, k'; cbv [tokenPrefix String.append]; intros H;
    try discriminate; injection H as H; apply (inj pretty) in H; done.
Qed.

Section AuthFacts.
Variable cfg : Config.
Variable verifyPassword : string → string → bool.

Local Abbreviation login := (AuthService.login cfg verifyPassword).
Local Abbreviation passwordMatches :=
  (AuthService.passwordMatches verifyPassword).

Lemma passwordMatches_setFailures n until u password :
  passwordMatches (setFailures n until u) password
  = passwordMatches u password.
Proof. reflexivity. Qed.

Lemma passwordMatches_afterLockout now u password :
  passwordMatches (AuthService.afterLockout now u) password
  = passwordMatches u password.
Proof.
  unfold AuthService.afterLockout.
  destruct (lockoutUntil u) as [t|]; [|done]. by destruct (t <=? now).
Qed.

Lemma twoFactor_afterLockout now u :
  twoFactorEnabled (AuthService.afterLockout now u) = twoFactorEnabled u.
Proof.
  unfold AuthService.afterLockout.
  destruct (lockoutUntil u) as [t|]; [|done]. by destruct (t <=? now).
Qed.

Lemma uid_afterLockout now u : uid (AuthService.afterLockout now u) = uid u.
Proof.
  unfold AuthService.afterLockout.
  destruct (lockoutUntil u) as [t|]; [|done]. by destruct (t <=? now).
Qed.

Lemma email_afterLockout now u :
  userEmail (AuthService.afterLockout now u) = userEmail u.
Proof.
  unfold AuthService.afterLockout.
  destruct (lockoutUntil u) as [t|]; [|done]. by destruct (t <=? now).
Qed.

Lemma findByEmail_email st e u :
  findByEmail st e = Some u → userEmail u = e.
Proof.
  unfold findByEmail. intros H. apply find_some in H as [_ H].
  by apply String.eqb_eq.
Qed.

(** *** Login with and without a second factor *)

Lemma login_challenge now e password st u :
  findByEmail st e = Some u →
  JwtStrategy.locked now u = false →
  passwordMatches u password = true →
  twoFactorEnabled u = true →
  let c := tokenString ChallengeToken (nextSerial st) in
  ∃ st',
    login now e password st
    = (st', inr (mkLoginResult (Some true) (Some c) None None)) ∧
    ∃ info, issued st' = <[c := info]> (issued st) ∧
            tokenKind info = ChallengeToken.
Proof.
  intros Hu Hl Hp H2. unfold AuthService.login.
  rewrite Hu, Hl, passwordMatches_afterLockout, Hp, twoFactor_afterLockout, H2.
  cbn. eauto.
Qed.

Lemma login_token_pair now e password st u :
  findByEmail st e = Some u →
  JwtStrategy.locked now u = false →
  passwordMatches u password = true →
  twoFactorEnabled u = false →
  let a := tokenString AccessToken (nextSerial st) in
  let r := tokenString RefreshToken (N.succ (nextSerial st)) in
  ∃ st',
    login now e password st
    = (st', inr (mkLoginResult None None (Some a) (Some r))) ∧
    findByEmail st' e = Some (setFailures 0 None u) ∧
    (∃ ia, issued st' !! a = Some ia ∧ tokenKind ia = AccessToken
           ∧ tokenSub ia = uid u) ∧
    (∃ ir, issued st' !! r = Some ir ∧ tokenKind ir = RefreshToken
           ∧ tokenSub ir = uid u).
Proof.
  intros Hu Hl Hp H2. unfold AuthService.login.
  rewrite Hu, Hl, passwordMatches_afterLockout, Hp, twoFactor_afterLockout, H2.
  cbn. eexists. split; [reflexivity|]. split; [|split].
  - unfold findByEmail. cbn [users].
    replace (setFailures 0 None (AuthService.afterLockout now u))
      with (setFailures 0 None u).
    2:{ unfold AuthService.afterLockout.
        destruct (lockoutUntil u) as [t|]; [|done]. by destruct (t <=? now). }
    apply (find_saveUser userEmail e u); [done|done|].
    by apply findByEmail_email in Hu.
  - eexists. cbn [issued]. rewrite lookup_insert_ne, lookup_insert_eq.
    + split; [reflexivity|]. cbn. by rewrite uid_afterLockout.
    + intros H. apply tokenString_inj in H as [? _]. done.
  - eexists. cbn [issued]. rewrite lookup_insert_eq.
    split; [reflexivity|]. cbn. by rewrite uid_afterLockout.
Qed.

(** C7. With the correct password on an account that is not locked: if
    2FA is enabled, [login] resolves to a challenge token only, mints no
    access or refresh token, and the controller sets no cookie and
    answers with the temporary token alone; if 2FA is disabled, the
    failed-attempt counter is zero afterwards, a full token pair is
    minted and the controller sets both cookies. *)
Theorem login_second_factor_gate now dto req st u :
  findByEmail st (loginEmail dto) = Some u →
  JwtStrategy.locked now u = false →
  passwordMatches u (loginPassword dto) = true →
  (twoFactorEnabled u = true →
   ∃ c st',
     login now (loginEmail dto) (loginPassword dto) st
     = (st', inr (mkLoginResult (Some true) (Some c) None None)) ∧
     (∀ t i, issued st' !! t = Some i →
             tokenKind i = ChallengeToken ∨ issued st !! t = Some i) ∧
     AuthController.login (authServiceAt cfg verifyPassword now) dto req st
     = (st', inr [Json (Requires2FABody (Some c))])) ∧
  (twoFactorEnabled u = false →
   ∃ a r st',
     login now (loginEmail dto) (loginPassword dto) st
     = (st', inr (mkLoginResult None None (Some a) (Some r))) ∧
     (∃ u', findByEmail st' (loginEmail dto) = Some u' ∧
            failedLoginAttempts u' = O) ∧
     (∃ ia, issued st' !! a = Some ia ∧ tokenKind ia = AccessToken) ∧
     (∃ ir, issued st' !! r = Some ir ∧ tokenKind ir = RefreshToken) ∧
     AuthController.login (authServiceAt cfg verifyPassword now) dto req st
     = (st', inr [SetCookie "accessToken" (Some a) accessMaxAge;
                  SetCookie "refreshToken" (Some r) refreshMaxAge;
                  Json SuccessBody])).
Proof.
  intros Hu Hl Hp. split; intros H2.
  - destruct (login_challenge now _ _ st u Hu Hl Hp H2)
      as (st' & Hlogin & info & Hi & Hk).
    eexists _, st'. split; [exact Hlogin|]. split.
    + intros t i. rewrite Hi, lookup_insert. case_decide; [|auto].
      intros [= <-]. auto.
    + unfold AuthController.login. cbn [apiLogin authServiceAt].
      by rewrite Hlogin.
  - destruct (login_token_pair now _ _ st u Hu Hl Hp H2)
      as (st' & Hlogin & Hf & (ia & Hia & Hka & _) & (ir & Hir & Hkr & _)).
    eexists _, _, st'. split; [exact Hlogin|]. split; [eauto|].
    split; [eauto|]. split; [eauto|].
    unfold AuthController.login. cbn [apiLogin authServiceAt].
    by rewrite Hlogin.
Qed.

End AuthFacts.

Lemma login_second_factor_gate_witness :
  (∃ c st',
     AuthController.login (authServiceAt Sample.cfg Sample.verifyPlain 1000)
       (mkLoginDto "b@x.com" "p2") (mkRequest None None None None None)
       (Sample.stateOf Sample.bob)
     = (st', inr [Json (Requires2FABody (Some c))])) ∧
  (∃ a r st',
     AuthController.login (authServiceAt Sample.cfg Sample.verifyPlain 1000)
       (mkLoginDto "a@x.com" "p1") (mkRequest None None None None None)
       (Sample.stateOf Sample.alice)
     = (st', inr [SetCookie "accessToken" (Some a) accessMaxAge;
                  SetCookie "refreshToken" (Some r) refreshMaxAge;
                  Json SuccessBody])).
Proof.
  split.
  - destruct (proj1 (login_second_factor_gate Sample.cfg Sample.verifyPlain
                       1000 (mkLoginDto "b@x.com" "p2")
                       (mkRequest None None None None None)
                       (Sample.stateOf Sample.bob) Sample.bob
                       eq_refl eq_refl eq_refl) eq_refl)
      as (c & st' & _ & _ & H).
    exists c, st'. exact H.
  - destruct (proj2 (login_second_factor_gate Sample.cfg Sample.verifyPlain
                       1000 (mkLoginDto "a@x.com" "p1")
                       (mkRequest None None None None None)
                       (Sample.stateOf Sample.alice) Sample.alice
                       eq_refl eq_refl eq_refl) eq_refl)
      as (a & r & st' & _ & _ & _ & _ & H).
    exists a, r, st'. exact H.
Defined.

(** ** Lockout *)

Section LockoutFacts.
Variable cfg : Config.
Variable verifyPassword : string → string → bool.

Local Abbreviation login := (AuthService.login cfg verifyPassword).
Local Abbreviation passwordMatches :=
  (AuthService.passwordMatches verifyPassword).
Local Abbreviation attempt := (loginMany cfg verifyPassword).

Lemma login_locked now e password st u :
  findByEmail st e = Some u →
  JwtStrategy.locked now u = true →
  login now e password st = (st, inl AccountLocked).
Proof. intros Hu Hl. unfold AuthService.login. by rewrite Hu, Hl. Qed.

Lemma login_mismatch now e password st u :
  findByEmail st e = Some u →
  JwtStrategy.locked now u = false →
  passwordMatches u password = false →
  let u' := AuthService.recordFailure cfg now
              (AuthService.afterLockout now u) in
  login now e password st
  = (setUsers (saveUser u' (users st)) st, inl InvalidCredentials) ∧
  findByEmail (setUsers (saveUser u' (users st)) st) e = Some u'.
Proof.
  intros Hu Hl Hp. split.
  - unfold AuthService.login.
    by rewrite Hu, Hl, passwordMatches_afterLockout, Hp.
  - unfold findByEmail. cbn [users setUsers].
    apply (find_saveUser userEmail e u); [done| |].
    + cbn. apply uid_afterLockout.
    + cbn. rewrite email_afterLockout. by eapply findByEmail_email.
Qed.

(** One more mismatch on an account that is not locked and has [k]
    failures on record. *)
Lemma mismatch_counts now e password st u k :
  findByEmail st e = Some (setFailures k None u) →
  passwordMatches u password = false →
  ∃ st',
    login now e password st = (st', inl InvalidCredentials) ∧
    findByEmail st' e
    = Some (setFailures (S k)
              (if (lockoutThreshold cfg <=? S k)%nat
               then Some (now + lockoutWindow cfg) else None) u).
Proof.
  intros Hu Hp.
  destruct (login_mismatch now e password st _ Hu eq_refl Hp) as [H1 H2].
  eexists. split; [exact H1|]. exact H2.
Qed.

Lemma failures_lead_to_lockout attempts : ∀ k st e u tlast plast,
  findByEmail st e = Some (setFailures k None u) →
  (k + length attempts + 1 = lockoutThreshold cfg)%nat →
  (∀ t password, In (t, password) (attempts ++ [(tlast, plast)]) →
                 passwordMatches u password = false) →
  ∃ st',
    attempt (attempts ++ [(tlast, plast)]) e st
    = (st', repeat (inl InvalidCredentials) (length attempts + 1)) ∧
    findByEmail st' e
    = Some (setFailures (lockoutThreshold cfg)
              (Some (tlast + lockoutWindow cfg)) u).
Proof.
  induction attempts as [|[t pw] rest IH]; intros k st e u tlast plast Hu Hn Hw.
  - cbn [app loginMany length] in *.
    destruct (mismatch_counts tlast e plast st u k Hu) as (st' & H1 & H2).
    { apply (Hw tlast). by left. }
    rewrite H1. eexists. split; [reflexivity|]. rewrite H2.
    replace (S k) with (lockoutThreshold cfg) by lia.
    by rewrite Nat.leb_refl.
  - cbn [app loginMany length] in *.
    destruct (mismatch_counts t e pw st u k Hu) as (st1 & H1 & H2).
    { apply (Hw t). by left. }
    rewrite H1.
    destruct (lockoutThreshold cfg <=? S k)%nat eqn:Hle.
    { apply Nat.leb_le in Hle. lia. }
    destruct (IH (S k) st1 e u tlast plast H2) as (st' & H3 & H4).
    { lia. }
    { intros t' pw' Hin. apply (Hw t'). by right. }
    rewrite H3. eexists. split; [reflexivity|]. exact H4.
Qed.

(** C4. From a clean counter, as many consecutive mismatches as the
    threshold each fail with [InvalidCredentials] and leave lockout-until
    at the instant of the last one plus the window.  Until that instant
    every attempt, the correct password included, fails with
    [AccountLocked] and changes nothing; from that instant on the next
    attempt starts from a counter of zero: a match (2FA disabled) logs
    in with the counter at zero, a mismatch leaves it at one. *)
Theorem lockout_after_threshold st e u attempts tlast plast :
  findByEmail st e = Some u →
  failedLoginAttempts u = O →
  lockoutUntil u = None →
  S (length attempts) = lockoutThreshold cfg →
  (∀ t password, In (t, password) (attempts ++ [(tlast, plast)]) →
                 passwordMatches u password = false) →
  ∃ st',
    attempt (attempts ++ [(tlast, plast)]) e st
    = (st', repeat (inl InvalidCredentials) (lockoutThreshold cfg)) ∧
    (∃ u', findByEmail st' e = Some u' ∧
           lockoutUntil u' = Some (tlast + lockoutWindow cfg) ∧
           failedLoginAttempts u' = lockoutThreshold cfg) ∧
    (∀ now password, now < tlast + lockoutWindow cfg →
       login now e password st' = (st', inl AccountLocked)) ∧
    (∀ now password, tlast + lockoutWindow cfg ≤ now →
       (passwordMatches u password = true → twoFactorEnabled u = false →
        ∃ st'' a r u'',
          login now e password st'
          = (st'', inr (mkLoginResult None None (Some a) (Some r))) ∧
          findByEmail st'' e = Some u'' ∧
          failedLoginAttempts u'' = O ∧ lockoutUntil u'' = None) ∧
       (passwordMatches u password = false →
        ∃ st'' u'',
          login now e password st' = (st'', inl InvalidCredentials) ∧
          findByEmail st'' e = Some u'' ∧
          failedLoginAttempts u'' = 1%nat)).
Proof.
  intros Hu Hf Hl Hn Hw.
  assert (u = setFailures 0 None u) as Hu0.
  { rewrite <- Hf, <- Hl. symmetry. apply setFailures_id. }
  rewrite Hu0 in Hu.
  destruct (failures_lead_to_lockout attempts 0 st e u tlast plast Hu)
    as (st' & Hrun & Hfind); [lia|done|].
  exists st'. split.
  { rewrite Hrun. f_equal. f_equal. lia. }
  set (lockedUser := setFailures (lockoutThreshold cfg)
                       (Some (tlast + lockoutWindow cfg)) u) in *.
  split; [by exists lockedUser|]. split.
  - intros now password Hnow. eapply login_locked; [exact Hfind|].
    unfold JwtStrategy.locked. cbn. by apply Z.ltb_lt.
  - intros now password Hnow.
    assert (JwtStrategy.locked now lockedUser = false) as Hun.
    { unfold JwtStrategy.locked. cbn. by apply Z.ltb_ge. }
    assert (AuthService.afterLockout now lockedUser = setFailures 0 None u)
      as Hreset.
    { unfold AuthService.afterLockout. cbn.
      by destruct (Z.leb_spec (tlast + lockoutWindow cfg) now); [|lia]. }
    split.
    + intros Hp H2.
      destruct (login_token_pair cfg verifyPassword now e password st'
                  lockedUser Hfind Hun Hp H2) as (st'' & H1 & H3 & _).
      eexists st'', _, _, _. split; [exact H1|]. split; [exact H3|]. done.
    + intros Hp.
      destruct (login_mismatch now e password st' lockedUser Hfind Hun Hp)
        as [H1 H3].
      eexists _, _. split; [exact H1|]. split; [exact H3|].
      rewrite Hreset. reflexivity.
Qed.

End LockoutFacts.

Lemma lockout_after_threshold_witness :
  ∃ st',
    loginMany Sample.cfg Sample.verifyPlain
      [(1000, "wrong"); (2000, "wrong"); (3000, "wrong"); (4000, "wrong");
       (5000, "wrong")] "a@x.com" (Sample.stateOf Sample.alice)
    = (st', repeat (inl InvalidCredentials) 5) ∧
    AuthService.login Sample.cfg Sample.verifyPlain 6000 "a@x.com" "p1" st'
    = (st', inl AccountLocked).
Proof.
  assert (∀ (t : Z) password,
            In (t, password)
               ([(1000, "wrong"); (2000, "wrong"); (3000, "wrong");
                 (4000, "wrong")] ++ [(5000, "wrong")]) →
            AuthService.passwordMatches Sample.verifyPlain Sample.alice
              password = false) as Hwrong.
  { intros t password Hin. simpl in Hin.
    repeat (destruct Hin as [Hin|Hin]; [by injection Hin as _ <-|]).
    destruct Hin. }
  destruct (lockout_after_threshold Sample.cfg Sample.verifyPlain
              (Sample.stateOf Sample.alice) "a@x.com" Sample.alice
              [(1000, "wrong"); (2000, "wrong"); (3000, "wrong");
               (4000, "wrong")] 5000 "wrong" eq_refl eq_refl eq_refl eq_refl
              Hwrong)
    as (st' & H1 & _ & H3 & _).
  exists st'. split; [exact H1|]. apply H3. reflexivity.
Defined.

(** ** Histories keep the ledger, the exchanged tokens and the revocations *)

Lemma extends_refl st : extends st st.
Proof. unfold extends. split_and!; auto; lia. Qed.

Lemma extends_trans st1 st2 st3 :
  extends st1 st2 → extends st2 st3 → extends st1 st3.
Proof.
  intros (A1 & A2 & A3 & A4) (B1 & B2 & B3 & B4).
  unfold extends. split_and!; auto; lia.
Qed.

Lemma frames_refl st : ledgerOk st → frames st st.
Proof. intros H. split; [done|]. split; [apply extends_refl|auto]. Qed.

Lemma frames_trans st1 st2 st3 :
  frames st1 st2 → frames st2 st3 → frames st1 st3.
Proof.
  intros (_ & E12 & N12) (Hok & E23 & N23).
  split; [done|]. split; [by eapply extends_trans|].
  intros t i Hi. destruct (N23 t i Hi) as [H2|[Hge|(t0 & i0 & H0 & Hf & Hb)]].
  - by apply N12.
  - right. left. destruct E12 as (_ & _ & _ & ?). lia.
  - rewrite <- Hf. destruct (N12 t0 i0 H0) as [H1|H1]; [|by right].
    right. right. exists t0, i0. split; [done|]. split; [done|].
    destruct (blacklist st1 !! t0) as [z|] eqn:Hz; [|done].
    destruct E12 as (_ & _ & E & _).
    destruct (E t0) as [z' Hz']; [by eexists|]. congruence.
Qed.

Lemma frames_familyRevoked st st' fam :
  frames st st' → (fam < nextSerial st)%N →
  familyRevoked fam st → familyRevoked fam st'.
Proof.
  intros (_ & (_ & _ & E & _) & Hnew) Hlt Hrev t i Hi Hf.
  destruct (Hnew t i Hi) as [Hold|[Hge|(t0 & i0 & H0 & Hf0 & Hb)]].
  - apply E. by eapply Hrev.
  - lia.
  - destruct (Hrev t0 i0 H0) as [z Hz]; [congruence|]. congruence.
Qed.

Lemma frames_users us st : ledgerOk st → frames st (setUsers us st).
Proof.
  intros H. split; [exact H|]. split; [|auto].
  unfold extends. cbn. split_and!; auto; lia.
Qed.

Lemma frames_same_ledger st st' :
  ledgerOk st →
  issued st' = issued st →
  (∀ t, t ∈ rotated st → t ∈ rotated st') →
  (∀ t, is_Some (blacklist st !! t) → is_Some (blacklist st' !! t)) →
  (nextSerial st ≤ nextSerial st')%N →
  frames st st'.
Proof.
  intros Hok Hi Hr Hb Hn. split; [|split].
  - intros t i. rewrite Hi. intros H.
    destruct (Hok _ _ H) as [(k & n & -> & Hlt) Hf].
    split; [|lia]. exists k, n. split; [done|lia].
  - unfold extends. rewrite Hi. auto.
  - intros t i. rewrite Hi. auto.
Qed.

(** Minting on top of a history that started at [base]. *)
Lemma frames_mint base k ttl now sb e prov fam st :
  frames base st →
  liveFamily base fam →
  (fam ≤ nextSerial st)%N →
  frames base (TokenIssuer.mint k ttl now sb e prov fam st).2.
Proof.
  intros (Hok & Hext & Hnew) Hlive Hfam. unfold TokenIssuer.mint. cbn [snd].
  assert (issued st !! tokenString k (nextSerial st) = None) as Hfresh.
  { destruct (issued st !! _) as [i|] eqn:Hi; [|done].
    destruct (Hok _ _ Hi) as [(k' & n & Heq & Hlt) _].
    apply tokenString_inj in Heq as [_ <-]. lia. }
  split; [|split].
  - intros t i. cbn [issued nextSerial]. rewrite lookup_insert.
    case_decide as Ht.
    + intros [= <-]. cbn. split; [|lia]. exists k, (nextSerial st).
      split; [done|lia].
    + intros Hi. destruct (Hok _ _ Hi) as [(k' & n & -> & Hlt) Hf].
      split; [|lia]. exists k', n. split; [done|lia].
  - eapply extends_trans; [exact Hext|].
    unfold extends. cbn. split_and!; auto; try lia.
    intros t i Hi. rewrite lookup_insert_ne; [done|]. congruence.
  - intros t i. cbn [issued]. rewrite lookup_insert. case_decide.
    + intros [= <-]. right. exact Hlive.
    + auto.
Qed.

Lemma nextSerial_mint k ttl now sb e prov fam st :
  nextSerial (TokenIssuer.mint k ttl now sb e prov fam st).2
  = N.succ (nextSerial st).
Proof. reflexivity. Qed.

Lemma frames_issuePair cfg base now sb e prov fam st :
  frames base st →
  liveFamily base fam →
  (fam ≤ nextSerial st)%N →
  frames base (TokenIssuer.issuePair cfg now sb e prov fam st).2.
Proof.
  intros Hf Hlive Hfam. unfold TokenIssuer.issuePair.
  pose proof (frames_mint base AccessToken (accessTtl cfg) now sb e prov fam st
                Hf Hlive Hfam) as H1.
  pose proof (nextSerial_mint AccessToken (accessTtl cfg) now sb e prov fam st)
    as Hn.
  destruct (TokenIssuer.mint AccessToken _ _ _ _ _ _ st) as [a st1].
  cbn [snd] in *.
  assert (fam ≤ nextSerial st1)%N as Hfam1 by lia.
  pose proof (frames_mint base RefreshToken (refreshTtl cfg) now sb e prov fam
                st1 H1 Hlive Hfam1) as H2.
  by destruct (TokenIssuer.mint RefreshToken _ _ _ _ _ _ st1) as [r st2].
Qed.

Lemma frames_issue cfg base now u prov st :
  frames base st →
  frames base (TokenIssuer.issue cfg now u prov st).2.
Proof.
  intros Hf. apply frames_issuePair; [done| |lia].
  left. destruct Hf as (_ & (_ & _ & _ & ?) & _). done.
Qed.

Lemma frames_issueChallenge cfg base now u st :
  frames base st →
  frames base (TokenIssuer.issueChallenge cfg now u st).2.
Proof.
  intros Hf. apply frames_mint; [done| |lia].
  left. destruct Hf as (_ & (_ & _ & _ & ?) & _). done.
Qed.

Section HistoryFacts.
Variable cfg : Config.
Variable verifyPassword : string → string → bool.

Lemma frames_login now e password st :
  ledgerOk st →
  frames st (AuthService.login cfg verifyPassword now e password st).1.
Proof.
  intros Hok. unfold AuthService.login.
  destruct (findByEmail st e) as [u|]; [|by apply frames_refl].
  destruct (JwtStrategy.locked now u); [by apply frames_refl|].
  destruct (AuthService.passwordMatches _ _ _).
  - destruct (twoFactorEnabled _).
    + pose proof (frames_issueChallenge cfg st now
                    (AuthService.afterLockout now u)
                    (setUsers (saveUser (AuthService.afterLockout now u)
                                        (users st)) st)
                    (frames_users _ st Hok)) as H.
      by destruct (TokenIssuer.issueChallenge _ _ _ _).
    + pose proof (frames_issue cfg st now
                    (setFailures 0 None (AuthService.afterLockout now u))
                    "local"
                    (setUsers (saveUser
                                 (setFailures 0 None
                                    (AuthService.afterLockout now u))
                                 (users st)) st)
                    (frames_users _ st Hok)) as H.
      by destruct (TokenIssuer.issue _ _ _ _ _).
  - by apply frames_users.
Qed.

Lemma frames_revokeFamily fam st :
  ledgerOk st → frames st (RevocationRegistry.revokeFamily fam st).
Proof.
  intros Hok. apply frames_same_ledger; [done|done|auto| |cbn; lia].
  intros t Ht. cbn. apply lookup_union_is_Some. by right.
Qed.

Lemma frames_revoke token expiry st :
  ledgerOk st → frames st (RevocationRegistry.revoke token expiry st).
Proof.
  intros Hok. apply frames_same_ledger; [done|done|auto| |cbn; lia].
  intros t Ht. cbn. rewrite lookup_insert. by case_decide.
Qed.

Lemma frames_revokeIfPresent token st :
  ledgerOk st → frames st (AuthService.revokeIfPresent token st).
Proof.
  intros Hok. destruct token as [t|]; [|by apply frames_refl].
  by apply frames_revoke.
Qed.

Lemma frames_logout a r userId st :
  ledgerOk st → frames st (AuthService.logout a r userId st).1.
Proof.
  intros Hok. cbn.
  pose proof (frames_revokeIfPresent a st Hok) as H1.
  eapply frames_trans; [exact H1|].
  apply frames_revokeIfPresent. by destruct H1.
Qed.

Lemma frames_refresh now token st :
  ledgerOk st →
  frames st (AuthService.refreshAccessToken cfg now token st).1.
Proof using cfg.
  clear verifyPassword. intros Hok. unfold AuthService.refreshAccessToken.
  destruct (issued st !! token) as [info|] eqn:Hi; [|by apply frames_refl].
  destruct (tokenKind info); try by apply frames_refl.
  case_bool_decide; [by apply frames_revokeFamily|].
  destruct (tokenExpiry info <=? now); [by apply frames_refl|].
  destruct (isTokenBlacklisted st token) eqn:Hb; [by apply frames_refl|].
  cbn [orb].
  set (st1 := mkAuthState _ _ _ _ _).
  assert (frames st st1) as H1.
  { apply frames_same_ledger; [done|done| |auto|cbn; lia].
    intros t Ht. cbn. set_solver. }
  pose proof (frames_issuePair cfg st now (tokenSub info) (tokenEmail info)
                (tokenProvider info) (tokenFamily info) st1 H1) as H2.
  destruct (TokenIssuer.issuePair _ _ _ _ _ _ st1) as [p st2].
  apply H2.
  - right. exists token, info. split; [done|]. split; [done|].
    unfold isTokenBlacklisted in Hb. apply bool_decide_eq_false in Hb.
    destruct (blacklist st !! token); [|done]. exfalso. apply Hb. by eexists.
  - destruct (Hok _ _ Hi) as [_ ?]. cbn. lia.
Qed.

Lemma frames_oauth now p st :
  ledgerOk st →
  frames st (AuthService.validateOAuthLogin cfg now p st).1.
Proof.
  intros Hok. unfold AuthService.validateOAuthLogin.
  destruct (List.find (AuthService.linkedTo _) (users st)) as [u|].
  - pose proof (frames_issue cfg st now u (profileProvider p) st
                  (frames_refl _ Hok)) as H.
    by destruct (TokenIssuer.issue _ _ _ _ _).
  - destruct (List.find (AuthService.verifiedEmail _) (users st)) as [u|].
    + pose proof (frames_issue cfg st now
                    (setOauthLink (AuthService.profileKey p) u)
                    (profileProvider p) _
                    (frames_users
                       (saveUser (setOauthLink (AuthService.profileKey p) u)
                                 (users st)) st Hok)) as H.
      by destruct (TokenIssuer.issue _ _ _ _ _).
    + set (u' := mkUser _ _ _ _ _ _ _ _ _ _).
      set (st0 := mkAuthState _ _ _ _ _).
      assert (frames st st0) as H0.
      { apply frames_same_ledger; [done|done|auto|auto|cbn; lia]. }
      pose proof (frames_issue cfg st now u' (profileProvider p) st0 H0) as H.
      by destruct (TokenIssuer.issue _ _ _ _ _).
Qed.

Lemma frames_runOp op st :
  ledgerOk st → frames st (runOp cfg verifyPassword op st).
Proof.
  intros Hok. destruct op; cbn [runOp].
  - by apply frames_login.
  - by apply frames_refresh.
  - by apply frames_logout.
  - by apply frames_oauth.
Qed.

Lemma frames_runOps ops : ∀ st,
  ledgerOk st → frames st (runOps cfg verifyPassword ops st).
Proof.
  induction ops as [|op ops IH]; intros st Hok; [by apply frames_refl|].
  cbn [runOps fold_left].
  pose proof (frames_runOp op st Hok) as H1.
  eapply frames_trans; [exact H1|]. apply IH. by destruct H1.
Qed.

End HistoryFacts.

(** ** Rotation of refresh tokens *)

Section RotationFacts.
Variable cfg : Config.
Variable verifyPassword : string → string → bool.

Local Abbreviation refresh := (AuthService.refreshAccessToken cfg).
Local Abbreviation history := (runOps cfg verifyPassword).

Lemma refresh_success now r st st1 p :
  refresh now r st = (st1, inr p) →
  ∃ info, issued st !! r = Some info ∧ tokenKind info = RefreshToken ∧
          r ∈ rotated st1 ∧
          (∃ ia, issued st1 !! pairAccessToken p = Some ia ∧
                 tokenFamily ia = tokenFamily info) ∧
          (∃ ir, issued st1 !! pairRefreshToken p = Some ir ∧
                 tokenFamily ir = tokenFamily info).
Proof.
  unfold AuthService.refreshAccessToken.
  destruct (issued st !! r) as [info|]; [|done].
  destruct (tokenKind info) eqn:Hk; try done.
  case_bool_decide; [done|].
  destruct (_ || _); [done|].
  cbn. intros [= <- <-]. exists info. split; [done|]. split; [done|].
  cbn. split; [set_solver|]. split.
  - eexists. rewrite lookup_insert_ne, lookup_insert_eq; [done|].
    intros H'. apply tokenString_inj in H' as [? _]. done.
  - eexists. by rewrite lookup_insert_eq.
Qed.

Lemma refresh_replay now r st info :
  issued st !! r = Some info →
  tokenKind info = RefreshToken →
  r ∈ rotated st →
  refresh now r st
  = (RevocationRegistry.revokeFamily (tokenFamily info) st,
     inl TokenReplayDetected).
Proof.
  intros Hi Hk Hr. unfold AuthService.refreshAccessToken.
  rewrite Hi, Hk. by rewrite bool_decide_eq_true_2.
Qed.

Lemma revokeFamily_revokes fam st :
  familyRevoked fam (RevocationRegistry.revokeFamily fam st).
Proof.
  intros t i Hi Hf. cbn in *. apply lookup_union_is_Some. left.
  rewrite lookup_fmap.
  rewrite (map_lookup_filter_Some_2 _ _ _ _ Hi); [by eexists|done].
Qed.

(** With the modelled service: once a refresh token has been exchanged,
    whatever the service does afterwards, presenting it again never
    succeeds; the call fails with [TokenReplayDetected] and revokes the
    family, and from then on the gate rejects, with [TokenRevoked], every
    token of that family that a request carries in the cookie or in a
    header spelled exactly [Bearer ] and the token. *)
Theorem rotated_refresh_token_is_dead st0 now1 r p st1 ops now2 :
  ledgerOk st0 →
  refresh now1 r st0 = (st1, inr p) →
  ∃ info,
    issued st0 !! r = Some info ∧
    (∃ ia ir,
       issued st1 !! pairAccessToken p = Some ia ∧
       tokenFamily ia = tokenFamily info ∧
       issued st1 !! pairRefreshToken p = Some ir ∧
       tokenFamily ir = tokenFamily info) ∧
    (∀ st3 p', refresh now2 r (history ops st1) ≠ (st3, inr p')) ∧
    refresh now2 r (history ops st1)
    = (RevocationRegistry.revokeFamily (tokenFamily info) (history ops st1),
       inl TokenReplayDetected) ∧
    ∀ later t i now req payload,
      issued (history later
                (RevocationRegistry.revokeFamily (tokenFamily info)
                   (history ops st1))) !! t = Some i →
      tokenFamily i = tokenFamily info →
      JwtStrategy.carries req t →
      JwtStrategy.validate
        (history later
           (RevocationRegistry.revokeFamily (tokenFamily info)
              (history ops st1))) now req payload
      = inl TokenRevoked.
Proof.
  intros Hok Href.
  destruct (refresh_success _ _ _ _ _ Href)
    as (info & Hi & Hk & Hrot & (ia & Hia & Hfa) & (ir & Hir & Hfr)).
  pose proof (frames_refresh cfg now1 r st0 Hok) as F01.
  rewrite Href in F01. cbn [fst] in F01.
  assert (ledgerOk st1) as Hok1 by (by destruct F01).
  pose proof (frames_runOps cfg verifyPassword ops st1 Hok1) as F12.
  set (st2 := history ops st1) in *.
  assert (ledgerOk st2) as Hok2 by (by destruct F12).
  assert (issued st2 !! r = Some info) as Hi2.
  { destruct F01 as (_ & (E1 & _) & _), F12 as (_ & (E2 & _) & _). auto. }
  assert (r ∈ rotated st2) as Hrot2.
  { destruct F12 as (_ & (_ & E2 & _) & _). auto. }
  pose proof (refresh_replay now2 r st2 info Hi2 Hk Hrot2) as Hreplay.
  exists info. split; [done|]. split; [eauto 10|]. split.
  { intros st3 p'. rewrite Hreplay. congruence. }
  split; [exact Hreplay|].
  intros later t i now req payload Hlater Hfam Hcar.
  set (st3 := RevocationRegistry.revokeFamily (tokenFamily info) st2) in *.
  pose proof (frames_revokeFamily (tokenFamily info) st2 Hok2) as F23.
  fold st3 in F23.
  assert (ledgerOk st3) as Hok3 by (by destruct F23).
  pose proof (frames_runOps cfg verifyPassword later st3 Hok3) as F34.
  assert (familyRevoked (tokenFamily info) (history later st3)) as Hdead.
  { eapply frames_familyRevoked; [exact F34| |].
    - destruct (Hok2 _ _ Hi2) as [_ ?]. done.
    - apply revokeFamily_revokes. }
  eapply carried_revoked_token_rejected; [|exact Hcar].
  eapply Hdead; [exact Hlater|exact Hfam].
Qed.

End RotationFacts.

Lemma ledgerOk_afterLogin : ledgerOk Sample.afterLogin.
Proof.
  refine (proj1 (frames_login Sample.cfg Sample.verifyPlain 1000000 "a@x.com"
                   "p1" (Sample.stateOf Sample.alice) _)).
  intros t i Hi. cbn in Hi. by rewrite lookup_empty in Hi.
Qed.

Lemma rotated_refresh_token_is_dead_witness :
  ∃ st1 p info,
    AuthService.refreshAccessToken Sample.cfg 2000000 "r.1" Sample.afterLogin
    = (st1, inr p) ∧
    AuthService.refreshAccessToken Sample.cfg 3000000 "r.1" st1
    = (RevocationRegistry.revokeFamily (tokenFamily info) st1,
       inl TokenReplayDetected) ∧
    JwtStrategy.validate
      (RevocationRegistry.revokeFamily (tokenFamily info) st1) 3000001
      (Sample.cookieRequest (pairAccessToken p)) (Sample.payloadAt 2000)
    = inl TokenRevoked.
Proof.
  destruct (AuthService.refreshAccessToken Sample.cfg 2000000 "r.1"
              Sample.afterLogin) as [st1 [e|p]] eqn:Href.
  { vm_compute in Href. discriminate. }
  destruct (rotated_refresh_token_is_dead Sample.cfg Sample.verifyPlain
              Sample.afterLogin 2000000 "r.1" p st1 [] 3000000
              ledgerOk_afterLogin Href)
    as (info & _ & (ia & _ & Hia & Hfa & _) & _ & Hreplay & Hgate).
  exists st1, p, info. split; [reflexivity|]. split; [exact Hreplay|].
  apply (Hgate [] (pairAccessToken p) ia); [exact Hia|exact Hfa|].
  split; [|left; reflexivity].
  vm_compute in Href. injection Href as _ <-. discriminate.
Defined.

(** C5 fails of the program.  [a@x.com] has logged in and the browser
    holds [a.0] and [r.1].  [POST auth/refresh] exchanges [r.1] and sets
    the new access token [a.2] only, so the browser keeps [r.1]; its next
    refresh presents [r.1] again and is answered [TokenReplayDetected],
    and the four tokens minted from the login are in the registry.  The
    gate then rejects [a.2] in the cookie, and admits the same [a.2] sent
    as [Authorization: bearer a.2]. *)
Theorem replayed_family_token_is_still_admitted :
  ∃ st1 st2,
    AuthController.refreshToken
      (authServiceAt Sample.cfg Sample.verifyPlain 2000000)
      (Sample.browser "a.0" "r.1") Sample.afterLogin
    = (st1, inr [SetCookie "accessToken" (Some "a.2") 900000;
                 Json SuccessBody]) ∧
    AuthController.refreshToken
      (authServiceAt Sample.cfg Sample.verifyPlain 2100000)
      (Sample.browser "a.2" "r.1") st1
    = (st2, inl TokenReplayDetected) ∧
    size (issued st2) = 4%nat ∧
    Forall (fun t => (∃ i, issued st2 !! t = Some i ∧ tokenFamily i = 0%N) ∧
                     is_Some (blacklist st2 !! t))
           ["a.0"; "r.1"; "a.2"; "r.3"] ∧
    JwtStrategy.authenticate (Sample.decode st2 2100001) st2 2100001
      (Sample.browser "a.2" "r.1")
    = inl TokenRevoked ∧
    JwtStrategy.jwtFromRequest (Sample.headerRequest "bearer a.2")
    = Some "a.2" ∧
    JwtStrategy.authenticate (Sample.decode st2 2100001) st2 2100001
      (Sample.headerRequest "bearer a.2")
    = inr (mkPrincipal "u1" "a@x.com" "local" 2000).
Proof.
  eexists _, _. split; [vm_compute; reflexivity|].
  split; [vm_compute; reflexivity|].
  split; [vm_compute; reflexivity|].
  split.
  { repeat constructor; vm_compute; eauto. }
  split; [vm_compute; reflexivity|].
  split; vm_compute; reflexivity.
Qed.

(** ** Logout *)

Lemma logout_without_token_cookies {S : Type} (authService : AuthServiceApi S)
    req principal st :
  user req = Some (JwtUser principal) →
  Js.truthy (c ← cookies req; accessTokenCookie c) = false →
  Js.truthy (c ← cookies req; refreshTokenCookie c) = false →
  AuthController.logout authService req st
  = (st, inr [ClearCookie "accessToken"; ClearCookie "refreshToken";
              Json SuccessBody]).
Proof.
  intros Hu Ha Hr. unfold AuthController.logout. by rewrite Hu, Ha, Hr.
Qed.

(** Whatever the service behind it, a logout request that carries its
    access token in the [Authorization] header only leaves the state as it
    was, so the gate goes on admitting the token. *)
Lemma logout_header_only_changes_nothing {S : Type}
    (authService : AuthServiceApi S) req principal (st : S) :
  user req = Some (JwtUser principal) →
  cookies req = None →
  (AuthController.logout authService req st).1 = st.
Proof.
  intros Hu Hc.
  rewrite (logout_without_token_cookies authService req principal st Hu);
    [done| |]; by rewrite Hc.
Qed.

Section LogoutFacts.
Variable cfg : Config.
Variable verifyPassword : string → string → bool.

(** With the modelled service, the tokens of the cookies are revoked
    with their natural expiries, and stay revoked. *)
Lemma logout_revokes_cookie_tokens now req principal st a :
  ledgerOk st →
  user req = Some (JwtUser principal) →
  JwtStrategy.viaCookie a req →
  a ≠ "" →
  ∃ st',
    AuthController.logout (authServiceAt cfg verifyPassword now) req st
    = (st', inr [ClearCookie "accessToken"; ClearCookie "refreshToken";
                 Json SuccessBody]) ∧
    blacklist st' !! a = Some (RevocationRegistry.naturalExpiry st a) ∧
    ∀ later now' req' payload,
      JwtStrategy.carries req' a →
      JwtStrategy.validate (runOps cfg verifyPassword later st') now' req'
        payload
      = inl TokenRevoked.
Proof.
  intros Hok Hu Ha Hne. unfold AuthController.logout, JwtStrategy.viaCookie in *.
  rewrite Hu, Ha, (truthy_Some _ Hne). cbn [orb apiLogout authServiceAt].
  cbn [AuthService.logout AuthService.revokeIfPresent].
  eexists. split; [reflexivity|].
  set (st1 := RevocationRegistry.revoke a _ st).
  assert (blacklist (AuthService.revokeIfPresent
                       (c ← cookies req; refreshTokenCookie c) st1) !! a
          = Some (RevocationRegistry.naturalExpiry st a)) as Hb.
  { destruct (c ← cookies req; refreshTokenCookie c) as [r|]; cbn.
    - rewrite lookup_insert. case_decide as Hr.
      + subst r. done.
      + by rewrite lookup_insert_eq.
    - by rewrite lookup_insert_eq. }
  split; [exact Hb|].
  intros later now' req' payload Hcar.
  eapply carried_revoked_token_rejected; [|exact Hcar].
  assert (ledgerOk (AuthService.revokeIfPresent
                      (c ← cookies req; refreshTokenCookie c) st1)) as Hok'.
  { apply frames_revokeIfPresent. by apply frames_revoke. }
  destruct (frames_runOps cfg verifyPassword later _ Hok')
    as (_ & (_ & _ & E & _) & _).
  apply E. by eexists.
Qed.

(** Logging out twice is logging out once. *)
Lemma logout_idempotent a r userId st :
  AuthService.logout a r userId (AuthService.logout a r userId st).1
  = AuthService.logout a r userId st.
Proof.
  unfold AuthService.logout. cbn [fst]. f_equal.
  destruct st as [us bl iss rot n].
  destruct a as [a|], r as [r|];
    unfold AuthService.revokeIfPresent, RevocationRegistry.revoke,
      RevocationRegistry.naturalExpiry, setBlacklist;
    cbn [blacklist issued users rotated nextSerial]; try done; f_equal;
    apply map_eq; intros k; rewrite ?lookup_insert;
    repeat case_decide; congruence.
Qed.

End LogoutFacts.

(** C6. The divergence: [a@x.com] logs in, sends the access token [a.0]
    as a bearer header, passes the guard and calls logout; the handler
    reads the cookies only, answers success and revokes nothing, and the
    gate admits the very same token afterwards. *)
Theorem logout_misses_bearer_token :
  ∃ guarded,
    jwtAuthGuard Sample.afterLogin 1500000 (Sample.bearerRequest "a.0")
      (Sample.payloadAt 1000) = inr guarded ∧
    AuthController.logout
      (authServiceAt Sample.cfg Sample.verifyPlain 1500000) guarded
      Sample.afterLogin
    = (Sample.afterLogin,
       inr [ClearCookie "accessToken"; ClearCookie "refreshToken";
            Json SuccessBody]) ∧
    JwtStrategy.validate Sample.afterLogin 1500001
      (Sample.bearerRequest "a.0") (Sample.payloadAt 1000)
    = inr (JwtStrategy.principalOf (Sample.payloadAt 1000)).
Proof.
  eexists. split; [vm_compute; reflexivity|]. split.
  - eapply logout_without_token_cookies; reflexivity.
  - vm_compute. reflexivity.
Qed.

(** ** The Google login *)

Lemma filter_nil_of_find_none {A} (f : A → bool) l :
  List.find f l = None → List.filter f l = [].
Proof.
  induction l as [|x l IH]; [done|]. cbn.
  destruct (f x); [done|auto].
Qed.

Lemma find_some_of_filter {A} (f : A → bool) l :
  List.filter f l ≠ [] → ∃ x, List.find f l = Some x.
Proof.
  induction l as [|x l IH]; [done|]. cbn.
  destruct (f x); [eauto|auto].
Qed.

Lemma filter_saveUser_one (f : User → bool) u' l :
  List.filter f l = [] → f u' = true →
  length (List.filter f (saveUser u' l)) = 1%nat.
Proof.
  intros Hl Hu. induction l as [|x l IH]; cbn.
  - by rewrite Hu.
  - cbn in Hl. destruct (f x) eqn:Hx; [done|].
    destruct (String.eqb (uid x) (uid u')); cbn.
    + by rewrite Hu, Hl.
    + rewrite Hx. auto.
Qed.

Lemma users_issue cfg now u prov st :
  users (TokenIssuer.issue cfg now u prov st).2 = users st.
Proof. reflexivity. Qed.

Section OAuthFacts.
Variable cfg : Config.

Local Abbreviation oauth := (AuthService.validateOAuthLogin cfg).

Lemma oauth_resolves now p st : ∃ tp, (oauth now p st).2 = inr tp.
Proof.
  unfold AuthService.validateOAuthLogin.
  destruct (List.find (AuthService.linkedTo _) _);
    [|destruct (List.find (AuthService.verifiedEmail _) _)];
    destruct (TokenIssuer.issue _ _ _ _ _); cbn; eauto.
Qed.

(** The first call leaves exactly one identity linked to the key if
    there was none, and creates nothing if there was one. *)
Lemma oauth_first_call now p st :
  let k := AuthService.profileKey p in
  (linkedCount k st = O → linkedCount k (oauth now p st).1 = 1%nat) ∧
  (linkedCount k st ≠ O → users (oauth now p st).1 = users st).
Proof.
  intros k. unfold AuthService.validateOAuthLogin, linkedCount. fold k.
  destruct (List.find (AuthService.linkedTo k) (users st)) as [u|] eqn:Hk.
  - pose proof (users_issue cfg now u (profileProvider p) st) as Hu.
    destruct (TokenIssuer.issue _ _ _ _ _) as [tp st1]. cbn [fst snd] in *.
    rewrite Hu. split; [|done]. intros H0.
    apply find_some in Hk as [Hin Hl].
    assert (In u (List.filter (AuthService.linkedTo k) (users st))) as Hf.
    { apply filter_In. done. }
    destruct (List.filter _ _); [done|cbn in H0; lia].
  - apply filter_nil_of_find_none in Hk.
    split; [|intros H; by rewrite Hk in H].
    intros _.
    destruct (List.find (AuthService.verifiedEmail _) (users st)) as [u|].
    + pose proof (users_issue cfg now (setOauthLink k u) (profileProvider p)
                    (setUsers (saveUser (setOauthLink k u) (users st)) st))
        as Hu.
      destruct (TokenIssuer.issue _ _ _ _ _) as [tp st1]. cbn [fst snd] in *.
      rewrite Hu. cbn [users setUsers].
      apply filter_saveUser_one; [done|].
      unfold AuthService.linkedTo. cbn. by rewrite bool_decide_eq_true_2.
    + set (u' := mkUser _ _ _ _ _ _ _ _ _ _).
      set (st0 := mkAuthState _ _ _ _ _).
      pose proof (users_issue cfg now u' (profileProvider p) st0) as Hu.
      destruct (TokenIssuer.issue _ _ _ _ _) as [tp st1]. cbn [fst snd] in *.
      rewrite Hu. cbn [users st0]. rewrite List.filter_app, Hk. cbn.
      unfold AuthService.linkedTo. cbn. by rewrite bool_decide_eq_true_2.
Qed.

(** After the first call the key is taken, so a second call with the
    same profile finds the identity and the Credential Store is left as
    it is. *)
Lemma oauth_idempotent now now' p st :
  let k := AuthService.profileKey p in
  users (oauth now' p (oauth now p st).1).1 = users (oauth now p st).1 ∧
  linkedCount k (oauth now' p (oauth now p st).1).1
  = Nat.max 1 (linkedCount k st).
Proof.
  intros k.
  destruct (oauth_first_call now p st) as [H0 H1]. fold k in H0, H1.
  assert (linkedCount k (oauth now p st).1 = Nat.max 1 (linkedCount k st))
    as Hc.
  { destruct (Nat.eq_dec (linkedCount k st) 0) as [Hz|Hz].
    - rewrite (H0 Hz), Hz. done.
    - unfold linkedCount in *. rewrite (H1 Hz). lia. }
  assert (linkedCount k (oauth now p st).1 ≠ O) as Hnz by lia.
  destruct (oauth_first_call now' p (oauth now p st).1) as [_ H2].
  fold k in H2. specialize (H2 Hnz). split; [done|].
  unfold linkedCount in *. by rewrite H2.
Qed.

End OAuthFacts.

(** C10. A completed Google login calls [validateOAuthLogin] twice with
    the same profile, first from the strategy (result dropped), then from
    the redirect handler; nothing else in the flow guards against a second
    identity.  With the service of the design document the second call
    finds the identity of the first, so the flow ends with one identity
    for the key (or as many as there were); with a service that creates on
    every call the same flow ends with two. *)
Theorem google_login_relies_on_idempotence :
  (∀ (S : Type) (authService : AuthServiceApi S) url pa pr profile req
     (st : S),
     completeGoogleLogin authService url pa pr profile req st
     = match apiValidateOAuthLogin authService profile None None st with
       | (st1, inl e) => (st1, inl e)
       | (st1, inr _) =>
           match apiValidateOAuthLogin authService profile (ip req)
                   (userAgent req) st1 with
           | (st2, inl e) => (st2, inl e)
           | (st2, inr tp) =>
               (st2, inr ([SetCookie "accessToken" (Some (pairAccessToken tp))
                             accessMaxAge;
                           SetCookie "refreshToken"
                             (Some (pairRefreshToken tp)) refreshMaxAge;
                           Redirect (default "http://localhost:3001"
                                       (Js.or url None) +:+ "/dashboard")]))
           end
       end) ∧
  (∀ cfg verifyPassword now url pa pr profile req st,
     let st1 := (AuthService.validateOAuthLogin cfg now profile st).1 in
     let st2 := (completeGoogleLogin (authServiceAt cfg verifyPassword now)
                   url pa pr profile req st).1 in
     users st2 = users st1 ∧
     linkedCount (AuthService.profileKey profile) st2
     = Nat.max 1 (linkedCount (AuthService.profileKey profile) st)) ∧
  (linkedCount (AuthService.profileKey Sample.googleProfile)
     (Sample.stateOf Sample.alice) = O ∧
   linkedCount (AuthService.profileKey Sample.googleProfile)
     (completeGoogleLogin (Sample.duplicatingService 1000) None "ga" "gr"
        Sample.googleProfile (mkRequest None None None None None)
        (Sample.stateOf Sample.alice)).1 = 2%nat).
Proof.
  split; [|split].
  - intros S authService url pa pr profile req st.
    unfold completeGoogleLogin, GoogleStrategy.validate,
      AuthController.googleAuthRedirect. cbn [user ip userAgent].
    destruct (apiValidateOAuthLogin authService profile None None st)
      as [st1 [e|tp]]; [done|].
    by destruct (apiValidateOAuthLogin authService profile _ _ st1)
      as [st2 [e|tp']].
  - intros cfg verifyPassword now url pa pr profile req st st1 st2.
    destruct (oauth_idempotent cfg now now profile st) as [H1 H2].
    assert (st2 = (AuthService.validateOAuthLogin cfg now profile st1).1) as ->.
    { unfold st2, st1, completeGoogleLogin, GoogleStrategy.validate,
        AuthController.googleAuthRedirect.
      cbn [user ip userAgent apiValidateOAuthLogin authServiceAt].
      destruct (oauth_resolves cfg now profile st) as [tp Htp].
      destruct (AuthService.validateOAuthLogin cfg now profile st)
        as [sa ra]. cbn [snd fst] in *. subst ra.
      destruct (oauth_resolves cfg now profile sa) as [tp' Htp'].
      destruct (AuthService.validateOAuthLogin cfg now profile sa)
        as [sb rb]. cbn [snd fst] in *. by subst rb. }
    done.
  - split; vm_compute; reflexivity.
Qed.

(** * Further properties of the code *)

(** ** File upload *)

Lemma replaceRuns_clean b s : Utf16.clean (AwsS3Service.replaceRuns b s).
Proof.
  revert b. induction s as [|c s IH]; intros b; cbn; [constructor|].
  destruct (Utf16.isWhitespace c) eqn:Hc.
  - destruct b; [apply IH|]. constructor; [reflexivity|apply IH].
  - constructor; [exact Hc|apply IH].
Qed.

Lemma replaceRuns_of_clean b s :
  Utf16.clean s → AwsS3Service.replaceRuns b s = s.
Proof.
  intros H. revert b. induction H as [|c s Hc _ IH]; intros b; cbn; [done|].
  by rewrite Hc, IH.
Qed.

Lemma replaceRuns_length b s :
  (length (AwsS3Service.replaceRuns b s) ≤ length s)%nat.
Proof.
  revert b. induction s as [|c s IH]; intros b; cbn; [lia|].
  pose proof (IH true). pose proof (IH false).
  destruct (Utf16.isWhitespace c); [destruct b|]; cbn; lia.
Qed.

Lemma replaceRuns_all_whitespace s :
  Forall (fun c => Utf16.isWhitespace c = true) s →
  AwsS3Service.replaceRuns true s = [].
Proof. induction 1 as [|c s Hc _ IH]; cbn; [done|]. by rewrite Hc. Qed.

Lemma replaceRuns_skip s t :
  Forall (fun c => Utf16.isWhitespace c = true) s →
  AwsS3Service.replaceRuns true (s ++ t) = AwsS3Service.replaceRuns true t.
Proof. induction 1 as [|c s Hc _ IH]; cbn; [done|]. by rewrite Hc. Qed.

Lemma replaceRuns_words b a ws t :
  Utf16.clean a → ws ≠ [] →
  Forall (fun c => Utf16.isWhitespace c = true) ws →
  Utf16.clean t →
  AwsS3Service.replaceRuns b (a ++ ws ++ t)
  = a ++ (if b && bool_decide (a = []) then [] else [95%N]) ++ t.
Proof.
  intros Ha Hne Hws Ht. revert b.
  induction Ha as [|c a Hc _ IH]; intros b.
  - destruct ws as [|w ws]; [done|]. inversion Hws as [|? ? Hw Hws']; subst.
    cbn. rewrite Hw, replaceRuns_skip, replaceRuns_of_clean by done.
    by destruct b.
  - cbn. rewrite Hc, IH. cbn. by rewrite andb_false_r.
Qed.

(** X1. The file name that goes into the object key holds no whitespace,
    is never longer than the original, is the original when that holds no
    whitespace, is not changed by sanitising it again, and is not empty
    unless the original is; a name of whitespace only becomes one
    underscore, and two parts without whitespace, however much whitespace
    separates them, are joined by one underscore. *)
Theorem sanitizedFilename_properties name :
  Utf16.clean (AwsS3Service.sanitizedFilename name) ∧
  (length (AwsS3Service.sanitizedFilename name) ≤ length name)%nat ∧
  (Utf16.clean name → AwsS3Service.sanitizedFilename name = name) ∧
  AwsS3Service.sanitizedFilename (AwsS3Service.sanitizedFilename name)
  = AwsS3Service.sanitizedFilename name ∧
  (name ≠ [] → AwsS3Service.sanitizedFilename name ≠ []) ∧
  (name ≠ [] → Forall (fun c => Utf16.isWhitespace c = true) name →
   AwsS3Service.sanitizedFilename name = [95%N]) ∧
  (∀ a ws t,
     name = a ++ ws ++ t → Utf16.clean a → Utf16.clean t → ws ≠ [] →
     Forall (fun c => Utf16.isWhitespace c = true) ws →
     AwsS3Service.sanitizedFilename name = a ++ 95%N :: t).
Proof.
  unfold AwsS3Service.sanitizedFilename. split_and!.
  - apply replaceRuns_clean.
  - apply replaceRuns_length.
  - apply replaceRuns_of_clean.
  - apply replaceRuns_of_clean, replaceRuns_clean.
  - destruct name as [|c s]; [done|]. intros _. cbn.
    by destruct (Utf16.isWhitespace c).
  - destruct name as [|c s]; [done|]. intros _ H.
    inversion H as [|? ? Hc Hs]; subst. cbn. rewrite Hc.
    by rewrite replaceRuns_all_whitespace.
  - intros a ws t -> Ha Ht Hne Hws.
    by rewrite (replaceRuns_words false a ws t Ha Hne Hws Ht).
Qed.

Lemma sanitizedFilename_properties_witness :
  AwsS3Service.sanitizedFilename (Utf16.ofAscii "a b")
  = Utf16.ofAscii "a_b" ∧
  AwsS3Service.sanitizedFilename (Utf16.ofAscii "report.pdf")
  = Utf16.ofAscii "report.pdf".
Proof.
  split.
  - apply (proj2 (proj2 (proj2 (proj2 (proj2 (proj2
             (sanitizedFilename_properties (Utf16.ofAscii "a b")))))))
             (Utf16.ofAscii "a") (Utf16.ofAscii " ") (Utf16.ofAscii "b"));
      first [reflexivity | discriminate | repeat constructor].
  - apply (proj1 (proj2 (proj2
             (sanitizedFilename_properties (Utf16.ofAscii "report.pdf")))));
      repeat constructor.
Defined.

Lemma clean_app s t : Utf16.clean s → Utf16.clean t → Utf16.clean (s ++ t).
Proof. apply Forall_app_2. Qed.

Section UploadFacts.
Variable S3 : Type.
Variable send : AwsS3Service.PutObjectCommand → S3 → S3 * option string.
Variable region : option (list N).
Variable bucket : option (list N).

Local Abbreviation uploadFile :=
  (AwsS3Service.uploadFile S3 send region bucket).
Local Abbreviation upload := (MediaController.upload S3 send region bucket).

(** X2. When [uploadFile] resolves, the URL it returns is the path-style
    address [https://s3.<region>.amazonaws.com/<bucket>/<key>] of the key
    under which the object was sent to S3, the key is the uuid, a dash and
    the sanitised name, and the URL holds no whitespace as long as the
    uuid, the region and the bucket name hold none. *)
Theorem uploaded_url uuid file w w' url :
  Utf16.clean uuid →
  Utf16.clean (Utf16.interpolate region) →
  Utf16.clean (Utf16.interpolate bucket) →
  uploadFile uuid file w = (w', inr url) →
  Utf16.clean url ∧
  ∃ f, file = Some f ∧
       url = Utf16.ofAscii "https://s3." ++ Utf16.interpolate region
             ++ Utf16.ofAscii ".amazonaws.com/" ++ Utf16.interpolate bucket
             ++ Utf16.ofAscii "/" ++ uuid ++ Utf16.ofAscii "-"
             ++ AwsS3Service.sanitizedFilename
                  (AwsS3Service.originalname f) ∧
       send (AwsS3Service.mkPut bucket
               (uuid ++ Utf16.ofAscii "-"
                ++ AwsS3Service.sanitizedFilename
                     (AwsS3Service.originalname f))
               (AwsS3Service.buffer f) (AwsS3Service.mimetype f)) w.1
       = (w'.1, None).
Proof.
  intros Hu Hr Hb. unfold AwsS3Service.uploadFile.
  destruct file as [f|]; [|done].
  fold (AwsS3Service.objectKey uuid f).
  destruct (send _ w.1) as [s3' [err|]] eqn:Hs; [done|].
  intros [= <- <-]. split.
  - unfold AwsS3Service.objectUrl, AwsS3Service.objectKey.
    repeat apply clean_app; try done; try (by repeat constructor).
    apply replaceRuns_clean.
  - exists f. split; [done|]. split; [done|]. exact Hs.
Qed.

(** X3. [upload] answers with the original name and type of the file and
    the URL [uploadFile] returned.  Without a file it rejects with a
    [TypeError] before anything is logged or sent; when S3 refuses the
    object the refusal is surfaced and no completion is logged. *)
Theorem upload_outcomes uuid file w :
  match upload uuid file w with
  | (w', inr response) =>
      ∃ f, file = Some f ∧
           uploadFile uuid file w
           = (w', inr (MediaController.responseUrl response)) ∧
           MediaController.responseName response
           = AwsS3Service.originalname f ∧
           MediaController.responseType response = AwsS3Service.mimetype f ∧
           w'.2 = w.2 ++ [AwsS3Service.Uploading (AwsS3Service.originalname f)
                            (AwsS3Service.mimetype f) (AwsS3Service.size f);
                          AwsS3Service.UploadComplete
                            (MediaController.responseUrl response)]
  | (w', inl (AwsS3Service.TypeError _)) => file = None ∧ w' = w
  | (w', inl (AwsS3Service.S3Error err)) =>
      ∃ f cmd, file = Some f ∧ send cmd w.1 = (w'.1, Some err) ∧
               AwsS3Service.putBody cmd = AwsS3Service.buffer f ∧
               w'.2 = w.2 ++ [AwsS3Service.Uploading
                                (AwsS3Service.originalname f)
                                (AwsS3Service.mimetype f)
                                (AwsS3Service.size f)]
  end.
Proof.
  unfold MediaController.upload, AwsS3Service.uploadFile.
  destruct file as [f|]; [|done].
  destruct (send _ w.1) as [s3' [err|]] eqn:Hs.
  - eexists f, _. split; [done|]. split; [exact Hs|]. done.
  - exists f. cbn. by rewrite <- app_assoc.
Qed.

End UploadFacts.

Lemma uploaded_url_witness :
  ∃ w',
    AwsS3Service.uploadFile (list AwsS3Service.PutObjectCommand)
      Doubles.recordingSend (Some (Utf16.ofAscii "eu-west-1"))
      (Some (Utf16.ofAscii "media.bucket")) (Utf16.ofAscii "6f1c")
      (Some Doubles.report) ([], [])
    = (w', inr (Utf16.ofAscii
         "https://s3.eu-west-1.amazonaws.com/media.bucket/6f1c-Q3_report_final.pdf"))
    ∧ Utf16.clean (Utf16.ofAscii
         "https://s3.eu-west-1.amazonaws.com/media.bucket/6f1c-Q3_report_final.pdf").
Proof.
  eexists. split; [reflexivity|].
  refine (proj1 (uploaded_url (list AwsS3Service.PutObjectCommand)
                   Doubles.recordingSend (Some (Utf16.ofAscii "eu-west-1"))
                   (Some (Utf16.ofAscii "media.bucket")) (Utf16.ofAscii "6f1c")
                   (Some Doubles.report) ([], []) _ _ _ _ _ eq_refl));
    repeat constructor.
Defined.

(** ** More on the session gate *)

Lemma replace_unfold pat rep s :
  Js.replace pat rep s
  = if String.prefix pat s
    then rep +:+ Js.dropChars (String.length pat) s
    else match s with
         | EmptyString => EmptyString
         | String c s' => String c (Js.replace pat rep s')
         end.
Proof. by destruct s. Qed.

Lemma replace_absent pat rep s :
  (∀ k, String.prefix pat (Js.dropChars k s) = false) →
  Js.replace pat rep s = s.
Proof.
  induction s as [|c s IH]; intros H; rewrite replace_unfold;
    pose proof (H O) as H0; cbn [Js.dropChars] in H0; rewrite H0; [done|].
  f_equal. apply IH. intros k. apply (H (S k)).
Qed.

Lemma span_all (s : string) :
  forallb (fun c => negb (ExtractJwt.isWhitespace c))
          (String.list_ascii_of_string s) = true →
  ExtractJwt.span (fun c => negb (ExtractJwt.isWhitespace c)) s
  = (s, EmptyString).
Proof.
  induction s as [|c s IH]; [done|].
  cbn [String.list_ascii_of_string forallb ExtractJwt.span].
  intros [Hc Hs]%andb_true_iff. by rewrite Hc, (IH Hs).
Qed.

Lemma span_none (s : string) :
  forallb (fun c => negb (ExtractJwt.isWhitespace c))
          (String.list_ascii_of_string s) = true →
  ExtractJwt.span ExtractJwt.isWhitespace s = (EmptyString, s).
Proof.
  destruct s as [|c s]; [done|].
  cbn [String.list_ascii_of_string forallb ExtractJwt.span].
  intros [Hc Hs]%andb_true_iff. apply negb_true_iff in Hc. by rewrite Hc.
Qed.

Lemma prefix_bearer_needs_space s :
  forallb (fun c => negb (ExtractJwt.isWhitespace c))
          (String.list_ascii_of_string s) = true →
  String.prefix "Bearer " s = false.
Proof.
  intros H.
  do 7 (destruct s as [|? s]; [done|]; cbn [String.prefix];
        destruct (Ascii.ascii_dec _ _) as [<-|]; [|done]).
  done.
Qed.

Lemma compact_dropChars k s :
  forallb (fun c => negb (ExtractJwt.isWhitespace c))
          (String.list_ascii_of_string s) = true →
  forallb (fun c => negb (ExtractJwt.isWhitespace c))
          (String.list_ascii_of_string (Js.dropChars k s)) = true.
Proof.
  revert s. induction k as [|k IH]; intros s H; [done|].
  destruct s as [|c s]; [done|]. cbn [Js.dropChars]. apply IH.
  cbn in H. by apply andb_true_iff in H as [_ H].
Qed.

(** Every token, sent with the scheme in lower case, is the one the
    extractor hands to the verification, while the gate looks the whole
    header value up. *)
Lemma lowercase_scheme_is_extracted t :
  ExtractJwt.compact t = true →
  JwtStrategy.jwtFromRequest (Sample.headerRequest ("bearer " +:+ t)) = Some t ∧
  JwtStrategy.requestToken (Sample.headerRequest ("bearer " +:+ t))
  = Some ("bearer " +:+ t).
Proof.
  unfold ExtractJwt.compact. intros [Hne Hc]%andb_true_iff. split.
  - unfold JwtStrategy.jwtFromRequest, Sample.headerRequest.
    cbn [ExtractJwt.fromExtractors cookies mbind option_bind Js.truthy].
    unfold ExtractJwt.fromAuthHeaderAsBearerToken. cbn [authorization].
    unfold ExtractJwt.parse. cbv [String.append].
    repeat (cbn [ExtractJwt.span negb];
            match goal with
            | |- context [ExtractJwt.isWhitespace
                            (Ascii.Ascii ?a ?b ?c ?d ?e ?f ?g ?h)] =>
                let v := eval vm_compute in
                  (ExtractJwt.isWhitespace (Ascii.Ascii a b c d e f g h)) in
                change (ExtractJwt.isWhitespace (Ascii.Ascii a b c d e f g h))
                  with v
            end).
    cbn [negb]. rewrite (span_none t Hc), (span_all t Hc).
    cbn [ExtractJwt.span negb]. rewrite Hne.
    unfold Js.truthy at 2 3. cbn. destruct t as [|c t]; [done|]. reflexivity.
  - unfold JwtStrategy.requestToken, Sample.headerRequest, Js.or.
    cbn [cookies authorization mbind option_bind Js.truthy fmap option_fmap
         option_map].
    f_equal. apply replace_absent. intros k. cbv [String.append].
    do 7 (destruct k as [|k]; [reflexivity|]).
    cbn [Js.dropChars]. apply prefix_bearer_needs_space.
    by apply compact_dropChars.
Qed.

Lemma validate_revoked_iff st now req payload :
  JwtStrategy.validate st now req payload = inl TokenRevoked ↔
  JwtStrategy.revoked st req = true.
Proof.
  rewrite validate_inl. split.
  - intros [[_ H]|(_ & [([=] & _)|(u & _ & [([=] & _)|([=] & _)])])]. done.
  - auto.
Qed.

(** X4. When the request has no access-token cookie and its
    [Authorization] header does not contain [Bearer ] (a scheme spelled
    otherwise, or none), the gate asks the registry about the whole header
    value: the request is rejected as revoked exactly when that value
    itself is a registry entry. *)
Theorem header_without_scheme_is_looked_up_whole st now req payload h :
  Js.truthy (c ← cookies req; accessTokenCookie c) = false →
  authorization req = Some h →
  h ≠ "" →
  (∀ k, String.prefix "Bearer " (Js.dropChars k h) = false) →
  JwtStrategy.requestToken req = Some h ∧
  (JwtStrategy.validate st now req payload = inl TokenRevoked ↔
   is_Some (blacklist st !! h)).
Proof.
  intros Hc Ha Hne Habs.
  assert (JwtStrategy.requestToken req = Some h) as Ht.
  { unfold JwtStrategy.requestToken, Js.or. rewrite Hc, Ha.
    cbn [fmap option_fmap option_map]. by rewrite replace_absent. }
  split; [exact Ht|].
  rewrite validate_revoked_iff. unfold JwtStrategy.revoked. rewrite Ht.
  rewrite (truthy_Some _ Hne). cbn. unfold isTokenBlacklisted.
  apply bool_decide_eq_true.
Qed.

Lemma header_without_scheme_is_looked_up_whole_witness :
  JwtStrategy.validate
    (RevocationRegistry.revoke "tok" 900000 (Sample.stateOf Sample.alice))
    1000 (mkRequest None (Some "bearer tok") None None None)
    (Sample.payloadAt 0)
  ≠ inl TokenRevoked.
Proof.
  intros H.
  apply (header_without_scheme_is_looked_up_whole
           (RevocationRegistry.revoke "tok" 900000
              (Sample.stateOf Sample.alice))
           1000 (mkRequest None (Some "bearer tok") None None None)
           (Sample.payloadAt 0) "bearer tok" eq_refl eq_refl) in H.
  - vm_compute in H. destruct H as [x H]. discriminate.
  - discriminate.
  - intros k. do 11 (destruct k as [|k]; [reflexivity|]). reflexivity.
Defined.

(** X5. A non-empty access-token cookie takes precedence: the gate's
    answer does not depend on the [Authorization] header, nor on anything
    else of the request. *)
Theorem cookie_takes_precedence st now req req' payload token :
  token ≠ "" →
  (c ← cookies req; accessTokenCookie c) = Some token →
  (c ← cookies req'; accessTokenCookie c) = Some token →
  JwtStrategy.validate st now req payload
  = JwtStrategy.validate st now req' payload.
Proof.
  intros Hne H1 H2.
  unfold JwtStrategy.validate, JwtStrategy.revoked, JwtStrategy.requestToken,
    Js.or.
  by rewrite H1, H2, (truthy_Some _ Hne).
Qed.

Lemma cookie_takes_precedence_witness :
  JwtStrategy.validate (Sample.stateOf Sample.alice) 1000
    (Sample.cookieRequest "tok") (Sample.payloadAt 0)
  = JwtStrategy.validate (Sample.stateOf Sample.alice) 1000
      (mkRequest (Some (mkCookies (Some "tok") (Some "r")))
                 (Some "Bearer other") None (Some "10.0.0.1") None)
      (Sample.payloadAt 0).
Proof.
  apply (cookie_takes_precedence _ _ _ _ _ "tok"); [discriminate|done|done].
Defined.

(** X6. Time only unlocks: with the stores unchanged, a request the gate
    admits at one instant is admitted at every later instant, and a
    rejection other than [AccountLocked] does not depend on the instant. *)
Theorem gate_and_time st now later req payload :
  now ≤ later →
  (∀ p, JwtStrategy.validate st now req payload = inr p →
        JwtStrategy.validate st later req payload = inr p) ∧
  (∀ r, r ≠ AccountLocked →
        (JwtStrategy.validate st now req payload = inl r ↔
         JwtStrategy.validate st later req payload = inl r)).
Proof.
  intros Hle.
  assert (∀ u, JwtStrategy.locked now u = false →
               JwtStrategy.locked later u = false) as Hmono.
  { intros u. unfold JwtStrategy.locked.
    destruct (lockoutUntil u) as [t|]; [|done].
    rewrite !Z.ltb_ge. lia. }
  unfold JwtStrategy.validate.
  destruct (JwtStrategy.revoked st req); [split; [done|] |].
  { intros r _. done. }
  destruct (findById st (sub payload)) as [u|]; [|by split].
  destruct (JwtStrategy.stale u payload); [by split|].
  destruct (JwtStrategy.locked now u) eqn:H1.
  - split; [done|]. intros r Hr.
    destruct (JwtStrategy.locked later u); split; intros [=]; congruence.
  - rewrite (Hmono u H1). by split.
Qed.

Lemma gate_and_time_witness :
  JwtStrategy.validate (Sample.stateOf Sample.alice) 2000
    (Sample.cookieRequest "tok") (Sample.payloadAt 0)
  = inr (JwtStrategy.principalOf (Sample.payloadAt 0)).
Proof.
  apply (proj1 (gate_and_time (Sample.stateOf Sample.alice) 1000 2000
                  (Sample.cookieRequest "tok") (Sample.payloadAt 0)
                  ltac:(discriminate))).
  reflexivity.
Defined.

(** X7. Revoking more never admits more: if every entry of one registry
    is in another and the identities are the same, whatever the gate
    admits under the larger registry it admits under the smaller. *)
Theorem gate_and_registry st st' now req payload p :
  users st = users st' →
  (∀ t, is_Some (blacklist st !! t) → is_Some (blacklist st' !! t)) →
  JwtStrategy.validate st' now req payload = inr p →
  JwtStrategy.validate st now req payload = inr p.
Proof.
  intros Hu Hb. rewrite !validate_inr. unfold findById. rewrite Hu.
  intros (Hp & Hr & Hrest). split; [done|]. split; [|done].
  unfold JwtStrategy.revoked in *.
  destruct (Js.truthy (JwtStrategy.requestToken req)); [|done].
  destruct (JwtStrategy.requestToken req) as [t|]; [|done]. cbn in *.
  unfold isTokenBlacklisted in *.
  apply bool_decide_eq_false in Hr. apply bool_decide_eq_false.
  intros H. apply Hr, Hb, H.
Qed.

Lemma gate_and_registry_witness :
  JwtStrategy.validate (Sample.stateOf Sample.alice) 1000
    (Sample.cookieRequest "tok") (Sample.payloadAt 0)
  = inr (JwtStrategy.principalOf (Sample.payloadAt 0)).
Proof.
  apply (gate_and_registry (Sample.stateOf Sample.alice)
           (RevocationRegistry.revoke "other" 5 (Sample.stateOf Sample.alice))
           1000 (Sample.cookieRequest "tok") (Sample.payloadAt 0)).
  - reflexivity.
  - intros t [x Hx]. cbn in Hx. by rewrite lookup_empty in Hx.
  - vm_compute. reflexivity.
Defined.

(** ** More on the HTTP boundary *)

Section BoundaryFacts.
Context {S : Type}.
Variable authService : AuthServiceApi S.
Variable signupService : AuthServiceSignupApi S.
Variable frontendUrl : option string.

(** X8. [POST auth/refresh] never hands a refresh token back: without a
    non-empty [refreshToken] cookie it rejects with [BadRequest] and does
    not call the service; when the service resolves, the only cookie set
    is [accessToken], with the access token of the pair, and the refresh
    token of the pair is dropped. *)
Theorem refresh_sets_access_cookie_only req st :
  (Js.truthy (c ← cookies req; refreshTokenCookie c) = false →
   AuthController.refreshToken authService req st
   = (st, inl (BadRequest "Refresh token not found"))) ∧
  (∀ st' effects,
     AuthController.refreshToken authService req st = (st', inr effects) →
     existsb (setsCookie "refreshToken") effects = false ∧
     ∃ t tp,
       (c ← cookies req; refreshTokenCookie c) = Some t ∧ t ≠ "" ∧
       apiRefreshAccessToken authService t (ip req) (userAgent req) st
       = (st', inr tp) ∧
       effects = [SetCookie "accessToken" (Some (pairAccessToken tp)) 900000;
                  Json SuccessBody]).
Proof.
  unfold AuthController.refreshToken.
  destruct (c ← cookies req; refreshTokenCookie c) as [t|] eqn:Hc;
    [|split; [done|]; intros ?? [=]].
  destruct (Js.truthy (Some t)) eqn:Ht.
  - split; [done|]. intros st' effects.
    destruct (apiRefreshAccessToken authService t _ _ st) as [st1 [e|tp]]
      eqn:Hr; [done|].
    intros [= <- <-]. split; [reflexivity|]. exists t, tp.
    split; [done|]. split; [|split; [first [exact Hr | reflexivity]|reflexivity]].
    intros ->. discriminate.
  - split; [done|]. intros ?? [=].
Qed.

(** X9. [POST auth/login] sets the token cookies exactly when the
    service's result does not ask for the second factor and has an
    [accessToken]; when it asks for the second factor the answer is the
    temporary token alone, also when the result holds tokens; a result
    with neither is answered with a bare success. *)
Theorem login_cookie_condition loginDto req st st' effects :
  AuthController.login authService loginDto req st = (st', inr effects) →
  ∃ result,
    apiLogin authService (loginEmail loginDto) (loginPassword loginDto)
      (ip req) (userAgent req) st = (st', inr result) ∧
    existsb (setsCookie "accessToken") effects
    = negb (default false (requires2FA result))
      && bool_decide (is_Some (accessToken result)) ∧
    existsb (setsCookie "refreshToken") effects
    = existsb (setsCookie "accessToken") effects ∧
    (default false (requires2FA result) = true →
     effects = [Json (Requires2FABody (tempToken result))]) ∧
    (default false (requires2FA result) = false →
     accessToken result = None → effects = [Json SuccessBody]).
Proof.
  unfold AuthController.login.
  destruct (apiLogin authService _ _ _ _ st) as [st1 [e|result]] eqn:Hl;
    [done|].
  destruct (default false (requires2FA result)) eqn:H2.
  - intros [= <- <-]. exists result. split; [first [exact Hl | reflexivity]|]. by rewrite H2.
  - intros [= <- <-]. exists result. split; [first [exact Hl | reflexivity]|]. rewrite H2.
    destruct (accessToken result) as [a|]; cbn; split_and!; try done.
Qed.

(** X10. A rejection of the service is the handler's rejection: it is
    surfaced unchanged, with the state the service left, and no cookie is
    set or cleared and nothing is sent. *)
Theorem service_rejection_is_surfaced req st st' e :
  (∀ loginDto,
     apiLogin authService (loginEmail loginDto) (loginPassword loginDto)
       (ip req) (userAgent req) st = (st', inl e) →
     AuthController.login authService loginDto req st = (st', inl e)) ∧
  (∀ t, (c ← cookies req; refreshTokenCookie c) = Some t → t ≠ "" →
     apiRefreshAccessToken authService t (ip req) (userAgent req) st
     = (st', inl e) →
     AuthController.refreshToken authService req st = (st', inl e)) ∧
  (∀ principal,
     user req = Some (JwtUser principal) →
     Js.truthy (c ← cookies req; accessTokenCookie c)
     || Js.truthy (c ← cookies req; refreshTokenCookie c) = true →
     apiLogout authService (c ← cookies req; accessTokenCookie c)
       (c ← cookies req; refreshTokenCookie c) (principalSub principal) st
     = (st', inl e) →
     AuthController.logout authService req st = (st', inl e)) ∧
  (∀ profile,
     user req = Some (OAuthUser profile) →
     apiValidateOAuthLogin authService profile (ip req) (userAgent req) st
     = (st', inl e) →
     AuthController.googleAuthRedirect authService frontendUrl req st
     = (st', inl e)) ∧
  (∀ signupDto,
     apiSignup signupService (signupEmail signupDto)
       (signupPassword signupDto) (signupName signupDto) (ip req)
       (userAgent req) st = (st', inl e) →
     AuthControllerSignup.signup signupService signupDto req st
     = (st', inl e)) ∧
  (∀ dto,
     apiVerify2FA signupService (verifyEmail dto) (verifyToken dto) (ip req)
       (userAgent req) st = (st', inl e) →
     AuthControllerSignup.verify2FA signupService dto req st = (st', inl e)).
Proof.
  split_and!.
  - intros dto H. unfold AuthController.login. by rewrite H.
  - intros t Hc Hne H. unfold AuthController.refreshToken.
    by rewrite Hc, (truthy_Some _ Hne), H.
  - intros principal Hu Ht H. unfold AuthController.logout.
    by rewrite Hu, Ht, H.
  - intros profile Hu H. unfold AuthController.googleAuthRedirect.
    by rewrite Hu, H.
  - intros dto H. unfold AuthControllerSignup.signup. by rewrite H.
  - intros dto H. unfold AuthControllerSignup.verify2FA. by rewrite H.
Qed.

Ltac cookies :=
  repeat (apply Forall_cons_2;
          [cbn; first [exact I
                      | left; split; reflexivity
                      | right; split; reflexivity] |]);
  apply Forall_nil_2.

(** X11. Whatever the service answers, a handler sets no cookie other
    than [accessToken] for 15 minutes and [refreshToken] for 30 days. *)
Theorem only_token_cookies_are_set req st st' effects :
  ((∃ loginDto,
      AuthController.login authService loginDto req st = (st', inr effects)) ∨
   AuthController.refreshToken authService req st = (st', inr effects) ∨
   AuthController.logout authService req st = (st', inr effects) ∨
   AuthController.googleAuthRedirect authService frontendUrl req st
   = (st', inr effects) ∨
   (∃ signupDto required,
      AuthControllerSignup.signup signupService signupDto req st
      = (st', inr (effects, required))) ∨
   (∃ dto,
      AuthControllerSignup.verify2FA signupService dto req st
      = (st', inr effects))) →
  Forall tokenCookie effects.
Proof.
  intros [[dto H]|[H|[H|[H|[(dto & required & H)|[dto H]]]]]].
  - unfold AuthController.login in H.
    destruct (apiLogin authService _ _ _ _ st) as [st1 [e|result]]; [done|].
    destruct (default false (requires2FA result)).
    + injection H as _ <-. cookies.
    + injection H as _ <-.
      case_bool_decide; cookies.
  - unfold AuthController.refreshToken in H.
    destruct (c ← cookies req; refreshTokenCookie c) as [t|]; [|done].
    destruct (Js.truthy (Some t)); [|done].
    destruct (apiRefreshAccessToken authService t _ _ st) as [st1 [e|tp]];
      [done|].
    injection H as _ <-. cookies.
  - unfold AuthController.logout in H.
    destruct (user req) as [[principal|]|]; try done.
    destruct (_ || _).
    + destruct (apiLogout authService _ _ _ st) as [st1 [e|[]]]; [done|].
      injection H as _ <-. cookies.
    + injection H as _ <-. cookies.
  - unfold AuthController.googleAuthRedirect in H.
    destruct (user req) as [[|profile]|]; try done.
    destruct (apiValidateOAuthLogin authService _ _ _ st) as [st1 [e|tp]];
      [done|].
    injection H as _ <-. cookies.
  - unfold AuthControllerSignup.signup in H.
    destruct (apiSignup signupService _ _ _ _ _ st) as [st1 [e|result]];
      [done|].
    injection H as _ <- _. cookies.
  - unfold AuthControllerSignup.verify2FA in H.
    destruct (apiVerify2FA signupService _ _ _ _ st) as [st1 [e|tp]]; [done|].
    injection H as _ <-. cookies.
Qed.

End BoundaryFacts.

Lemma login_cookie_condition_witness :
  ∃ st' effects,
    AuthController.login (authServiceAt Sample.cfg Sample.verifyPlain 1000)
      (mkLoginDto "b@x.com" "p2") (mkRequest None None None None None)
      (Sample.stateOf Sample.bob) = (st', inr effects) ∧
    existsb (setsCookie "accessToken") effects = false.
Proof.
  destruct (AuthController.login
              (authServiceAt Sample.cfg Sample.verifyPlain 1000)
              (mkLoginDto "b@x.com" "p2") (mkRequest None None None None None)
              (Sample.stateOf Sample.bob)) as [st' [e|effects]] eqn:H.
  { vm_compute in H. discriminate. }
  exists st', effects. split; [reflexivity|].
  destruct (login_cookie_condition _ _ _ _ _ _ H)
    as (result & Hr & Ha & _ & _ & _).
  rewrite Ha. vm_compute in Hr. by injection Hr as _ <-.
Defined.

Lemma only_token_cookies_are_set_witness :
  ∃ st' effects,
    AuthController.login (authServiceAt Sample.cfg Sample.verifyPlain 1000)
      (mkLoginDto "a@x.com" "p1") (mkRequest None None None None None)
      (Sample.stateOf Sample.alice) = (st', inr effects) ∧
    Forall tokenCookie effects.
Proof.
  destruct (AuthController.login
              (authServiceAt Sample.cfg Sample.verifyPlain 1000)
              (mkLoginDto "a@x.com" "p1") (mkRequest None None None None None)
              (Sample.stateOf Sample.alice)) as [st' [e|effects]] eqn:H.
  { vm_compute in H. discriminate. }
  exists st', effects. split; [reflexivity|].
  apply (only_token_cookies_are_set
           (authServiceAt Sample.cfg Sample.verifyPlain 1000)
           (mkSignupApi AuthState
              (fun _ _ _ _ _ st => (st, inl DuplicateIdentity))
              (fun _ _ _ _ st => (st, inl InvalidTwoFactorCode)))
           None (mkRequest None None None None None)
           (Sample.stateOf Sample.alice) st' effects).
  left. by exists (mkLoginDto "a@x.com" "p1").
Defined.

(** ** More on the projects *)




Section ProjectsMore.
Import ProjectsService.

Local Set Default Proof Using "Type".

Context {T : Type}.
Variable toObjectId : string → option string.
Variable rejects : gmap string Project → Project → option Exception.
Variable createFromProject :
  string → string → string → list string → T → T * (Exception + Team).
Variable updateProjectTeamMembers :
  string → list string → T → T * (Exception + unit).
Variable deleteByProjectId : string → T → T * (Exception + unit).

Local Abbreviation create :=
  (ProjectsService.create T toObjectId rejects createFromProject).
Local Abbreviation update :=
  (ProjectsService.update T toObjectId rejects updateProjectTeamMembers).
Local Abbreviation delete :=
  (ProjectsService.delete T toObjectId deleteByProjectId).
Local Abbreviation addMember :=
  (ProjectsService.addMember T toObjectId rejects updateProjectTeamMembers).
Local Abbreviation removeMember :=
  (ProjectsService.removeMember T toObjectId rejects updateProjectTeamMembers).

Ltac tidy := repeat match goal with f : _ |- _ => clear f end.

Ltac run :=
  unfold ProjectsService.create, ProjectsService.update,
    ProjectsService.addMember, ProjectsService.removeMember,
    ProjectsService.delete, requireUser, requireProject, requireCreator,
    findById, findByIdAndDelete, objectIds, newObjectId, save, saveNew,
    onTeams, consoleError, tryCatch, bind, ret, throw;
  cbn [fst snd projects teams worldUsers errorLog].

(** X12. [delete] by the creator removes the project, also when the team
    service throws (the failure is logged), and leaves every other
    project alone; afterwards [update], [addMember] and [removeMember] on
    the same id reject with [Project not found].  Anyone else is refused
    and nothing changes. *)
Theorem delete_outcomes i e w u k p :
  userByEmail T w e = Some u →
  toObjectId i = Some k →
  projects w !! k = Some p →
  (createdBy p = uid u →
   ∃ w',
     delete i e w = (w', inr tt) ∧
     projects w' !! k = None ∧
     (∀ j, j ≠ k → projects w' !! j = projects w !! j) ∧
     (∀ t' err, deleteByProjectId i (teams w) = (t', inl err) →
        errorLog w'
        = errorLog w ++ [("Failed to delete team for project:", err)]) ∧
     (∀ dto, update i dto e w'
        = (w', inl (NotFoundException "Project not found"))) ∧
     (∀ x, addMember i x e w'
        = (w', inl (NotFoundException "Project not found"))) ∧
     (∀ x, removeMember i x e w'
        = (w', inl (NotFoundException "Project not found")))) ∧
  (createdBy p ≠ uid u →
   delete i e w
   = (w, inl (ForbiddenException
                "Only the project creator can delete this project"))).
Proof.
  tidy. intros Hu Hk Hp. split.
  - intros Hc.
    assert (∃ w',
              delete i e w = (w', inr tt) ∧
              projects w' = base.delete k (projects w) ∧
              worldUsers w' = worldUsers w ∧
              ∀ t' err, deleteByProjectId i (teams w) = (t', inl err) →
                errorLog w'
                = errorLog w ++ [("Failed to delete team for project:", err)])
      as (w' & Hd & Hps & Hus & Hlog).
    { run. rewrite Hu, Hk, Hp. cbn. rewrite Hc, String.eqb_refl. cbn.
      destruct (deleteByProjectId i (teams w)) as [t' [err|[]]] eqn:Hd; cbn;
        eexists; (split; [reflexivity|]); cbn; split_and!; try done;
        by intros; simplify_eq. }
    exists w'. split; [exact Hd|]. rewrite Hps.
    split; [apply lookup_delete_eq|].
    split; [by intros j Hj; rewrite lookup_delete_ne|].
    split; [exact Hlog|].
    apply (project_not_found toObjectId rejects updateProjectTeamMembers
             i e w' u k).
    + unfold userByEmail in *. by rewrite Hus.
    + exact Hk.
    + rewrite Hps. apply lookup_delete_eq.
  - intros Hc. run. rewrite Hu, Hk, Hp. cbn.
    by destruct (String.eqb_spec (createdBy p) (uid u)).
Qed.




(** X16. A successful [update] was asked for by the creator, is saved
    under the project's id, and never changes the id, the creator or the
    team of the project; the member list, when one is given, is stored
    as object ids; a field the request leaves out keeps its value, and no
    other project is touched. *)
Theorem update_keeps_identity i dto e w w' p' :
  update i dto e w = (w', inr p') →
  ∃ u k p,
    userByEmail T w e = Some u ∧
    toObjectId i = Some k ∧
    projects w !! k = Some p ∧
    createdBy p = uid u ∧
    projectId p' = projectId p ∧
    createdBy p' = createdBy p ∧
    teamId p' = teamId p ∧
    (updateMembers dto = None → members p' = members p) ∧
    (∀ ids, updateMembers dto = Some ids →
            mapM toObjectId ids = Some (members p')) ∧
    projectName p' = default (projectName p) (updateName dto) ∧
    status p' = default (status p) (updateStatus dto) ∧
    progress p' = default (progress p) (updateProgress dto) ∧
    (updateDescription dto = None → description p' = description p) ∧
    (updateStartDate dto = None → startDate p' = startDate p) ∧
    (updateEndDate dto = None → endDate p' = endDate p) ∧
    rejects (projects w) p' = None ∧
    projects w' = <[projectId p := p']> (projects w).
Proof.
  tidy. run.
  destruct (userByEmail T w e) as [u|] eqn:Hu; [|done].
  destruct (toObjectId i) as [k|] eqn:Hk; [|done]. cbn.
  destruct (projects w !! k) as [p|] eqn:Hp; [|done]. cbn.
  destruct (String.eqb_spec (createdBy p) (uid u)) as [Hc|]; [|done]. cbn.
  destruct (updateMembers dto) as [ids|] eqn:Hids; cbn.
  - destruct (mapM toObjectId ids) as [ms|] eqn:Hms; [|done]. cbn.
    destruct (updateProjectTeamMembers i ids (teams w)) as [t' [err|[]]];
      cbn;
      destruct (rejects (projects w) (assignFields dto (withMembers ms p)))
        eqn:Hr; try done;
      intros [= <- <-]; exists u, k, p; cbn; split_and!; try done;
      try (by intros ->); by intros ? [= <-].
  - destruct (rejects (projects w) (assignFields dto p)) eqn:Hr; [done|].
    intros [= <- <-]. exists u, k, p. cbn. split_and!; try done;
      by intros ->.
Qed.



End ProjectsMore.

(** ** Reading a project *)

Section ProjectsReadFacts.
Import ProjectsService.
Context {T : Type}.
Variable toObjectId : string → option string.

Local Abbreviation findOne := (ProjectsReads.findOne T toObjectId).
Local Abbreviation userById := (ProjectsReads.userById T).

Lemma userById_uid (w : World T) i c : userById w i = Some c → uid c = i.
Proof using Type.
  clear toObjectId.
  unfold ProjectsReads.userById. intros H. apply find_some in H as [_ H].
  by apply String.eqb_eq.
Qed.

Lemma userById_of_email (w : World T) e u :
  userByEmail T w e = Some u → is_Some (userById w (uid u)).
Proof using Type.
  clear toObjectId.
  unfold userByEmail, ProjectsReads.userById. intros H.
  apply find_some in H as [Hin _].
  destruct (List.find _ (worldUsers w)) as [c|] eqn:Hf; [by eexists|].
  pose proof (find_none _ _ Hf u Hin) as Hn. cbn in Hn.
  by rewrite String.eqb_refl in Hn.
Qed.

Lemma member_check (w : World T) e u p :
  userByEmail T w e = Some u →
  existsb (fun member => String.eqb (uid member) (uid u))
          (ProjectsReads.populatedMembers T w p) = true
  ↔ uid u ∈ members p.
Proof using Type.
  clear toObjectId.
  intros Hu. unfold ProjectsReads.populatedMembers.
  rewrite existsb_exists. split.
  - intros (m & Hin & Heq). apply String.eqb_eq in Heq.
    apply list_elem_of_In, list_elem_of_omap in Hin as (x & Hx & Hm).
    apply userById_uid in Hm. congruence.
  - intros Hin. destruct (userById_of_email w e u Hu) as [c Hc].
    exists c. split.
    + apply list_elem_of_In, list_elem_of_omap. eauto.
    + apply String.eqb_eq. by apply userById_uid in Hc.
Qed.

(** X19. [findOne] hands a project out only to its creator and its
    members: for a caller who exists and a project that exists it
    resolves, with the project as stored, exactly when the creator's
    document still exists and the caller is the creator or one of the
    members; another caller is refused with [ForbiddenException], and a
    project whose creator is gone cannot be read by anyone. *)
Theorem findOne_access i e w u k p :
  userByEmail T w e = Some u →
  toObjectId i = Some k →
  projects w !! k = Some p →
  (∀ q, findOne i e w = inr q ↔
        q = p ∧ is_Some (userById w (createdBy p)) ∧
        (createdBy p = uid u ∨ uid u ∈ members p)) ∧
  (createdBy p = uid u → findOne i e w = inr p) ∧
  (is_Some (userById w (createdBy p)) →
   createdBy p ≠ uid u → uid u ∉ members p →
   findOne i e w
   = inl (ProjectsReads.Http
            (ForbiddenException "You do not have access to this project"))) ∧
  (userById w (createdBy p) = None →
   findOne i e w
   = inl (ProjectsReads.NullReference
            "Cannot read properties of null (reading '_id')")).
Proof.
  intros Hu Hk Hp.
  pose proof (member_check w e u p Hu) as Hm.
  unfold ProjectsReads.findOne. rewrite Hu, Hk, Hp.
  destruct (ProjectsReads.userById T w (createdBy p)) as [c|] eqn:Hc.
  - pose proof (userById_uid _ _ _ Hc) as Hcu.
    destruct (String.eqb_spec (uid c) (uid u)) as [Heq|Hne]; cbn.
    + split; [|split; [|split]].
      * intros q. split; [intros [= <-]|by intros (-> & _)].
        split; [done|]. split; [by eexists|]. left. congruence.
      * done.
      * intros _ Hn. congruence.
      * done.
    + destruct (existsb _ _) eqn:Hex.
      * pose proof (proj1 Hm eq_refl) as Hin. split; [|split; [|split]].
        -- intros q. split; [intros [= <-]|by intros (-> & _)].
           split; [done|]. split; [by eexists|]. by right.
        -- done.
        -- intros _ _ Hn. done.
        -- done.
      * assert (uid u ∉ members p) as Hnin.
        { intros H. apply Hm in H. discriminate. }
        split; [|split; [|split]].
        -- intros q. split; [done|]. intros (_ & _ & [H|H]); congruence.
        -- intros Heq. congruence.
        -- done.
        -- done.
  - split; [|split; [|split]].
    + intros q. split; [done|]. by intros (_ & [x Hx] & _).
    + intros Heq. destruct (userById_of_email w e u Hu) as [x Hx].
      rewrite Heq in Hc. unfold ProjectsReads.userById in *. congruence.
    + by intros [x Hx].
    + done.
Qed.

End ProjectsReadFacts.


(** ** Tasks *)

Lemma one_of_spec (s : string) (values : list string) :
  existsb (String.eqb s) values = true ↔ In s values.
Proof.
  rewrite existsb_exists. split.
  - intros (y & Hy & Heq). apply String.eqb_eq in Heq. by subst.
  - intros H. exists s. split; [done|]. apply String.eqb_refl.
Qed.

(** X20. Every label and every priority the request validation accepts
    can be stored by the schema, and an absent priority is stored as
    [medium]; for the status the two lists differ: [done] passes the
    validation and is refused by the schema, nothing else that passes is
    refused, an absent status is stored as [todo], and the schema's
    [review] and [completed] never pass the validation. *)
Theorem task_enums_of_dto_and_schema :
  (∀ v, Tasks.dtoAccepts Tasks.dtoLabels v = true →
        Tasks.schemaStores None Tasks.schemaLabels v = Some v) ∧
  (∀ v, Tasks.dtoAccepts Tasks.dtoPriorities v = true →
        Tasks.schemaStores (Some "medium") Tasks.schemaPriorities v
        = Some (Some (default "medium" v))) ∧
  (∀ v, Tasks.dtoAccepts Tasks.dtoStatuses v = true →
        (Tasks.schemaStores (Some "todo") Tasks.schemaStatuses v = None
         ↔ v = Some "done") ∧
        (v ≠ Some "done" →
         Tasks.schemaStores (Some "todo") Tasks.schemaStatuses v
         = Some (Some (default "todo" v)))) ∧
  (∀ s, Tasks.dtoAccepts Tasks.dtoStatuses (Some s) = false →
        is_Some (Tasks.schemaStores (Some "todo") Tasks.schemaStatuses
                   (Some s)) →
        s = "review" ∨ s = "completed").
Proof.
  split_and!.
  - intros [s|]; [|done]. cbn [Tasks.dtoAccepts]. rewrite one_of_spec.
    cbn. intros [<-|[<-|[<-|[<-|[]]]]]; reflexivity.
  - intros [s|]; [|done]. cbn [Tasks.dtoAccepts]. rewrite one_of_spec.
    cbn. intros [<-|[<-|[<-|[]]]]; reflexivity.
  - intros [s|]; [|by split]. cbn [Tasks.dtoAccepts]. rewrite one_of_spec.
    cbn. intros [<-|[<-|[<-|[]]]]; (split; [split|]); try done.
  - intros s Hd [x Hx]. unfold Tasks.schemaStores in Hx.
    destruct (existsb (String.eqb s) Tasks.schemaStatuses) eqn:Hs; [|done].
    apply one_of_spec in Hs. cbn in Hs.
    destruct Hs as [<-|[<-|[<-|[<-|[]]]]]; try done; auto.
Qed.

(** ** The projects of the sample world

    The ids of the requests are written in upper case where that makes a
    difference; the team service is down throughout. *)

Lemma delete_outcomes_witness :
  ∃ w',
    ProjectsService.delete unit Bson.toObjectId TeamsDown.deleteByProjectId
      "CCCCCCCCCCCCCCCCCCCCCC01" "ana@x.com"
      (Doubles.worldWith [Doubles.roadmap]) = (w', inr tt) ∧
    ProjectsService.projects w' !! "cccccccccccccccccccccc01" = None.
Proof.
  destruct (proj1 (delete_outcomes Bson.toObjectId Doubles.datesOnly
                     TeamsDown.updateProjectTeamMembers
                     TeamsDown.deleteByProjectId
                     "CCCCCCCCCCCCCCCCCCCCCC01" "ana@x.com"
                     (Doubles.worldWith [Doubles.roadmap])
                     Doubles.ana "cccccccccccccccccccccc01" Doubles.roadmap
                     eq_refl eq_refl ltac:(vm_compute; reflexivity)) eq_refl)
    as (w' & H1 & H2 & _).
  exists w'. split; [exact H1|exact H2].
Defined.




Lemma update_keeps_identity_witness :
  ∃ w' p',
    ProjectsService.update unit Bson.toObjectId Doubles.datesOnly
      TeamsDown.updateProjectTeamMembers "cccccccccccccccccccccc01"
      (ProjectsService.mkUpdateDto (Some "Roadmap 2") None None
         (Some ["EEEEEEEEEEEEEEEEEEEEEEE5"]) (Some 40) None None)
      "ana@x.com" (Doubles.worldWith [Doubles.roadmap]) = (w', inr p') ∧
    ProjectsService.createdBy p' = "aaaaaaaaaaaaaaaaaaaaaaa1" ∧
    ProjectsService.members p' = ["eeeeeeeeeeeeeeeeeeeeeee5"].
Proof.
  destruct (ProjectsService.update unit Bson.toObjectId Doubles.datesOnly
              TeamsDown.updateProjectTeamMembers "cccccccccccccccccccccc01"
              (ProjectsService.mkUpdateDto (Some "Roadmap 2") None None
                 (Some ["EEEEEEEEEEEEEEEEEEEEEEE5"]) (Some 40) None None)
              "ana@x.com" (Doubles.worldWith [Doubles.roadmap]))
    as [w' [err|p']] eqn:H.
  { vm_compute in H. discriminate. }
  exists w', p'. split; [reflexivity|].
  destruct (update_keeps_identity _ _ _ _ _ _ _ _ _ H)
    as (u & k & p & _ & Hk & Hp & _ & _ & Hc & _ & _ & Hm & _).
  injection Hk as <-. vm_compute in Hp. injection Hp as <-.
  split; [exact Hc|].
  specialize (Hm _ eq_refl).
  assert (mapM Bson.toObjectId ["EEEEEEEEEEEEEEEEEEEEEEE5"]
          = Some ["eeeeeeeeeeeeeeeeeeeeeee5"]) as Hx by reflexivity.
  rewrite Hx in Hm. by injection Hm.
Defined.


Lemma findOne_access_witness :
  ProjectsReads.findOne unit Bson.toObjectId "CCCCCCCCCCCCCCCCCCCCCC01"
    "ben@x.com" (Doubles.worldWith [Doubles.roadmap])
  = inr Doubles.roadmap.
Proof.
  apply (proj1 (findOne_access Bson.toObjectId "CCCCCCCCCCCCCCCCCCCCCC01"
                  "ben@x.com" (Doubles.worldWith [Doubles.roadmap])
                  Doubles.ben "cccccccccccccccccccccc01" Doubles.roadmap
                  eq_refl eq_refl ltac:(vm_compute; reflexivity))).
  split; [reflexivity|]. split.
  - vm_compute. by eexists.
  - right. apply list_elem_of_In. by left.
Defined.

